(** * ArrayFire CUDA backend: device manager (src/backend/cuda/platform.cpp)

    A shallow embedding of the device registry of the CUDA backend: the
    per-core table [compute2cores], the four ranking comparators and
    [sortDevices], the query functions ([getDeviceNativeId],
    [getDeviceIdFromNativeId], [getDeviceProp], [getDeviceInfo]) and the
    stateful device switch ([setActiveDevice], [getStream], the
    constructor of [DeviceManager]).

    C++ [int] is a 32-bit two's complement integer and [size_t] a 64-bit
    unsigned one; both are carried by [Z] with the wrap-around written
    out where the source does arithmetic.  Exceptions and out-of-bounds
    accesses are explicit outcomes of a small state monad. *)

From Stdlib Require Import ZArith List Bool String Ascii Lia Permutation Sorted.
From Stdlib Require Import DecimalString DecimalPos.
From Equations Require Import Equations.
Import ListNotations.

Local Open Scope string_scope.
Local Open Scope list_scope.
Local Open Scope Z_scope.

(* ===================================================================== *)
(** ** Machine integers *)
(* ===================================================================== *)

Definition INT_MIN : Z := - 2 ^ 31.
Definition INT_MAX : Z := 2 ^ 31 - 1.

(** The value an [int] expression holds after two's complement wrap-around. *)
Definition int_wrap (x : Z) : Z := (x + 2 ^ 31) mod 2 ^ 32 - 2 ^ 31.

(** Conversion of an integer value to [size_t]. *)
Definition size_t_wrap (x : Z) : Z := x mod 2 ^ 64.

Definition in_int (x : Z) : Prop := INT_MIN <= x <= INT_MAX.
Definition in_size_t (x : Z) : Prop := 0 <= x < 2 ^ 64.

Definition int_mul (a b : Z) : Z := int_wrap (a * b).
Definition int_add (a b : Z) : Z := int_wrap (a + b).
Definition int_shl (a n : Z) : Z := int_wrap (Z.shiftl a n).

(** [toString(val)] for an integer type: the decimal rendering that
    [operator<<] writes into the stringstream. *)
Definition toString (val : Z) : string := NilZero.string_of_int (Z.to_int val).

(** The newline character that ends a printed line. *)
Definition LF : string := String (ascii_of_nat 10) "".

(** What [operator<<] writes for an integer, said by reading it back: the
    value of a digit character, and of a run of digits read from the
    left. *)
Definition digit_value (c : ascii) : option Z :=
  let n := Z.of_nat (nat_of_ascii c) in
  if (48 <=? n) && (n <=? 57) then Some (n - 48) else None.

Fixpoint numeral_value (acc : Z) (s : string) : option Z :=
  match s with
  | EmptyString => Some acc
  | String c s' =>
      match digit_value c with
      | Some d => numeral_value (10 * acc + d) s'
      | None => None
      end
  end.

(** [s] is the decimal numeral of the natural number [n]: one digit or
    more, no leading zero except for "0" itself, of value [n]. *)
Definition decimal_digits (s : string) (n : Z) : bool :=
  match s with
  | EmptyString => false
  | String c s' =>
      if Ascii.eqb c "0" then
        match s' with EmptyString => n =? 0 | _ => false end
      else
        match numeral_value 0 s with
        | Some v => v =? n
        | None => false
        end
  end.

(** [s] is the decimal text of the integer [z], with a minus sign before
    the numeral of a negative one. *)
Definition decimal_text (s : string) (z : Z) : bool :=
  if z <? 0
  then match s with
       | String c s' => Ascii.eqb c "-" && decimal_digits s' (- z)
       | EmptyString => false
       end
  else decimal_digits s z.

(* ===================================================================== *)
(** ** Device descriptors *)
(* ===================================================================== *)

(** The fields of [cudaDeviceProp] that platform.cpp reads. *)
Record cudaDeviceProp := mkProp {
  name : string;
  totalGlobalMem : Z;        (* size_t *)
  major : Z;                 (* int *)
  minor : Z;                 (* int *)
  clockRate : Z;             (* int, kHz *)
  multiProcessorCount : Z    (* int *)
}.

(** [cudaDevice_t] (declared in platform.hpp): the property snapshot, the
    throughput score [flops] (a [size_t]) and the native identifier. *)
Record cudaDevice_t := mkDevice {
  prop : cudaDeviceProp;
  flops : Z;
  nativeId : Z
}.

(* ===================================================================== *)
(** ** compute2cores *)
(* ===================================================================== *)

(** The local table [gpus], sentinel included: (0xMm, cores). *)
Definition gpus : list (Z * Z) :=
  [ (0x10, 8); (0x11, 8); (0x12, 8); (0x13, 8);
    (0x20, 32); (0x21, 48);
    (0x30, 192); (0x32, 192); (0x35, 192); (0x37, 192);
    (0x50, 128); (0x52, 128); (0x53, 128);
    (0x60, 128); (0x61, 64); (0x62, 128);
    (-1, -1) ].

(** [for (i = 0; gpus[i].compute != -1; ++i) if (gpus[i].compute == key)
    return gpus[i].cores;  return 0;] *)
Fixpoint gpus_scan (tbl : list (Z * Z)) (key : Z) : Z :=
  match tbl with
  | [] => 0
  | (compute, cores) :: rest =>
      if compute =? -1 then 0
      else if compute =? key then cores
      else gpus_scan rest key
  end.

Definition version_code (major minor : Z) : Z := int_add (int_shl major 4) minor.

Definition compute2cores (major minor : Z) : Z :=
  gpus_scan gpus (version_code major minor).

(** The right-hand side of
    [dev.flops = multiProcessorCount * compute2cores(major, minor) * clockRate]
    as the [int] expression it is. *)
Definition flops_int (p : cudaDeviceProp) : Z :=
  int_mul (int_mul (multiProcessorCount p) (compute2cores (major p) (minor p)))
          (clockRate p).

(** One iteration of the enumeration loop of the constructor. *)
Definition enumerate_device (p : cudaDeviceProp) (i : Z) : cudaDevice_t :=
  {| prop := p; flops := size_t_wrap (flops_int p); nativeId := i |}.

(* ===================================================================== *)
(** ** Ranking comparators *)
(* ===================================================================== *)

(** The macro [COMPARE(a,b,f)]: decide on field [f] when it differs,
    otherwise continue with the rest of the chain [k]. *)
Definition COMPARE (a b : Z) (k : bool) : bool :=
  if a >? b then true else if a <? b then false else k.

Definition mem (d : cudaDevice_t) : Z := totalGlobalMem (prop d).
Definition cc_major (d : cudaDevice_t) : Z := major (prop d).
Definition cc_minor (d : cudaDevice_t) : Z := minor (prop d).

Definition card_compare_compute (l r : cudaDevice_t) : bool :=
  COMPARE (cc_major l) (cc_major r)
  (COMPARE (cc_minor l) (cc_minor r)
  (COMPARE (flops l) (flops r)
  (COMPARE (mem l) (mem r)
  (COMPARE (nativeId l) (nativeId r) false)))).

Definition card_compare_flops (l r : cudaDevice_t) : bool :=
  COMPARE (flops l) (flops r)
  (COMPARE (mem l) (mem r)
  (COMPARE (cc_major l) (cc_major r)
  (COMPARE (cc_minor l) (cc_minor r)
  (COMPARE (nativeId l) (nativeId r) false)))).

Definition card_compare_mem (l r : cudaDevice_t) : bool :=
  COMPARE (mem l) (mem r)
  (COMPARE (flops l) (flops r)
  (COMPARE (cc_major l) (cc_major r)
  (COMPARE (cc_minor l) (cc_minor r)
  (COMPARE (nativeId l) (nativeId r) false)))).

Definition card_compare_num (l r : cudaDevice_t) : bool :=
  COMPARE (nativeId l) (nativeId r) false.

(** [enum sort_mode] of the device manager. *)
Module sort_mode.
Inductive t : Set := flops | memory | compute | none.
End sort_mode.

(** [std::stable_sort(first, last, comp)]: the sorted arrangement in which
    elements that [comp] does not separate keep their input order.  An
    element is inserted in front of the sorted tail, behind exactly the
    elements that [comp] puts before it. *)
Section StableSort.
Context {A : Type} (comp : A -> A -> bool).

Fixpoint stable_insert (x : A) (l : list A) : list A :=
  match l with
  | [] => [x]
  | y :: l' => if comp y x then y :: stable_insert x l' else x :: y :: l'
  end.

Fixpoint stable_sort (l : list A) : list A :=
  match l with
  | [] => []
  | x :: l' => stable_insert x (stable_sort l')
  end.
End StableSort.

Definition comparator (mode : sort_mode.t) : cudaDevice_t -> cudaDevice_t -> bool :=
  match mode with
  | sort_mode.memory => card_compare_mem
  | sort_mode.flops => card_compare_flops
  | sort_mode.compute => card_compare_compute
  | sort_mode.none => card_compare_num
  end.

(** [DeviceManager::sortDevices(mode)] on the descriptor vector. *)
Definition sortDevices_list (mode : sort_mode.t) (devs : list cudaDevice_t)
  : list cudaDevice_t :=
  stable_sort (comparator mode) devs.

(* ===================================================================== *)
(** ** Vocabulary for orders and positions *)
(* ===================================================================== *)

(** [x] may stand in front of [y]: [comp] does not put [y] first. *)
Definition not_after {A} (comp : A -> A -> bool) (x y : A) : Prop :=
  comp y x = false.



(** The fields a policy compares, in the order of its [COMPARE] chain. *)
Definition sort_key (mode : sort_mode.t) (d : cudaDevice_t) : list Z :=
  match mode with
  | sort_mode.memory => [mem d; flops d; cc_major d; cc_minor d; nativeId d]
  | sort_mode.flops => [flops d; mem d; cc_major d; cc_minor d; nativeId d]
  | sort_mode.compute => [cc_major d; cc_minor d; flops d; mem d; nativeId d]
  | sort_mode.none => [nativeId d]
  end.

(** A chain of [COMPARE]s ending in [return false]. *)
Fixpoint compare_chain (k1 k2 : list Z) : bool :=
  match k1, k2 with
  | x :: k1', y :: k2' => COMPARE x y (compare_chain k1' k2')
  | _, _ => false
  end.

(* ===================================================================== *)
(** ** Outcomes of a call *)
(* ===================================================================== *)

(** [cudaError_t], with the codes of the CUDA 8 runtime that the file
    names or that the runtime answers below. *)
Definition cudaError_t := Z.
Definition cudaSuccess : cudaError_t := 0.
Definition cudaErrorDevicesUnavailable : cudaError_t := 46.
Definition cudaErrorInvalidDevice : cudaError_t := 10.

Inductive exn : Type :=
| cuda_exception (err : cudaError_t)     (* thrown by CUDA_CHECK *)
| runtime_error (what : string).

(** A call returns, throws, or runs into undefined behaviour (an access
    outside a vector or array). *)
Inductive outcome (A : Type) : Type :=
| Ret (a : A)
| Throw (e : exn)
| Undefined.
Arguments Ret {A} a.
Arguments Throw {A} e.
Arguments Undefined {A}.

Definition obind {A B} (o : outcome A) (k : A -> outcome B) : outcome B :=
  match o with
  | Ret a => k a
  | Throw e => Throw e
  | Undefined => Undefined
  end.

(** [v[i]] on a [std::vector] or a C array of the given contents. *)
Definition vec_at {A} (v : list A) (i : Z) : outcome A :=
  if i <? 0 then Undefined
  else match nth_error v (Z.to_nat i) with
       | Some x => Ret x
       | None => Undefined
       end.

Fixpoint vec_set {A} (v : list A) (n : nat) (x : A) : list A :=
  match v, n with
  | [], _ => []
  | _ :: v', O => x :: v'
  | y :: v', S n' => y :: vec_set v' n' x
  end.

(* ===================================================================== *)
(** ** The registry and the process state around it *)
(* ===================================================================== *)

(** The members of [DeviceManager] that the device switch touches, the
    function-local static [first] of [setActiveDevice], the CUDA runtime's
    current device and call counter, and the text written by [printf]. *)
Record World := mkWorld {
  cuDevices : list cudaDevice_t;
  activeDev : Z;
  nDevices : Z;
  streams : list Z;              (* cudaStream_t streams[MAX_DEVICES]; 0 is the null handle *)
  first : bool;
  cudaCurrent : Z;
  cudaCalls : nat;
  console : list string
}.

Definition set_cuDevices (v : list cudaDevice_t) (w : World) : World :=
  mkWorld v (activeDev w) (nDevices w) (streams w) (first w)
          (cudaCurrent w) (cudaCalls w) (console w).
Definition set_activeDev (d : Z) (w : World) : World :=
  mkWorld (cuDevices w) d (nDevices w) (streams w) (first w)
          (cudaCurrent w) (cudaCalls w) (console w).
Definition set_nDevices (n : Z) (w : World) : World :=
  mkWorld (cuDevices w) (activeDev w) n (streams w) (first w)
          (cudaCurrent w) (cudaCalls w) (console w).
Definition set_streams (s : list Z) (w : World) : World :=
  mkWorld (cuDevices w) (activeDev w) (nDevices w) s (first w)
          (cudaCurrent w) (cudaCalls w) (console w).
Definition set_first (b : bool) (w : World) : World :=
  mkWorld (cuDevices w) (activeDev w) (nDevices w) (streams w) b
          (cudaCurrent w) (cudaCalls w) (console w).
Definition set_cudaCurrent (n : Z) (w : World) : World :=
  mkWorld (cuDevices w) (activeDev w) (nDevices w) (streams w) (first w)
          n (cudaCalls w) (console w).
Definition tick (w : World) : World :=
  mkWorld (cuDevices w) (activeDev w) (nDevices w) (streams w) (first w)
          (cudaCurrent w) (S (cudaCalls w)) (console w).
Definition printf (line : string) (w : World) : World :=
  mkWorld (cuDevices w) (activeDev w) (nDevices w) (streams w) (first w)
          (cudaCurrent w) (cudaCalls w) (console w ++ [line]).

(** State of the process before the registry is constructed:
    [cuDevices(0), activeDev(0), nDevices(0)], [first = true]. *)
Definition initial_world : World :=
  mkWorld [] 0 0 [] true 0 O [].

(** Calls that change the state. *)
Definition M (A : Type) : Type := World -> outcome A * World.

Definition ret {A} (a : A) : M A := fun w => (Ret a, w).
Definition throw {A} (e : exn) : M A := fun w => (Throw e, w).
Definition bind {A B} (m : M A) (k : A -> M B) : M B :=
  fun w => match m w with
           | (Ret a, w') => k a w'
           | (Throw e, w') => (Throw e, w')
           | (Undefined, w') => (Undefined, w')
           end.
Definition gets {A} (f : World -> A) : M A := fun w => (Ret (f w), w).
Definition read {A} (f : World -> outcome A) : M A := fun w => (f w, w).
Definition modify (f : World -> World) : M unit := fun w => (Ret tt, f w).

Declare Scope monad_scope.
Delimit Scope monad_scope with M.
Notation "x <- m ;; k" := (bind m (fun x => k))
  (at level 61, m at next level, right associativity) : monad_scope.
Notation "m ;; k" := (bind m (fun _ => k))
  (at level 61, right associativity) : monad_scope.
Notation "'let?' x := o 'in' k" := (obind o (fun x => k))
  (at level 10, x name, k at level 200).

(** [CUDA_CHECK(err)] (err_cuda.hpp): throws unless [err] is [cudaSuccess]. *)
Definition CUDA_CHECK (err : cudaError_t) : M unit :=
  if err =? cudaSuccess then ret tt else throw (cuda_exception err).

(* ===================================================================== *)
(** ** Queries *)
(* ===================================================================== *)

Definition getDeviceCount (w : World) : Z := nDevices w.
Definition getActiveDeviceId (w : World) : Z := activeDev w.

Definition cuDevices_size (w : World) : Z := Z.of_nat (List.length (cuDevices w)).

Definition getDeviceNativeId (w : World) (device : Z) : outcome Z :=
  if device <? cuDevices_size w
  then let? d := vec_at (cuDevices w) device in Ret (nativeId d)
  else Ret (-1).

(** [if(nId == -1) nId = getDeviceNativeId(device);] in [setActiveDevice]:
    the native id the runtime is switched to. *)
Definition resolve_native (w : World) (device nId : Z) : outcome Z :=
  if nId =? -1 then getDeviceNativeId w device else Ret nId.

(** The loop of [getDeviceIdFromNativeId], entered with [devId]. *)
Equations? native_scan (w : World) (nId devId : Z) : outcome Z
  by wf (Z.to_nat (nDevices w - devId)) lt :=
  native_scan w nId devId with Z_lt_dec devId (nDevices w) => {
    | right _ := Ret devId
    | left Hlt with vec_at (cuDevices w) devId => {
        | Ret d := if nId =? nativeId d then Ret devId
                   else native_scan w nId (devId + 1)
        | Throw e := Throw e
        | Undefined := Undefined } }.
Proof. lia. Qed.

Definition getDeviceIdFromNativeId (w : World) (nId : Z) : outcome Z :=
  native_scan w nId 0.

Definition getDeviceProp (w : World) (device : Z) : outcome cudaDeviceProp :=
  if device <? cuDevices_size w
  then let? d := vec_at (cuDevices w) device in Ret (prop d)
  else let? d := vec_at (cuDevices w) 0 in Ret (prop d).

Definition getDeviceMemorySize (w : World) (device : Z) : outcome Z :=
  let? p := getDeviceProp w device in Ret (totalGlobalMem p).

Definition MB : Z := int_mul 1024 1024.

(** [getDeviceInfo(int device)] *)
Definition getDeviceInfo (w : World) (device : Z) : outcome string :=
  let? dev := getDeviceProp w device in
  let mem_gpu_total := totalGlobalMem dev in
  let show_braces := getActiveDeviceId w =? device in
  let id := ((if show_braces then "[" else "-") ++ toString device ++
             (if show_braces then "]" else "-"))%string in
  let megabytes := size_t_wrap (mem_gpu_total / MB +
                                (if mem_gpu_total mod MB =? 0 then 0 else 1)) in
  let memory := (toString megabytes ++ " MB")%string in
  let compute := ("CUDA Compute " ++ toString (major dev) ++ "." ++
                  toString (minor dev))%string in
  Ret (id ++ " " ++ name dev ++ ", " ++ memory ++ ", " ++ compute ++ LF)%string.

(* ===================================================================== *)
(** ** Collaborators *)
(* ===================================================================== *)

(** The CUDA runtime and the process environment, as platform.cpp sees
    them.  The result of a runtime call may depend on when it is made
    (the number of runtime calls before it) and on its argument; stream
    creation acts on the runtime's current device. *)
Record Platform := mkPlatform {
  cudaGetDeviceCount : cudaError_t * Z;
  cudaGetDeviceProperties : Z -> cudaDeviceProp;
  cudaSetDevice : nat -> Z -> cudaError_t;
  cudaStreamCreate : nat -> Z -> cudaError_t;
  getEnvVar : string -> string;
  (** [s >> def_device] on the text [s]: the value left in [def_device],
      which holds [init] before the extraction. *)
  istream_extract_int : string -> Z -> Z
}.

(** What the build fixes: [DeviceManager::MAX_DEVICES], the default
    argument of [sortDevices] (both declared in platform.hpp) and whether
    [NDEBUG] is defined. *)
Record Build := mkBuild {
  MAX_DEVICES : Z;
  sortDevices_default : sort_mode.t;
  NDEBUG : bool
}.

Section DeviceManager.
Variable P : Platform.
Variable B : Build.

Local Open Scope monad_scope.

(** [cudaSetDevice(nId)]: on success the runtime's current device
    becomes [nId]. *)
Definition do_cudaSetDevice (nId : Z) : M cudaError_t := fun w =>
  let err := cudaSetDevice P (cudaCalls w) nId in
  (Ret err, tick (if err =? cudaSuccess then set_cudaCurrent nId w else w)).

(** [cudaStreamCreate(&streams[device])]: on success the slot receives a
    new, non-null handle; on failure it is left as it was. *)
Definition do_cudaStreamCreate (device : Z) : M cudaError_t := fun w =>
  match vec_at (streams w) device with
  | Ret _ =>
      let err := cudaStreamCreate P (cudaCalls w) (cudaCurrent w) in
      let handle := Z.of_nat (S (cudaCalls w)) in
      (Ret err,
       tick (if err =? cudaSuccess
             then set_streams (vec_set (streams w) (Z.to_nat device) handle) w
             else w))
  | Throw e => (Throw e, w)
  | Undefined => (Undefined, w)
  end.

Definition debug_printf (line : string) : M unit :=
  if NDEBUG B then ret tt else modify (printf line).

(** The [while(true)] loop of [setActiveDevice], entered with the
    failed [device] and its error [err]. *)
Equations? fallback_scan (numDevices old device : Z) (err : cudaError_t)
                         (w : World) : outcome Z * World
  by wf (Z.to_nat (numDevices - device)) lt :=
  fallback_scan numDevices old device err w
    with Z.eq_dec err cudaErrorDevicesUnavailable => {
    | right _ :=
        (CUDA_CHECK err ;;
         modify (set_activeDev device) ;;
         ret old) w
    | left _ with Z_ge_dec (device + 1) numDevices => {
        | left _ :=
            (debug_printf ("Warning: Device " ++ toString device ++
                           " is unavailable. Incrementing to next device " ++ LF) ;;
             (* break *)
             CUDA_CHECK err ;;
             ret old) w
        | right Hlt :=
            (debug_printf ("Warning: Device " ++ toString device ++
                           " is unavailable. Incrementing to next device " ++ LF) ;;
             nId <- read (fun w' => let? d := vec_at (cuDevices w') (device + 1)
                                    in Ret (nativeId d)) ;;
             e <- do_cudaSetDevice nId ;;
             CUDA_CHECK e ;;
             err' <- do_cudaStreamCreate (device + 1) ;;
             (fun w' => fallback_scan numDevices old (device + 1) err' w')) w } }.
Proof. lia. Qed.

(** [int DeviceManager::setActiveDevice(int device, int nId)] *)
Definition setActiveDevice (device nId : Z) : M Z :=
  numDevices <- gets cuDevices_size ;;
  if device >? numDevices then ret (-1) else
  old <- gets activeDev ;;
  nId <- read (fun w => resolve_native w device nId) ;;
  e <- do_cudaSetDevice nId ;;
  CUDA_CHECK e ;;
  s <- read (fun w => vec_at (streams w) device) ;;
  err <- (if s =? 0 then do_cudaStreamCreate device else ret cudaSuccess) ;;
  modify (set_activeDev device) ;;
  if err =? cudaSuccess then ret old else
  f <- gets first ;;
  if negb f then (CUDA_CHECK err ;; ret old) else
  modify (set_first false) ;;
  fallback_scan numDevices old device err.

(** [int setDevice(int device)]: the native id takes its default, -1. *)
Definition setDevice (device : Z) : M Z := setActiveDevice device (-1).

(** [cudaStream_t getStream(int device)] *)
Definition getStream (device : Z) : M Z :=
  str <- read (fun w => vec_at (streams w) device) ;;
  if str =? 0 then
    active_dev <- gets activeDev ;;
    setDevice device ;;
    str' <- read (fun w => vec_at (streams w) device) ;;
    setDevice active_dev ;;
    ret str'
  else ret str.

Definition getActiveStream : M Z :=
  d <- gets getActiveDeviceId ;; getStream d.

(** [void DeviceManager::sortDevices(sort_mode mode)] *)
Definition sortDevices (mode : sort_mode.t) : M unit :=
  modify (fun w => set_cuDevices (sortDevices_list mode (cuDevices w)) w).

(** The indices [0 .. n-1] of a counting [for] loop. *)
Definition upto (n : Z) : list Z := map Z.of_nat (seq 0 (Z.to_nat n)).

(** The enumeration loop of the constructor: one descriptor per native
    device, in native order. *)
Definition enumerate_devices (n : Z) : list cudaDevice_t :=
  map (fun i => enumerate_device (cudaGetDeviceProperties P i) i) (upto n).

(** [DeviceManager::DeviceManager()] *)
Definition DeviceManager_ctor : M unit :=
  let (e, n) := cudaGetDeviceCount P in
  modify (set_nDevices n) ;;
  CUDA_CHECK e ;;
  if n =? 0 then throw (runtime_error "No CUDA-Capable devices found") else
  modify (set_cuDevices (enumerate_devices n)) ;;
  sortDevices (sortDevices_default B) ;;
  modify (set_streams (repeat 0 (Z.to_nat (MAX_DEVICES B)))) ;;
  let deviceENV := getEnvVar P "AF_CUDA_DEFAULT_DEVICE" in
  if String.eqb deviceENV "" then
    d0 <- read (fun w => vec_at (cuDevices w) 0) ;;
    setActiveDevice 0 (nativeId d0) ;;
    ret tt
  else
    let def_device := istream_extract_int P deviceENV (-1) in
    nDev <- gets nDevices ;;
    if (def_device <? 0) || (def_device >=? nDev) then
      modify (printf ("WARNING: AF_CUDA_DEFAULT_DEVICE is out of range" ++ LF)) ;;
      modify (printf ("Setting default device as 0" ++ LF)) ;;
      d0 <- read (fun w => vec_at (cuDevices w) 0) ;;
      setActiveDevice 0 (nativeId d0) ;;
      ret tt
    else
      d <- read (fun w => vec_at (cuDevices w) def_device) ;;
      setActiveDevice def_device (nativeId d) ;;
      ret tt.

(** [DeviceManager::getInstance()] on first use: the registry that the
    constructor leaves behind, when it completes. *)
Definition getInstance : outcome unit * World := DeviceManager_ctor initial_world.

End DeviceManager.

(* ===================================================================== *)
(** ** What a device switch keeps *)
(* ===================================================================== *)

(** [w'] has the descriptors and the device count of [w], a queue in
    every slot where [w] has one (not necessarily the same queue), and
    the first-time marker not set again. *)
Definition registry_extends (w w' : World) : Prop :=
  cuDevices w' = cuDevices w /\
  nDevices w' = nDevices w /\
  (first w = false -> first w' = false) /\
  (forall i h, vec_at (streams w) i = Ret h -> h <> 0 ->
               exists h', vec_at (streams w') i = Ret h' /\ h' <> 0).

(** The slots of the stream table below [bound] hold in [w'] what they
    held in [w]. *)
Definition kept_below (bound : Z) (w w' : World) : Prop :=
  forall i, i < bound -> vec_at (streams w') i = vec_at (streams w) i.

(** Every run of [m] relates the state before to the state after. *)
Definition preserves {A} (R : World -> World -> Prop) (m : M A) : Prop :=
  forall w o w', m w = (o, w') -> R w w'.

(** The descriptors and the active index are the same before and after. *)
Definition same_active (w w' : World) : Prop :=
  cuDevices w' = cuDevices w /\ activeDev w' = activeDev w.

(** What the scan for another device, entered at [device], can do to the
    active index: leave it, or set it to an index it has tried. *)
Definition scan_bound (numDevices device : Z) (w w' : World) : Prop :=
  cuDevices w' = cuDevices w /\
  (activeDev w' = activeDev w \/
   device <= activeDev w' < Z.max numDevices (device + 1)).

(** The registry between two calls: the active index is not above the
    device count, and while the first-time marker is set the active
    device has its queue. *)
Definition registry_ok (w : World) : Prop :=
  activeDev w <= cuDevices_size w /\
  (first w = true ->
   exists h, vec_at (streams w) (activeDev w) = Ret h /\ h <> 0).

(* ===================================================================== *)
(** ** Concrete devices, platforms and registries *)
(* ===================================================================== *)

(** A GeForce GTX 1080 Ti as the runtime reports it: compute version 6.1,
    28 multiprocessors, 1582 MHz, 11 GiB. *)
Definition gtx_1080_ti : cudaDeviceProp :=
  mkProp "GeForce GTX 1080 Ti" 11718230016 6 1 1582000 28.

(** A registry with that single device, active, its queue created. *)
Definition single_device_world : World :=
  mkWorld [enumerate_device gtx_1080_ti 0] 0 1 [2] true 0 2%nat [].

(** Two cards for the ranking scenario: [card_A] has less memory but a
    higher throughput score than [card_B]. *)
Definition card (label : string) (memory multiprocessors : Z) : cudaDeviceProp :=
  mkProp label memory 6 1 1000 multiprocessors.
Definition card_A : cudaDevice_t := enumerate_device (card "A" 4000000000 20) 0.
Definition card_B : cudaDevice_t := enumerate_device (card "B" 8000000000 10) 1.

(** A machine with three devices; ranked by throughput, by memory or by
    compute version, logical index and native id coincide. *)
Definition three_cards (i : Z) : cudaDeviceProp :=
  if i =? 0 then card "X" 8000000000 20
  else if i =? 1 then card "Y" 4000000000 10
  else card "Z" 2000000000 5.

(** The runtime of that machine.  [cudaSetDevice] accepts the native ids
    0..2 and answers [cudaErrorInvalidDevice] otherwise; the device
    [busy] is held by another process in exclusive mode, so creating a
    stream on it fails with [cudaErrorDevicesUnavailable].  [env] is the
    text of every environment variable; a decimal text is extracted as
    its value, any other as 0. *)
Definition three_gpu_platform (env : string) (busy : Z) : Platform :=
  mkPlatform
    (cudaSuccess, 3)
    three_cards
    (fun _ nId => if (0 <=? nId) && (nId <? 3) then cudaSuccess
                  else cudaErrorInvalidDevice)
    (fun _ current => if current =? busy then cudaErrorDevicesUnavailable
                      else cudaSuccess)
    (fun _ => env)
    (fun text _ => match NilZero.int_of_string text with
                   | Some d => Z.of_int d
                   | None => 0
                   end).

Definition release_build : Build := mkBuild 16 sort_mode.flops true.

(** The registry of that machine after construction, when device 1 is
    busy and no default device is named in the environment. *)
Definition bootstrapped : World :=
  snd (getInstance (three_gpu_platform "" 1) release_build).

(** The registry of that machine after construction, when device 0 is
    busy and the environment names the default device 3. *)
Definition bootstrapped_on_fallback : World :=
  snd (getInstance (three_gpu_platform "3" 0) release_build).

(* ===================================================================== *)
(** ** Standing behaviour of a device *)
(* ===================================================================== *)

(** The runtime accepts a switch to native device [n] whenever asked. *)
Definition always_accepts (P : Platform) (n : Z) : Prop :=
  forall t, cudaSetDevice P t n = cudaSuccess.

(** Native device [n] is held in exclusive mode by someone else: every
    attempt to create a stream on it fails with "devices unavailable". *)
Definition always_unavailable (P : Platform) (n : Z) : Prop :=
  forall t, cudaStreamCreate P t n = cudaErrorDevicesUnavailable.

(** Every attempt to create a stream on native device [n] succeeds. *)
Definition always_creates (P : Platform) (n : Z) : Prop :=
  forall t, cudaStreamCreate P t n = cudaSuccess.

(* ===================================================================== *)
(** ** devprop: the device name handed to the C interface *)
(* ===================================================================== *)

Definition NUL : ascii := ascii_of_nat 0.
Definition SPACE : ascii := " "%char.
Definition UNDERSCORE : ascii := "_"%char.

(** The C string held in a character array: the characters in front of
    the first NUL. *)
Fixpoint c_str (buf : list ascii) : list ascii :=
  match buf with
  | [] => []
  | c :: rest => if Ascii.eqb c NUL then [] else c :: c_str rest
  end.

(** [snprintf(buf, size, "%s", text)]: at most [size - 1] characters of
    the C string [text], then a NUL; the bytes behind it keep their
    contents. *)
Definition snprintf_s (size : nat) (text buf : list ascii) : list ascii :=
  let body := firstn (size - 1) (c_str text) in
  body ++ NUL :: skipn (S (List.length body)) buf.

(** The body of the loop [for (int i = 0; i < 63; i++)] of [devprop]:
    a space in front of the end of the string or of another space ends
    the string, any other space becomes an underscore. *)
Definition sanitize_at (d_name : list ascii) (i : nat) : list ascii :=
  if Ascii.eqb (nth i d_name NUL) SPACE then
    if Ascii.eqb (nth (S i) d_name NUL) NUL || Ascii.eqb (nth (S i) d_name NUL) SPACE
    then vec_set d_name i NUL
    else vec_set d_name i UNDERSCORE
  else d_name.

Definition sanitize_name (d_name : list ascii) : list ascii :=
  fold_left sanitize_at (seq 0 63) d_name.

(** The four character arrays that [devprop] fills. *)
Record devprop_buffers := mkBuffers {
  d_name : list ascii;        (* at least 64 bytes *)
  d_platform : list ascii;    (* at least 10 bytes *)
  d_toolkit : list ascii;     (* at least 64 bytes *)
  d_compute : list ascii      (* at least 10 bytes *)
}.

(** [void devprop(char* d_name, char* d_platform, char* d_toolkit,
    char* d_compute)].  [cudaRuntime] is the text that
    [getCUDARuntimeVersion()] returns. *)
Definition devprop (cudaRuntime : string) (b : devprop_buffers) : M devprop_buffers :=
  fun w =>
    if getDeviceCount w <=? 0
    then (Ret b, printf ("No CUDA-capable devices detected." ++ LF) w)
    else
      match getDeviceProp w (getActiveDeviceId w) with
      | Ret dev =>
          if (List.length (d_name b) <? 64)%nat || (List.length (d_platform b) <? 10)%nat
             || (List.length (d_toolkit b) <? 64)%nat
             || (List.length (d_compute b) <? 10)%nat
          then (Undefined, w)
          else
            (Ret {| d_name :=
                      sanitize_name
                        (snprintf_s 64 (list_ascii_of_string (name dev)) (d_name b));
                    d_platform :=
                      snprintf_s 10 (list_ascii_of_string "CUDA") (d_platform b);
                    d_toolkit :=
                      snprintf_s 64 (list_ascii_of_string ("v" ++ cudaRuntime))
                                 (d_toolkit b);
                    d_compute :=
                      snprintf_s 10
                        (list_ascii_of_string
                           (toString (major dev) ++ "." ++ toString (minor dev)))
                        (d_compute b) |},
             w)
      | Throw e => (Throw e, w)
      | Undefined => (Undefined, w)
      end.

(** What the loop is meant to leave as the name: the text up to the first
    space that is last or followed by a space, with the spaces in
    between as underscores. *)
Fixpoint underscored (text : list ascii) : list ascii :=
  match text with
  | [] => []
  | c :: rest =>
      if Ascii.eqb c SPACE then
        match rest with
        | [] => []
        | c' :: _ => if Ascii.eqb c' SPACE then [] else UNDERSCORE :: underscored rest
        end
      else c :: underscored rest
  end.

(** The first [k] turns of the loop on the characters [l], as a function
    of the characters read. *)
Fixpoint sanitize_prefix (k : nat) (l : list ascii) : list ascii :=
  match k, l with
  | O, _ => l
  | S _, [] => []
  | S k', c :: rest =>
      (if Ascii.eqb c SPACE then
         if Ascii.eqb (hd NUL rest) NUL || Ascii.eqb (hd NUL rest) SPACE
         then NUL else UNDERSCORE
       else c) :: sanitize_prefix k' rest
  end.

(* ===================================================================== *)
(** ** getMaxJitSize *)
(* ===================================================================== *)

(** Conversion of an [int] to [unsigned]. *)
Definition unsigned_wrap (x : Z) : Z := x mod 2 ^ 32.

(** [unsigned getMaxJitSize()], on the function-local static [length];
    [env_var] is the text [getEnvVar("AF_CUDA_MAX_JIT_LEN")] returns at
    the time of the call and [stoi] is [std::stoi], which throws on text
    it cannot convert.  The result is paired with the new [length]. *)
Definition getMaxJitSize (stoi : string -> outcome Z) (env_var : string) (length : Z)
  : outcome Z * Z :=
  let MAX_JIT_LEN := 100 in
  if length =? 0 then
    if negb (String.eqb env_var "") then
      match stoi env_var with
      | Ret v => (Ret (unsigned_wrap v), v)
      | Throw e => (Throw e, length)
      | Undefined => (Undefined, length)
      end
    else (Ret (unsigned_wrap MAX_JIT_LEN), MAX_JIT_LEN)
  else (Ret (unsigned_wrap length), length).

(** A series of calls, one per environment text, threading the static. *)
Fixpoint getMaxJitSize_calls (stoi : string -> outcome Z) (envs : list string)
         (length : Z) : list (outcome Z) :=
  match envs with
  | [] => []
  | env_var :: later =>
      let (r, length') := getMaxJitSize stoi env_var length in
      r :: getMaxJitSize_calls stoi later length'
  end.

(* ===================================================================== *)
(** ** sync and the C interface to native ids *)
(* ===================================================================== *)

(** The error boundary of the C interface (err_common.hpp, af/defines.h):
    the code for success and the code [CATCHALL] turns an exception into. *)
Record ErrorBoundary := mkBoundary {
  AF_SUCCESS : Z;
  CATCHALL : exn -> Z
}.

Section Interface.
Variable P : Platform.
Variable B : Build.
(** [cudaStreamSynchronize(stream)], asked at a given time. *)
Variable cudaStreamSynchronize : nat -> Z -> cudaError_t.
Variable E : ErrorBoundary.

Local Open Scope monad_scope.

Definition do_cudaStreamSynchronize (stream : Z) : M cudaError_t := fun w =>
  (Ret (cudaStreamSynchronize (cudaCalls w) stream), tick w).

(** [void sync(int device)] *)
Definition sync (device : Z) : M unit :=
  currDevice <- gets getActiveDeviceId ;;
  setDevice P B device ;;
  s <- getActiveStream P B ;;
  e <- do_cudaStreamSynchronize s ;;
  CUDA_CHECK e ;;
  setDevice P B currDevice ;;
  ret tt.

(** [try { ... } CATCHALL; return AF_SUCCESS;] *)
Definition try_catchall {A} (body : M A) : M Z := fun w =>
  match body w with
  | (Ret _, w') => (Ret (AF_SUCCESS E), w')
  | (Throw e, w') => (Ret (CATCHALL E e), w')
  | (Undefined, w') => (Undefined, w')
  end.

(** [af_err afcu_get_native_id(int* nativeid, int id)]: the error code,
    and the value stored through [nativeid] when there is one. *)
Definition afcu_get_native_id (id : Z) : World -> outcome (Z * option Z) := fun w =>
  match getDeviceNativeId w id with
  | Ret n => Ret (AF_SUCCESS E, Some n)
  | Throw e => Ret (CATCHALL E e, None)
  | Undefined => Undefined
  end.

(** [af_err afcu_set_native_id(int nativeid)] *)
Definition afcu_set_native_id (nativeid : Z) : M Z :=
  try_catchall
    (devId <- read (fun w => getDeviceIdFromNativeId w nativeid) ;;
     setDevice P B devId).

(** [af_err afcu_get_stream(cudaStream_t* stream, int id)]: the error code;
    the handle is stored through [stream] when the call does not throw. *)
Definition afcu_get_stream (id : Z) : M (Z * option Z) := fun w =>
  match getStream P B id w with
  | (Ret s, w') => (Ret (AF_SUCCESS E, Some s), w')
  | (Throw e, w') => (Ret (CATCHALL E e, None), w')
  | (Undefined, w') => (Undefined, w')
  end.
End Interface.

(* ===================================================================== *)
(** ** blasHandle: one handle per device, made on first request *)
(* ===================================================================== *)

(** The function-local [std::once_flag initFlags[MAX_DEVICES]] of
    [blasHandle], the slots [cublasHandles[MAX_DEVICES]] of the manager
    (each empty or owning a handle object, of which the inner handle is
    kept), and the number of times [new cublasHandle()] has been run. *)
Record HandleCache := mkCache {
  initFlags : list bool;
  cublasHandles : list (option Z);
  constructions : nat
}.

(** [std::call_once(initFlags[id], [&]{ cublasHandles[id].reset(new
    cublasHandle()); })]: nothing when the flag is set; otherwise the
    constructor runs, and the flag is set unless the constructor throws.
    [new_handle k] is what the k-th run of the constructor gives. *)
Definition call_once_new (new_handle : nat -> outcome Z) (id : Z) (c : HandleCache)
  : outcome unit * HandleCache :=
  match vec_at (initFlags c) id with
  | Ret true => (Ret tt, c)
  | Ret false =>
      let attempted := mkCache (initFlags c) (cublasHandles c) (S (constructions c)) in
      match new_handle (constructions c) with
      | Ret h =>
          match vec_at (cublasHandles c) id with
          | Ret _ =>
              (Ret tt,
               mkCache (vec_set (initFlags c) (Z.to_nat id) true)
                       (vec_set (cublasHandles c) (Z.to_nat id) (Some h))
                       (S (constructions c)))
          | Throw e => (Throw e, attempted)
          | Undefined => (Undefined, attempted)
          end
      | Throw e => (Throw e, attempted)
      | Undefined => (Undefined, attempted)
      end
  | Throw e => (Throw e, c)
  | Undefined => (Undefined, c)
  end.

(** [BlasHandle blasHandle()], for the registry state [w]. *)
Definition blasHandle (new_handle : nat -> outcome Z) (w : World) (c : HandleCache)
  : outcome Z * HandleCache :=
  let id := getActiveDeviceId w in
  match call_once_new new_handle id c with
  | (Ret _, c') =>
      match vec_at (cublasHandles c') id with
      | Ret (Some h) => (Ret h, c')
      | Ret None => (Undefined, c')          (* [get()] of an empty slot *)
      | Throw e => (Throw e, c')
      | Undefined => (Undefined, c')
      end
  | (Throw e, c') => (Throw e, c')
  | (Undefined, c') => (Undefined, c')
  end.

(** The cache after a series of calls, one per registry state, whatever
    each call gave. *)
Fixpoint blasHandle_calls (new_handle : nat -> outcome Z) (ws : list World)
         (c : HandleCache) : HandleCache :=
  match ws with
  | [] => c
  | w :: later => blasHandle_calls new_handle later (snd (blasHandle new_handle w c))
  end.

(** Device [i] has been served: its flag is set and its slot owns [h]. *)
Definition serves (c : HandleCache) (i h : Z) : Prop :=
  vec_at (initFlags c) i = Ret true /\ vec_at (cublasHandles c) i = Ret (Some h).

(* ===================================================================== *)
(** ** More concrete machines *)
(* ===================================================================== *)

Definition cudaErrorMemoryAllocation : cudaError_t := 2.

(** The three-device machine on which creating a stream fails with [err]
    on every device from native id [from] on; no default device is named
    in the environment. *)
Definition three_gpu_platform_failing (from : Z) (err : cudaError_t) : Platform :=
  mkPlatform
    (cudaSuccess, 3)
    three_cards
    (fun _ nId => if (0 <=? nId) && (nId <? 3) then cudaSuccess
                  else cudaErrorInvalidDevice)
    (fun _ current => if from <=? current then err else cudaSuccess)
    (fun _ => "")
    (fun _ init => init).

(** Its registry after construction, when device 0 is free. *)
Definition bootstrapped_failing (err : cudaError_t) : World :=
  snd (getInstance (three_gpu_platform_failing 1 err) release_build).

(** The error codes of af/defines.h for success and for an internal
    error, into which every exception is turned here. *)
Definition af_boundary : ErrorBoundary := mkBoundary 0 (fun _ => 998).

(** A stream synchronisation that always succeeds. *)
Definition synchronize_ok : nat -> Z -> cudaError_t := fun _ _ => cudaSuccess.

(** [std::stoi] on decimal text; any other text throws. *)
Definition stoi_decimal (text : string) : outcome Z :=
  match NilZero.int_of_string text with
  | Some d => Ret (Z.of_int d)
  | None => Throw (runtime_error "stoi")
  end.

(** Sixteen empty slots, and a constructor that gives the handles 100,
    101, ... *)
Definition empty_cache : HandleCache := mkCache (repeat false 16) (repeat None 16) O.
Definition numbered_handles : nat -> outcome Z := fun k => Ret (100 + Z.of_nat k).

(** Arrays of the sizes [devprop] expects, zero-filled. *)
Definition zeroed_buffers : devprop_buffers :=
  mkBuffers (repeat NUL 64) (repeat NUL 10) (repeat NUL 64) (repeat NUL 10).

(** Case analysis on every comparison of a [COMPARE] chain. *)
Ltac compare_cases :=
  unfold COMPARE in *;
  repeat match goal with
         | H : context [?a >? ?b] |- _ => destruct (Z.gtb_spec a b)
         | H : context [?a <? ?b] |- _ => destruct (Z.ltb_spec a b)
         | |- context [?a >? ?b] => destruct (Z.gtb_spec a b)
         | |- context [?a <? ?b] => destruct (Z.ltb_spec a b)
         end;
  try discriminate; try lia; try reflexivity.

(* ===================================================================== *)
(** ** Facts about vectors and outcomes *)
(* ===================================================================== *)

Lemma vec_at_in_range {A} (v : list A) (i : Z) :
  0 <= i < Z.of_nat (List.length v) -> exists x, vec_at v i = Ret x.
Proof.
  intros Hi. unfold vec_at.
  destruct (Z.ltb_spec i 0) as [Hneg | _]; [lia |].
  destruct (nth_error v (Z.to_nat i)) as [x |] eqn:Hnth.
  - now exists x.
  - apply nth_error_None in Hnth. lia.
Qed.

Lemma vec_at_Ret_range {A} (v : list A) (i : Z) (x : A) :
  vec_at v i = Ret x -> 0 <= i < Z.of_nat (List.length v).
Proof.
  unfold vec_at. destruct (Z.ltb_spec i 0) as [Hneg | Hpos]; [discriminate |].
  destruct (nth_error v (Z.to_nat i)) eqn:Hnth; [| discriminate].
  intros _. assert (Hlt : (Z.to_nat i < List.length v)%nat).
  { apply nth_error_Some. congruence. }
  lia.
Qed.

Lemma vec_at_negative {A} (v : list A) (i : Z) : i < 0 -> vec_at v i = Undefined.
Proof.
  intros Hi. unfold vec_at. now destruct (Z.ltb_spec i 0); [| lia].
Qed.

Lemma vec_at_beyond {A} (v : list A) (i : Z) :
  Z.of_nat (List.length v) <= i -> vec_at v i = Undefined.
Proof.
  intros Hi. unfold vec_at. destruct (Z.ltb_spec i 0); [reflexivity |].
  destruct (nth_error v (Z.to_nat i)) eqn:Hnth; [| reflexivity].
  assert ((Z.to_nat i < List.length v)%nat) by (apply nth_error_Some; congruence).
  lia.
Qed.

(* ===================================================================== *)
(** ** Native id lookup in both directions *)
(* ===================================================================== *)

Lemma getDeviceNativeId_valid (w : World) (i : Z) (d : cudaDevice_t) :
  vec_at (cuDevices w) i = Ret d -> getDeviceNativeId w i = Ret (nativeId d).
Proof.
  intros Hd. unfold getDeviceNativeId, cuDevices_size.
  pose proof (vec_at_Ret_range _ _ _ Hd) as Hr.
  destruct (Z.ltb_spec i (Z.of_nat (List.length (cuDevices w)))); [| lia].
  now rewrite Hd.
Qed.

(** The scan started at or before a slot that holds native id [n] stops at
    a slot, not later than that one, that also holds [n]. *)
Lemma native_scan_finds (w : World) (i : Z) (d : cudaDevice_t) :
  nDevices w = cuDevices_size w ->
  vec_at (cuDevices w) i = Ret d ->
  forall (k : nat) (devId : Z),
    Z.to_nat (i - devId) = k -> 0 <= devId <= i ->
    exists j dj, native_scan w (nativeId d) devId = Ret j /\
                 devId <= j <= i /\
                 vec_at (cuDevices w) j = Ret dj /\ nativeId dj = nativeId d.
Proof.
  intros Hn Hd. pose proof (vec_at_Ret_range _ _ _ Hd) as Hi.
  induction k as [| k IH]; intros devId Hk Hdev.
  - assert (devId = i) by lia. subst devId.
    simp native_scan.
    destruct (Z_lt_dec i (nDevices w)) as [Hlt | Hge]; cbn.
    + rewrite Hd. cbn. rewrite Z.eqb_refl. exists i, d. intuition lia.
    + unfold cuDevices_size in Hn. lia.
  - simp native_scan.
    destruct (Z_lt_dec devId (nDevices w)) as [Hlt | Hge]; cbn.
    + destruct (vec_at_in_range (cuDevices w) devId) as [x Hx].
      { unfold cuDevices_size in Hn. lia. }
      rewrite Hx. cbn.
      destruct (Z.eqb_spec (nativeId d) (nativeId x)) as [Heq | Hne].
      * exists devId, x. intuition lia.
      * destruct (IH (devId + 1)) as (j & dj & Hs & Hj & Hdj & Hid); [lia | lia |].
        exists j, dj. intuition lia.
    + unfold cuDevices_size in Hn. lia.
Qed.

(** C3.  For every valid logical index [i] the lookup in both directions
    round-trips: with [n = nativeId(i)] and [j = logicalIndexForNativeId(n)],
    both calls return, [j] is a valid index and [nativeId(j) = n]. *)
Theorem native_id_round_trip (w : World) (i : Z) :
  nDevices w = cuDevices_size w ->
  0 <= i < getDeviceCount w ->
  exists n j,
    getDeviceNativeId w i = Ret n /\
    getDeviceIdFromNativeId w n = Ret j /\
    0 <= j < getDeviceCount w /\
    getDeviceNativeId w j = Ret n /\
    (let? n1 := getDeviceNativeId w i in
     let? j1 := getDeviceIdFromNativeId w n1 in
     getDeviceNativeId w j1) = getDeviceNativeId w i.
Proof.
  intros Hn Hi. unfold getDeviceCount in *.
  destruct (vec_at_in_range (cuDevices w) i) as [d Hd].
  { unfold cuDevices_size in Hn. lia. }
  destruct (native_scan_finds w i d Hn Hd (Z.to_nat i) 0) as (j & dj & Hs & Hj & Hdj & Hid);
    [f_equal; lia | lia |].
  exists (nativeId d), j.
  rewrite (getDeviceNativeId_valid w i d Hd).
  unfold getDeviceIdFromNativeId. cbn. rewrite Hs. cbn.
  rewrite (getDeviceNativeId_valid w j dj Hdj), Hid.
  repeat split; try reflexivity; lia.
Qed.

(* ===================================================================== *)
(** ** Throughput score *)
(* ===================================================================== *)

Lemma int_wrap_small (x : Z) : in_int x -> int_wrap x = x.
Proof.
  unfold in_int, INT_MIN, INT_MAX, int_wrap. intros Hx.
  rewrite Z.mod_small; lia.
Qed.

Lemma compute2cores_6_1 : compute2cores 6 1 = 64.
Proof. reflexivity. Qed.

(** The codes that the table lists ahead of its sentinel. *)
Lemma gpus_scan_absent (tbl : list (Z * Z)) (key : Z) :
  ~ In key (map fst tbl) -> gpus_scan tbl key = 0.
Proof.
  induction tbl as [| [compute cores] rest IH]; intros Hnot; cbn in *.
  - reflexivity.
  - destruct (compute =? -1); [reflexivity |].
    destruct (Z.eqb_spec compute key) as [Heq | Hne].
    + exfalso. apply Hnot. now left.
    + apply IH. intros Hin. apply Hnot. now right.
Qed.

Lemma compute2cores_absent (major minor : Z) :
  ~ In (version_code major minor) (map fst gpus) -> compute2cores major minor = 0.
Proof. apply gpus_scan_absent. Qed.

Lemma flops_absent (p : cudaDeviceProp) (i : Z) :
  ~ In (version_code (major p) (minor p)) (map fst gpus) ->
  flops (enumerate_device p i) = 0.
Proof.
  intros Habs. cbn [flops enumerate_device]. unfold flops_int.
  rewrite (compute2cores_absent _ _ Habs).
  unfold int_mul. now rewrite Z.mul_0_r.
Qed.

(** While the products stay inside [int], the score is the product. *)
Lemma flops_in_range (p : cudaDeviceProp) (i : Z) :
  let cores := compute2cores (major p) (minor p) in
  in_int (multiProcessorCount p * cores) ->
  0 <= multiProcessorCount p * cores * clockRate p <= INT_MAX ->
  flops (enumerate_device p i) = multiProcessorCount p * cores * clockRate p.
Proof.
  intros cores H1 H2. cbn [flops enumerate_device].
  unfold flops_int, int_mul. fold cores. clearbody cores.
  rewrite (int_wrap_small _ H1).
  assert (H3 : in_int (multiProcessorCount p * cores * clockRate p)).
  { unfold in_int, INT_MIN, INT_MAX in *. lia. }
  rewrite (int_wrap_small _ H3).
  unfold size_t_wrap. apply Z.mod_small.
  unfold INT_MAX in H2. lia.
Qed.

(** C4.  The table maps compute version 6.1 to 64, but the score of a
    device is the product taken in [int]: for a GTX 1080 Ti
    (28 multiprocessors, 1582000 kHz) the product 28 * 64 * 1582000 =
    2834944000 exceeds [INT_MAX], the [int] expression wraps to
    -1460023296 and the stored score is 18446744072249528320. *)
Theorem flops_gtx_1080_ti_overflows :
  compute2cores (major gtx_1080_ti) (minor gtx_1080_ti) = 64 /\
  multiProcessorCount gtx_1080_ti * 64 * clockRate gtx_1080_ti = 2834944000 /\
  INT_MAX < 2834944000 /\
  flops_int gtx_1080_ti = -1460023296 /\
  flops (enumerate_device gtx_1080_ti 0) = 18446744072249528320 /\
  flops (enumerate_device gtx_1080_ti 0) <>
    multiProcessorCount gtx_1080_ti
    * compute2cores (major gtx_1080_ti) (minor gtx_1080_ti)
    * clockRate gtx_1080_ti.
Proof.
  repeat split; try reflexivity.
  vm_compute. discriminate.
Qed.

(* ===================================================================== *)
(** ** Device properties and the summary line *)
(* ===================================================================== *)

(** C8 (as the code has it).  On a registry that holds a device, as every
    constructed one does, [getDeviceProp] answers every index at or
    beyond the device count, and what it returns is the properties of
    device 0, the value it returns for index 0: no error is raised. *)
Theorem getDeviceProp_beyond_count (w : World) (d : Z) :
  getDeviceCount w = cuDevices_size w ->
  0 < getDeviceCount w ->
  getDeviceCount w <= d ->
  exists d0,
    vec_at (cuDevices w) 0 = Ret d0 /\
    getDeviceProp w 0 = Ret (prop d0) /\
    getDeviceProp w d = Ret (prop d0).
Proof.
  unfold getDeviceCount. intros Hn Hpos Hd.
  destruct (vec_at_in_range (cuDevices w) 0) as [d0 Hd0].
  { unfold cuDevices_size in Hn. lia. }
  exists d0. split; [exact Hd0 |].
  unfold getDeviceProp. rewrite <- Hn.
  destruct (Z.ltb_spec d (nDevices w)) as [Hlt | _]; [lia |].
  destruct (Z.ltb_spec 0 (nDevices w)) as [_ | Hge]; [| lia].
  rewrite Hd0. split; reflexivity.
Qed.

(** On the single-device registry, index 1 is answered with the
    properties of device 0, the GTX 1080 Ti. *)
Lemma getDeviceProp_beyond_count_witness :
  getDeviceProp single_device_world 1 = Ret gtx_1080_ti /\
  getDeviceProp single_device_world 1 = getDeviceProp single_device_world 0.
Proof.
  destruct (getDeviceProp_beyond_count single_device_world 1)
    as (d0 & Hd0 & Hzero & Hone).
  - reflexivity.
  - vm_compute. reflexivity.
  - vm_compute. discriminate.
  - rewrite Hone, Hzero. split; [| reflexivity].
    vm_compute in Hd0. injection Hd0 as <-. reflexivity.
Defined.

(** C8, counterexample.  A negative index passes the only test of
    [getDeviceProp] and reads the vector out of bounds: the call does not
    give the properties of device 0. *)
Lemma getDeviceProp_negative_index :
  (-1 < 0 \/ getDeviceCount single_device_world <= -1) /\
  getDeviceProp single_device_world (-1) = Undefined /\
  getDeviceProp single_device_world 0 = Ret gtx_1080_ti /\
  getDeviceProp single_device_world (-1) <> getDeviceProp single_device_world 0.
Proof.
  split; [left; lia |].
  split; [reflexivity |]. split; [reflexivity |].
  vm_compute. discriminate.
Qed.

(** *** Decimal text

    [toString] writes the decimal text of its argument, and nothing else
    is the decimal text of that number. *)

Lemma numeral_value_acc (d : Decimal.uint) (acc : positive) :
  numeral_value (Z.pos acc) (NilEmpty.string_of_uint d) =
  Some (Z.pos (Pos.of_uint_acc d acc)).
Proof.
  revert acc. induction d; intros acc; cbn [NilEmpty.string_of_uint numeral_value Pos.of_uint_acc];
    [reflexivity | ..];
    (change (digit_value _) with (Some 0) || change (digit_value _) with (Some 1)
     || change (digit_value _) with (Some 2) || change (digit_value _) with (Some 3)
     || change (digit_value _) with (Some 4) || change (digit_value _) with (Some 5)
     || change (digit_value _) with (Some 6) || change (digit_value _) with (Some 7)
     || change (digit_value _) with (Some 8) || change (digit_value _) with (Some 9));
    cbv iota beta; rewrite <- IHd; f_equal; lia.
Qed.

Lemma numeral_value_uint (d : Decimal.uint) :
  numeral_value 0 (NilEmpty.string_of_uint d) = Some (Z.of_N (Pos.of_uint d)).
Proof.
  induction d; cbn [NilEmpty.string_of_uint numeral_value Pos.of_uint];
    [reflexivity | ..];
    (change (digit_value _) with (Some 0) || change (digit_value _) with (Some 1)
     || change (digit_value _) with (Some 2) || change (digit_value _) with (Some 3)
     || change (digit_value _) with (Some 4) || change (digit_value _) with (Some 5)
     || change (digit_value _) with (Some 6) || change (digit_value _) with (Some 7)
     || change (digit_value _) with (Some 8) || change (digit_value _) with (Some 9));
    cbv iota beta; [exact IHd | ..];
    match goal with |- numeral_value ?a _ = _ => change a with (Z.pos (Z.to_pos a)) end;
    rewrite numeral_value_acc; reflexivity.
Qed.

Lemma nzhead_no_zero (d l : Decimal.uint) : Decimal.nzhead d <> Decimal.D0 l.
Proof. induction d; cbn; try discriminate; exact IHd. Qed.

Lemma to_uint_unorm (p : positive) : Decimal.unorm (Pos.to_uint p) = Pos.to_uint p.
Proof.
  rewrite <- (DecimalPos.Unsigned.to_of (Pos.to_uint p)).
  rewrite DecimalPos.Unsigned.of_to. reflexivity.
Qed.

Lemma to_uint_head (p : positive) (l : Decimal.uint) : Pos.to_uint p <> Decimal.D0 l.
Proof.
  intros H. pose proof (to_uint_unorm p) as Hu. rewrite H in Hu.
  unfold Decimal.unorm in Hu. cbn [Decimal.nzhead] in Hu.
  destruct (Decimal.nzhead l) eqn:Hn; try discriminate.
  - injection Hu as <-. exact (DecimalPos.Unsigned.to_uint_nonzero p H).
  - exact (nzhead_no_zero l _ Hn).
Qed.

Lemma decimal_digits_pos (p : positive) :
  decimal_digits (NilEmpty.string_of_uint (Pos.to_uint p)) (Z.pos p) = true.
Proof.
  pose proof (numeral_value_uint (Pos.to_uint p)) as Hv.
  rewrite DecimalPos.Unsigned.of_to in Hv.
  pose proof (to_uint_head p) as Hh.
  pose proof (DecimalPos.Unsigned.to_uint_nonnil p) as Hn.
  destruct (Pos.to_uint p) as [| l | l | l | l | l | l | l | l | l | l];
    [contradiction | exfalso; exact (Hh l eq_refl) | ..];
    cbn [NilEmpty.string_of_uint] in Hv |- *; unfold decimal_digits;
    change (Ascii.eqb _ "0") with false; cbv iota;
    rewrite Hv; apply Z.eqb_refl.
Qed.

Lemma toString_decimal (z : Z) : decimal_text (toString z) z = true.
Proof.
  unfold toString, decimal_text. destruct z as [| p | p].
  - reflexivity.
  - cbn [Z.ltb Z.compare Z.to_int NilZero.string_of_int].
    pose proof (decimal_digits_pos p) as H.
    pose proof (DecimalPos.Unsigned.to_uint_nonnil p) as Hn.
    unfold NilZero.string_of_uint.
    destruct (Pos.to_uint p); [contradiction | exact H ..].
  - cbn [Z.ltb Z.compare Z.to_int NilZero.string_of_int Z.opp].
    pose proof (decimal_digits_pos p) as H.
    pose proof (DecimalPos.Unsigned.to_uint_nonnil p) as Hn.
    unfold NilZero.string_of_uint.
    destruct (Pos.to_uint p); [contradiction | exact H ..].
Qed.

Lemma digit_char (c : ascii) (k : Z) :
  digit_value c = Some k ->
  exists f : Decimal.uint -> Decimal.uint,
    (forall d, NilEmpty.string_of_uint (f d) = String c (NilEmpty.string_of_uint d)) /\
    (forall d, f d <> Decimal.Nil) /\
    (Ascii.eqb c "0" = false -> forall d, Decimal.nzhead (f d) = f d).
Proof.
  destruct c as [[] [] [] [] [] [] [] []]; intros H; try discriminate H;
    first [ exists Decimal.D0; repeat split; (discriminate || reflexivity)
          | exists Decimal.D1; repeat split; (discriminate || reflexivity)
          | exists Decimal.D2; repeat split; (discriminate || reflexivity)
          | exists Decimal.D3; repeat split; (discriminate || reflexivity)
          | exists Decimal.D4; repeat split; (discriminate || reflexivity)
          | exists Decimal.D5; repeat split; (discriminate || reflexivity)
          | exists Decimal.D6; repeat split; (discriminate || reflexivity)
          | exists Decimal.D7; repeat split; (discriminate || reflexivity)
          | exists Decimal.D8; repeat split; (discriminate || reflexivity)
          | exists Decimal.D9; repeat split; (discriminate || reflexivity) ].
Qed.

Lemma numeral_value_digits (s : string) (acc v : Z) :
  numeral_value acc s = Some v -> exists d, NilEmpty.string_of_uint d = s.
Proof.
  revert acc. induction s as [| c s IH]; intros acc H.
  - exists Decimal.Nil. reflexivity.
  - cbn [numeral_value] in H. destruct (digit_value c) as [k |] eqn:Hc; [| discriminate].
    destruct (IH _ H) as [d Hd]. destruct (digit_char c k Hc) as (f & Hf & _).
    exists (f d). rewrite Hf, Hd. reflexivity.
Qed.

Lemma decimal_digits_unique (s : string) (n : Z) :
  decimal_digits s n = true -> 0 <= n /\ s = toString n.
Proof.
  destruct s as [| c s]; [discriminate |]. unfold decimal_digits.
  destruct (Ascii.eqb c "0") eqn:Hc0.
  - apply Ascii.eqb_eq in Hc0 as ->. destruct s; [| discriminate].
    intros H. apply Z.eqb_eq in H as ->. split; [lia | reflexivity].
  - destruct (numeral_value 0 (String c s)) as [v |] eqn:Hv; [| discriminate].
    intros H. apply Z.eqb_eq in H as ->.
    pose proof Hv as Hv'. cbn [numeral_value] in Hv'.
    destruct (digit_value c) as [k |] eqn:Hc; [| discriminate].
    destruct (numeral_value_digits s _ _ Hv') as [d Hd].
    destruct (digit_char c k Hc) as (f & Hf & Hnil & Hhead).
    specialize (Hhead Hc0 d). specialize (Hnil d). specialize (Hf d).
    rewrite Hd in Hf. rewrite <- Hf in Hv. rewrite numeral_value_uint in Hv.
    injection Hv as <-.
    assert (Hu : Decimal.unorm (f d) = f d).
    { unfold Decimal.unorm. rewrite Hhead. destruct (f d); congruence. }
    pose proof (DecimalPos.Unsigned.to_of (f d)) as Hto. rewrite Hu in Hto.
    destruct (Pos.of_uint (f d)) as [| p] eqn:Hp.
    + exfalso. cbn in Hto. rewrite <- Hto in Hhead. discriminate Hhead.
    + split; [cbn; lia |]. cbn [Z.of_N]. unfold toString.
      cbn [Z.to_int NilZero.string_of_int]. change (N.to_uint (N.pos p)) with (Pos.to_uint p) in Hto.
      rewrite Hto, <- Hf. unfold NilZero.string_of_uint. destruct (f d); congruence.
Qed.

Lemma toString_neg (p : positive) :
  toString (Z.neg p) = String "-" (toString (Z.pos p)).
Proof. reflexivity. Qed.

Lemma decimal_text_unique (s : string) (z : Z) :
  decimal_text s z = true -> s = toString z.
Proof.
  unfold decimal_text. destruct (Z.ltb_spec z 0) as [Hneg | Hpos].
  - destruct s as [| c s]; [discriminate |]. intros H.
    apply andb_true_iff in H as [Hc Hs]. apply Ascii.eqb_eq in Hc as ->.
    apply decimal_digits_unique in Hs as [_ ->].
    destruct z as [| p | p]; try lia. reflexivity.
  - intros H. now apply decimal_digits_unique in H.
Qed.

Lemma decimal_text_iff (s : string) (z : Z) :
  decimal_text s z = true <-> s = toString z.
Proof.
  split; [apply decimal_text_unique | intros ->; apply toString_decimal].
Qed.

Lemma string_app_assoc (s1 s2 s3 : string) :
  ((s1 ++ s2) ++ s3 = s1 ++ (s2 ++ s3))%string.
Proof.
  induction s1 as [| c s1 IH]; cbn; [reflexivity | now rewrite IH].
Qed.

Lemma MB_value : MB = 1024 * 1024.
Proof. reflexivity. Qed.

(** [q + !!r] for [q = m / MB] and [r = m % MB] is [m] rounded up to whole
    megabytes, and it fits [size_t]. *)
Lemma megabytes_round_up (m : Z) :
  in_size_t m ->
  let mb := size_t_wrap (m / MB + (if m mod MB =? 0 then 0 else 1)) in
  (mb - 1) * (1024 * 1024) < m <= mb * (1024 * 1024).
Proof.
  unfold in_size_t. intros Hm. rewrite MB_value.
  change (1024 * 1024) with 1048576.
  pose proof (Z.div_mod m 1048576 ltac:(lia)) as Hdm.
  pose proof (Z.mod_pos_bound m 1048576 ltac:(lia)) as Hr.
  assert (Hq : 0 <= m / 1048576 < 2 ^ 44).
  { split; [apply Z.div_pos; lia |].
    apply Z.div_lt_upper_bound; [lia |]. change (1048576 * 2 ^ 44) with (2 ^ 64). lia. }
  cbv zeta. unfold size_t_wrap.
  destruct (Z.eqb_spec (m mod 1048576) 0) as [H0 | Hn0];
    rewrite Z.mod_small by lia; lia.
Qed.

(** C7.  For every valid logical index [i] the summary is one line, ended
    by a newline: the index in decimal, as [[i]] when [i] is the active
    device and as [-i-] otherwise, the display name, the total memory
    rounded up to whole megabytes, in decimal, and the compute version as
    "CUDA Compute major.minor", both numbers in decimal; for a 6.1 device
    that part reads "CUDA Compute 6.1". *)
Theorem getDeviceInfo_summary_line (w : World) (i : Z) :
  getDeviceCount w = cuDevices_size w ->
  0 <= i < getDeviceCount w ->
  Forall (fun d => in_size_t (mem d)) (cuDevices w) ->
  exists d mb index megabytes major_text minor_text,
    vec_at (cuDevices w) i = Ret d /\
    (mb - 1) * (1024 * 1024) < mem d <= mb * (1024 * 1024) /\
    decimal_text index i = true /\
    decimal_text megabytes mb = true /\
    decimal_text major_text (major (prop d)) = true /\
    decimal_text minor_text (minor (prop d)) = true /\
    getDeviceInfo w i =
      Ret ((if Z.eqb (getActiveDeviceId w) i
            then "[" ++ index ++ "]"
            else "-" ++ index ++ "-") ++
           " " ++ name (prop d) ++ ", " ++
           megabytes ++ " MB" ++ ", " ++
           "CUDA Compute " ++ major_text ++ "." ++ minor_text ++ LF)%string /\
    (major (prop d) = 6 -> minor (prop d) = 1 ->
     ("CUDA Compute " ++ major_text ++ "." ++ minor_text)%string = "CUDA Compute 6.1").
Proof.
  unfold getDeviceCount. intros Hn Hi Hmem.
  destruct (vec_at_in_range (cuDevices w) i) as [d Hd].
  { unfold cuDevices_size in Hn. lia. }
  assert (Hin : In d (cuDevices w)).
  { unfold vec_at in Hd. destruct (i <? 0); [discriminate |].
    destruct (nth_error (cuDevices w) (Z.to_nat i)) eqn:Hnth; [| discriminate].
    injection Hd as ->. eapply nth_error_In; eauto. }
  assert (Hsz : in_size_t (mem d)).
  { rewrite Forall_forall in Hmem. now apply Hmem. }
  exists d.
  exists (size_t_wrap (mem d / MB + (if mem d mod MB =? 0 then 0 else 1))).
  exists (toString i).
  exists (toString (size_t_wrap (mem d / MB + (if mem d mod MB =? 0 then 0 else 1)))).
  exists (toString (major (prop d))), (toString (minor (prop d))).
  split; [exact Hd |]. split; [exact (megabytes_round_up (mem d) Hsz) |].
  repeat (split; [apply toString_decimal |]).
  split.
  - unfold getDeviceInfo, getDeviceProp. rewrite <- Hn.
    destruct (Z.ltb_spec i (nDevices w)) as [_ | Hge]; [| lia].
    rewrite Hd. cbn [obind]. unfold mem. f_equal.
    destruct (getActiveDeviceId w =? i);
      now rewrite !string_app_assoc.
  - intros -> ->. reflexivity.
Qed.

(** The summary line of the single, active GTX 1080 Ti, read off the
    theorem: the index is "0", the memory "11176" and the version "6.1". *)
Lemma getDeviceInfo_summary_line_witness :
  getDeviceInfo single_device_world 0 =
    Ret ("[0] GeForce GTX 1080 Ti, 11176 MB, CUDA Compute 6.1" ++ LF)%string.
Proof.
  destruct (getDeviceInfo_summary_line single_device_world 0)
    as (d & mb & index & megabytes & major_text & minor_text &
        Hd & Hmb & Hindex & Hmega & Hmajor & Hminor & Hline & _).
  - reflexivity.
  - vm_compute. split; [discriminate | reflexivity].
  - repeat constructor; vm_compute; congruence.
  - vm_compute in Hd. injection Hd as <-.
    assert (Emb : mb = 11176).
    { cbn [mem prop totalGlobalMem] in Hmb. lia. }
    subst mb.
    apply decimal_text_unique in Hindex, Hmega, Hmajor, Hminor.
    subst index megabytes major_text minor_text.
    rewrite Hline. vm_compute. reflexivity.
Defined.

(** The scenario of the specification: a single device of compute version
    6.1, active. *)
Example getDeviceInfo_single_device :
  getDeviceInfo single_device_world 0 =
    Ret ("[0] GeForce GTX 1080 Ti, 11176 MB, CUDA Compute 6.1" ++ LF)%string.
Proof. reflexivity. Qed.

(* ===================================================================== *)
(** ** Stable sorting *)
(* ===================================================================== *)

Section StableSortFacts.
Context {A : Type} (comp : A -> A -> bool).
Hypothesis comp_asym : forall a b, comp a b = true -> comp b a = false.
Hypothesis comp_negtrans :
  forall a b c, comp b a = false -> comp c b = false -> comp c a = false.

Lemma stable_insert_perm (x : A) (l : list A) :
  Permutation (x :: l) (stable_insert comp x l).
Proof.
  induction l as [| y l IH]; cbn; [reflexivity |].
  destruct (comp y x); [| reflexivity].
  rewrite perm_swap. now constructor.
Qed.

Lemma stable_sort_perm (l : list A) : Permutation l (stable_sort comp l).
Proof.
  induction l as [| x l IH]; cbn; [constructor |].
  rewrite <- stable_insert_perm. now constructor.
Qed.

Lemma stable_insert_sorted (x : A) (l : list A) :
  StronglySorted (not_after comp) l -> StronglySorted (not_after comp) (stable_insert comp x l).
Proof.
  induction l as [| y l IH]; intros Hs; cbn.
  - repeat constructor.
  - inversion Hs as [| ? ? Hs' Hall]; subst.
    destruct (comp y x) eqn:Hyx.
    + constructor; [now apply IH |].
      rewrite <- stable_insert_perm. constructor; [| exact Hall].
      unfold not_after. now apply comp_asym.
    + constructor; [exact Hs |].
      constructor; [exact Hyx |].
      rewrite Forall_forall in *. intros z Hz.
      unfold not_after in *. eapply comp_negtrans; [exact Hyx | now apply Hall].
Qed.

Lemma stable_sort_sorted (l : list A) : StronglySorted (not_after comp) (stable_sort comp l).
Proof.
  induction l; cbn; [constructor | now apply stable_insert_sorted].
Qed.








End StableSortFacts.

(* ===================================================================== *)
(** ** The four ranking policies *)
(* ===================================================================== *)

Lemma comparator_chain (mode : sort_mode.t) (l r : cudaDevice_t) :
  comparator mode l r = compare_chain (sort_key mode l) (sort_key mode r).
Proof. destruct mode; reflexivity. Qed.

Lemma sort_key_length (mode : sort_mode.t) (a b : cudaDevice_t) :
  List.length (sort_key mode a) = List.length (sort_key mode b).
Proof. destruct mode; reflexivity. Qed.

Lemma sort_key_last (mode : sort_mode.t) (d : cudaDevice_t) :
  last (sort_key mode d) 0 = nativeId d.
Proof. destruct mode; reflexivity. Qed.

Lemma compare_chain_asym (k1 k2 : list Z) :
  compare_chain k1 k2 = true -> compare_chain k2 k1 = false.
Proof.
  revert k2. induction k1 as [| x k1 IH]; intros [| y k2]; cbn; try discriminate; trivial.
  intros H. specialize (IH k2). compare_cases. auto.
Qed.

Lemma compare_chain_negtrans (a b c : list Z) :
  List.length a = List.length b -> List.length b = List.length c ->
  compare_chain b a = false -> compare_chain c b = false ->
  compare_chain c a = false.
Proof.
  revert b c. induction a as [| x a IH]; intros [| y b] [| z c]; cbn;
    try discriminate; trivial.
  intros Hab Hbc Hba Hcb. specialize (IH b c). compare_cases.
  apply IH; congruence.
Qed.

Lemma compare_chain_tied_eq (a b : list Z) :
  List.length a = List.length b ->
  compare_chain a b = false -> compare_chain b a = false -> a = b.
Proof.
  revert b. induction a as [| x a IH]; intros [| y b]; cbn; try discriminate; trivial.
  intros Hlen Hab Hba. specialize (IH b). compare_cases.
  assert (x = y) by lia. subst. f_equal. apply IH; congruence.
Qed.

Lemma comparator_asym (mode : sort_mode.t) (a b : cudaDevice_t) :
  comparator mode a b = true -> comparator mode b a = false.
Proof. rewrite !comparator_chain. apply compare_chain_asym. Qed.

Lemma comparator_negtrans (mode : sort_mode.t) (a b c : cudaDevice_t) :
  comparator mode b a = false -> comparator mode c b = false ->
  comparator mode c a = false.
Proof.
  rewrite !comparator_chain.
  apply compare_chain_negtrans; apply sort_key_length.
Qed.







Example sortDevices_two_cards :
  sortDevices_list sort_mode.memory [card_A; card_B] = [card_B; card_A] /\
  sortDevices_list sort_mode.flops [card_B; card_A] = [card_A; card_B].
Proof. split; reflexivity. Qed.

(* ===================================================================== *)
(** ** Switching the active device *)
(* ===================================================================== *)

Section SwitchFacts.
Variable P : Platform.
Variable B : Build.

(** An index above the device count is refused: -1, nothing changes. *)
Lemma setActiveDevice_above_count (w : World) (device nId : Z) :
  cuDevices_size w < device ->
  setActiveDevice P B device nId w = (Ret (-1), w).
Proof.
  intros Hd. unfold setActiveDevice, bind, gets. cbn.
  destruct (Z.gtb_spec device (cuDevices_size w)); [reflexivity | lia].
Qed.

(** C9.  With the first-time marker cleared, a failure to create the
    queue of a valid device [d] is thrown after [activeDev] has been set
    to [d]: the registry then reports [d] as active, and [d] still has
    no queue. *)
Theorem setActiveDevice_failure_keeps_switch
        (w : World) (d nId n : Z) (err : cudaError_t) :
  getDeviceCount w = cuDevices_size w ->
  0 <= d < getDeviceCount w ->
  first w = false ->
  resolve_native w d nId = Ret n ->
  cudaSetDevice P (cudaCalls w) n = cudaSuccess ->
  vec_at (streams w) d = Ret 0 ->
  cudaStreamCreate P (S (cudaCalls w)) n = err ->
  err <> cudaSuccess ->
  exists w',
    setActiveDevice P B d nId w = (Throw (cuda_exception err), w') /\
    getActiveDeviceId w' = d /\
    vec_at (streams w') d = Ret 0 /\
    cuDevices w' = cuDevices w /\
    first w' = false.
Proof.
  unfold getDeviceCount. intros Hn Hd Hfirst Hnat Hset Hslot Hcreate Herr.
  unfold setActiveDevice, bind, gets. cbn.
  destruct (Z.gtb_spec d (cuDevices_size w)) as [Hgt | _]; [lia |].
  unfold read. rewrite Hnat. cbn.
  unfold do_cudaSetDevice. rewrite Hset. cbn. rewrite Hslot. cbn.
  unfold do_cudaStreamCreate. cbn. rewrite Hslot, Hcreate.
  destruct (Z.eqb_spec err cudaSuccess) as [He | _]; [contradiction |].
  cbn. rewrite Hfirst. cbn.
  unfold CUDA_CHECK.
  destruct (Z.eqb_spec err cudaSuccess) as [He | _]; [contradiction |].
  cbn. eexists. split; [reflexivity |]. cbn. auto.
Qed.

(** *** Frame of a switch *)

Lemma nth_error_vec_set {A} (v : list A) (n m : nat) (x : A) :
  nth_error (vec_set v n x) m =
  if Nat.eqb m n then (if Nat.ltb n (List.length v) then Some x else None)
  else nth_error v m.
Proof.
  revert n m. induction v as [| y v IH]; intros n m.
  - cbn. destruct (Nat.eqb m n); destruct m; reflexivity.
  - destruct n as [| n], m as [| m]; cbn [vec_set nth_error]; try reflexivity.
    rewrite IH. reflexivity.
Qed.

Lemma vec_at_vec_set {A} (v : list A) (i j : Z) (x y h : A) :
  vec_at v j = Ret y ->
  vec_at v i = Ret h ->
  vec_at (vec_set v (Z.to_nat j) x) i = Ret (if i =? j then x else h).
Proof.
  intros Hj Hi.
  pose proof (vec_at_Ret_range _ _ _ Hj) as Rj.
  pose proof (vec_at_Ret_range _ _ _ Hi) as Ri.
  unfold vec_at in *. destruct (Z.ltb_spec i 0); [lia |].
  rewrite nth_error_vec_set.
  destruct (Z.eqb_spec i j) as [-> | Hne].
  - rewrite Nat.eqb_refl.
    destruct (Nat.ltb_spec (Z.to_nat j) (List.length v)); [reflexivity | lia].
  - destruct (Nat.eqb_spec (Z.to_nat i) (Z.to_nat j)) as [Heq | _]; [lia |].
    exact Hi.
Qed.

Lemma registry_extends_refl (w : World) : registry_extends w w.
Proof. repeat split; eauto. Qed.

Lemma registry_extends_trans (w1 w2 w3 : World) :
  registry_extends w1 w2 -> registry_extends w2 w3 -> registry_extends w1 w3.
Proof.
  intros (Hd1 & Hn1 & Hf1 & Hs1) (Hd2 & Hn2 & Hf2 & Hs2). repeat split.
  - congruence.
  - congruence.
  - auto.
  - intros i h Hi Hh. destruct (Hs1 i h Hi Hh) as (h' & Hi' & Hh'). eauto.
Qed.

Lemma preserves_ret {A} (a : A) : preserves registry_extends (ret a).
Proof. intros w o w' [= _ <-]. apply registry_extends_refl. Qed.

Lemma preserves_throw {A} (e : exn) : preserves registry_extends (@throw A e).
Proof. intros w o w' [= _ <-]. apply registry_extends_refl. Qed.

Lemma preserves_gets {A} (f : World -> A) : preserves registry_extends (gets f).
Proof. intros w o w' [= _ <-]. apply registry_extends_refl. Qed.

Lemma preserves_read {A} (f : World -> outcome A) : preserves registry_extends (read f).
Proof. intros w o w' [= _ <-]. apply registry_extends_refl. Qed.

Lemma preserves_modify (f : World -> World) :
  (forall w, registry_extends w (f w)) -> preserves registry_extends (modify f).
Proof. intros Hf w o w' [= _ <-]. apply Hf. Qed.

Lemma preserves_bind {A C} (m : M A) (k : A -> M C) :
  preserves registry_extends m ->
  (forall a, preserves registry_extends (k a)) ->
  preserves registry_extends (bind m k).
Proof.
  intros Hm Hk w o w' Hrun. unfold bind in Hrun.
  destruct (m w) as [[a | e |] w1] eqn:Hmw.
  - eapply registry_extends_trans; [eapply Hm; eauto | eapply Hk; eauto].
  - injection Hrun as _ <-. eapply Hm; eauto.
  - injection Hrun as _ <-. eapply Hm; eauto.
Qed.

Lemma preserves_CUDA_CHECK (err : cudaError_t) :
  preserves registry_extends (CUDA_CHECK err).
Proof.
  unfold CUDA_CHECK. destruct (err =? cudaSuccess);
    [apply preserves_ret | apply preserves_throw].
Qed.

Lemma preserves_debug_printf (line : string) :
  preserves registry_extends (debug_printf B line).
Proof.
  unfold debug_printf. destruct (NDEBUG B); [apply preserves_ret |].
  apply preserves_modify. intros w. repeat split; cbn; eauto.
Qed.

Lemma preserves_do_cudaSetDevice (nId : Z) :
  preserves registry_extends (do_cudaSetDevice P nId).
Proof.
  intros w o w' [= _ <-].
  destruct (cudaSetDevice P (cudaCalls w) nId =? cudaSuccess);
    repeat split; cbn; eauto.
Qed.

Lemma preserves_do_cudaStreamCreate (device : Z) :
  preserves registry_extends (do_cudaStreamCreate P device).
Proof.
  intros w o w' Hrun. unfold do_cudaStreamCreate in Hrun.
  destruct (vec_at (streams w) device) as [s | e |] eqn:Hslot;
    try (injection Hrun as _ <-; apply registry_extends_refl).
  injection Hrun as _ <-.
  destruct (cudaStreamCreate P (cudaCalls w) (cudaCurrent w) =? cudaSuccess);
    [| repeat split; cbn; eauto].
  repeat split; cbn; auto.
  intros i h Hi Hh. rewrite (vec_at_vec_set _ _ _ _ _ _ Hslot Hi).
  eexists; split; [reflexivity |].
  destruct (i =? device); [lia | exact Hh].
Qed.

Lemma preserves_fallback_scan (numDevices old : Z) :
  forall (k : nat) (device : Z) (err : cudaError_t),
    Z.to_nat (numDevices - device) = k ->
    preserves registry_extends (fallback_scan P B numDevices old device err).
Proof.
  induction k as [k IH] using lt_wf_ind. intros device err Hk w o w'.
  simp fallback_scan.
  destruct (Z.eq_dec err cudaErrorDevicesUnavailable) as [He | Hne]; cbn.
  - destruct (Z_ge_dec (device + 1) numDevices) as [Hge | Hlt]; cbn.
    + revert w o w'.
      repeat (apply preserves_bind; [| intros ?]);
        auto using preserves_debug_printf, preserves_CUDA_CHECK, preserves_ret.
    + revert w o w'.
      repeat (apply preserves_bind; [| intros ?]);
        auto using preserves_debug_printf, preserves_CUDA_CHECK, preserves_read,
                   preserves_do_cudaSetDevice, preserves_do_cudaStreamCreate.
      intros w o w'. apply (IH (Z.to_nat (numDevices - (device + 1)))); lia.
  - revert w o w'.
    repeat (apply preserves_bind; [| intros ?]);
      auto using preserves_CUDA_CHECK, preserves_ret.
    apply preserves_modify. intros w. repeat split; cbn; eauto.
Qed.

Lemma preserves_setActiveDevice (device nId : Z) :
  preserves registry_extends (setActiveDevice P B device nId).
Proof.
  unfold setActiveDevice.
  apply preserves_bind; [apply preserves_gets | intros numDevices].
  destruct (device >? numDevices); [apply preserves_ret |].
  apply preserves_bind; [apply preserves_gets | intros old].
  apply preserves_bind; [apply preserves_read | intros n].
  apply preserves_bind; [apply preserves_do_cudaSetDevice | intros e].
  apply preserves_bind; [apply preserves_CUDA_CHECK | intros _].
  apply preserves_bind; [apply preserves_read | intros s0].
  apply preserves_bind.
  { destruct (s0 =? 0); [apply preserves_do_cudaStreamCreate | apply preserves_ret]. }
  intros err.
  apply preserves_bind.
  { apply preserves_modify. intros w. repeat split; cbn; eauto. }
  intros _. destruct (err =? cudaSuccess); [apply preserves_ret |].
  apply preserves_bind; [apply preserves_gets | intros f].
  destruct (negb f).
  { apply preserves_bind; [apply preserves_CUDA_CHECK | intros _; apply preserves_ret]. }
  apply preserves_bind.
  { apply preserves_modify. intros w. repeat split; cbn; eauto. }
  intros _. eapply preserves_fallback_scan. reflexivity.
Qed.

(** *** What a returning switch leaves active *)

Lemma bind_Ret_inv {A C} (m : M A) (k : A -> M C) (w w' : World) (c : C) :
  bind m k w = (Ret c, w') ->
  exists a w1, m w = (Ret a, w1) /\ k a w1 = (Ret c, w').
Proof.
  unfold bind. destruct (m w) as [[a | e |] w1]; intros H; try discriminate.
  now exists a, w1.
Qed.

Lemma CUDA_CHECK_Ret_inv (err : cudaError_t) (w w' : World) (u : unit) :
  CUDA_CHECK err w = (Ret u, w') -> err = cudaSuccess /\ w' = w.
Proof.
  unfold CUDA_CHECK. destruct (Z.eqb_spec err cudaSuccess); cbn.
  - intros [= <-]. auto.
  - discriminate.
Qed.

(** A switch to [a] that returns leaves [a] active, when the scan for
    another device cannot start: the first-time marker is cleared or
    [a] already has its queue. *)
Lemma setActiveDevice_Ret_active (w w' : World) (a nId r : Z) :
  a <= cuDevices_size w ->
  (first w = false \/ exists h, vec_at (streams w) a = Ret h /\ h <> 0) ->
  setActiveDevice P B a nId w = (Ret r, w') ->
  activeDev w' = a.
Proof.
  intros Ha Hsafe Hrun. unfold setActiveDevice in Hrun.
  apply bind_Ret_inv in Hrun as (numDevices & w1 & [= <- <-] & Hrun).
  destruct (Z.gtb_spec a (cuDevices_size w)) as [Hgt | _]; [lia |].
  apply bind_Ret_inv in Hrun as (old & w1 & [= <- <-] & Hrun).
  apply bind_Ret_inv in Hrun as (n & w1 & Hn & Hrun).
  unfold read in Hn. injection Hn as Hn <-.
  apply bind_Ret_inv in Hrun as (e & w1 & He & Hrun).
  apply bind_Ret_inv in Hrun as (u & w2 & Hchk & Hrun).
  apply CUDA_CHECK_Ret_inv in Hchk as [-> ->].
  unfold do_cudaSetDevice in He. injection He as He <-.
  apply bind_Ret_inv in Hrun as (s0 & w2 & Hs0 & Hrun).
  unfold read in Hs0. cbn in Hs0. injection Hs0 as Hs0 <-.
  apply bind_Ret_inv in Hrun as (err & w2 & Herr & Hrun).
  apply bind_Ret_inv in Hrun as (u' & w3 & [= <- <-] & Hrun).
  destruct (Z.eqb_spec err cudaSuccess) as [-> | Hfail].
  { injection Hrun as _ <-. reflexivity. }
  (* the queue was missing and its creation failed *)
  destruct (Z.eqb_spec s0 0) as [-> | Hs0ne].
  2:{ injection Herr as <- _. contradiction. }
  assert (Hfirst : first w = false).
  { destruct Hsafe as [Hf | (h & Hh & Hne)]; [exact Hf |].
    rewrite He in Hs0. cbn in Hs0. congruence. }
  assert (Hfirst2 : first w2 = false).
  { pose proof (preserves_do_cudaStreamCreate a _ _ _ Herr) as (_ & _ & Hf & _).
    apply Hf. rewrite He. cbn. exact Hfirst. }
  apply bind_Ret_inv in Hrun as (f & w4 & [= <- <-] & Hrun).
  cbn in Hrun. rewrite Hfirst2 in Hrun. cbn in Hrun.
  apply bind_Ret_inv in Hrun as (u'' & w4 & Hchk & _).
  apply CUDA_CHECK_Ret_inv in Hchk as [-> _]. contradiction.
Qed.

(** C10 (as the code has it).  Whenever [getStream(d)] returns, the
    active device is the one that was active before the call, for every
    registry in the state [registry_ok], which construction establishes
    and every switch keeps. *)
Theorem getStream_restores_active_device (w w' : World) (d str : Z) :
  registry_ok w ->
  getStream P B d w = (Ret str, w') ->
  getActiveDeviceId w' = getActiveDeviceId w.
Proof.
  unfold getActiveDeviceId. intros [Hact Hqueue] Hrun. unfold getStream in Hrun.
  apply bind_Ret_inv in Hrun as (s0 & w1 & Hs0 & Hrun).
  unfold read in Hs0. injection Hs0 as Hs0 <-.
  destruct (s0 =? 0).
  2:{ injection Hrun as _ <-. reflexivity. }
  apply bind_Ret_inv in Hrun as (active_dev & w1 & [= <- <-] & Hrun).
  apply bind_Ret_inv in Hrun as (r1 & w1 & Hswitch & Hrun).
  apply bind_Ret_inv in Hrun as (s1 & w2 & Hs1 & Hrun).
  unfold read in Hs1. injection Hs1 as Hs1 <-.
  apply bind_Ret_inv in Hrun as (r2 & w2 & Hback & Hrun).
  injection Hrun as _ <-.
  pose proof (preserves_setActiveDevice d (-1) _ _ _ Hswitch) as (Hdevs & _ & Hf & Hq).
  eapply setActiveDevice_Ret_active; [| | exact Hback].
  - unfold cuDevices_size in *. rewrite Hdevs. exact Hact.
  - destruct (first w) eqn:Hfw.
    + right. destruct (Hqueue eq_refl) as (h & Hh & Hne). eauto.
    + left. auto.
Qed.

(** *** A switch that creates the queue *)

Lemma bind_modify {C} (f : World -> World) (k : unit -> M C) (w : World) :
  bind (modify f) k w = k tt (f w).
Proof. reflexivity. Qed.

Lemma bind_gets {A C} (f : World -> A) (k : A -> M C) (w : World) :
  bind (gets f) k w = k (f w) w.
Proof. reflexivity. Qed.

Lemma bind_read {A C} (f : World -> outcome A) (k : A -> M C) (w : World) (a : A) :
  f w = Ret a -> bind (read f) k w = k a w.
Proof. intros H. unfold bind, read. now rewrite H. Qed.

Lemma bind_Ret {A C} (m : M A) (k : A -> M C) (w w1 : World) (a : A) :
  m w = (Ret a, w1) -> bind m k w = k a w1.
Proof. intros H. unfold bind. now rewrite H. Qed.

Lemma setActiveDevice_creates_queue (w : World) (d nId n : Z) :
  d <= cuDevices_size w ->
  resolve_native w d nId = Ret n ->
  cudaSetDevice P (cudaCalls w) n = cudaSuccess ->
  vec_at (streams w) d = Ret 0 ->
  cudaStreamCreate P (S (cudaCalls w)) n = cudaSuccess ->
  setActiveDevice P B d nId w =
    (Ret (activeDev w),
     set_activeDev d
       (tick (set_streams (vec_set (streams w) (Z.to_nat d)
                                   (Z.of_nat (S (S (cudaCalls w)))))
                          (tick (set_cudaCurrent n w))))).
Proof.
  intros Hd Hnat Hset Hslot Hcreate.
  unfold setActiveDevice. rewrite bind_gets.
  destruct (Z.gtb_spec d (cuDevices_size w)) as [Hgt | _]; [lia |].
  rewrite bind_gets, (bind_read _ _ _ _ Hnat).
  unfold bind at 1. unfold do_cudaSetDevice. rewrite Hset. cbn [Z.eqb cudaSuccess].
  unfold bind at 1. cbn [CUDA_CHECK Z.eqb cudaSuccess ret].
  rewrite (bind_read _ _ _ 0) by exact Hslot.
  unfold bind at 1. cbn [Z.eqb]. unfold do_cudaStreamCreate.
  cbn [streams tick set_cudaCurrent cudaCalls cudaCurrent].
  rewrite Hslot, Hcreate. cbn [Z.eqb cudaSuccess].
  rewrite bind_modify. cbn [Z.eqb cudaSuccess]. reflexivity.
Qed.
Lemma setActiveDevice_existing_queue (w : World) (d nId n h : Z) :
  d <= cuDevices_size w ->
  resolve_native w d nId = Ret n ->
  cudaSetDevice P (cudaCalls w) n = cudaSuccess ->
  vec_at (streams w) d = Ret h -> h <> 0 ->
  setActiveDevice P B d nId w =
    (Ret (activeDev w), set_activeDev d (tick (set_cudaCurrent n w))).
Proof.
  intros Hd Hnat Hset Hslot Hh.
  unfold setActiveDevice. rewrite bind_gets.
  destruct (Z.gtb_spec d (cuDevices_size w)) as [Hgt | _]; [lia |].
  rewrite bind_gets, (bind_read _ _ _ _ Hnat).
  unfold bind at 1. unfold do_cudaSetDevice. rewrite Hset. cbn [Z.eqb cudaSuccess].
  unfold bind at 1. cbn [CUDA_CHECK Z.eqb cudaSuccess ret].
  rewrite (bind_read _ _ _ h) by exact Hslot.
  destruct (Z.eqb_spec h 0) as [H0 | _]; [contradiction |].
  unfold bind at 1. cbn [ret]. rewrite bind_modify. reflexivity.
Qed.

(** When the runtime accepts both switches and creates the queue,
    [getStream(d)] for a device without queue returns the new, non-null
    handle, stored in slot [d], with the active device as before. *)
Lemma getStream_creates_queue (w : World) (d nd na h : Z) :
  d <= cuDevices_size w ->
  vec_at (streams w) d = Ret 0 ->
  resolve_native w d (-1) = Ret nd ->
  cudaSetDevice P (cudaCalls w) nd = cudaSuccess ->
  cudaStreamCreate P (S (cudaCalls w)) nd = cudaSuccess ->
  getActiveDeviceId w <= cuDevices_size w ->
  vec_at (streams w) (getActiveDeviceId w) = Ret h -> h <> 0 ->
  resolve_native w (getActiveDeviceId w) (-1) = Ret na ->
  cudaSetDevice P (S (S (cudaCalls w))) na = cudaSuccess ->
  exists w',
    getStream P B d w = (Ret (Z.of_nat (S (S (cudaCalls w)))), w') /\
    vec_at (streams w') d = Ret (Z.of_nat (S (S (cudaCalls w)))) /\
    getActiveDeviceId w' = getActiveDeviceId w /\
    cuDevices w' = cuDevices w.
Proof.
  unfold getActiveDeviceId.
  intros Hd Hslot Hnd Hset Hcreate Ha Hqa Hh Hna Hback.
  assert (Hne : activeDev w <> d) by (intros E; rewrite E in Hqa; congruence).
  pose proof (setActiveDevice_creates_queue w d (-1) nd Hd Hnd Hset Hslot Hcreate) as H1.
  set (handle := Z.of_nat (S (S (cudaCalls w)))) in *.
  set (w1 := set_activeDev d _) in H1.
  assert (Hs1 : vec_at (streams w1) d = Ret handle).
  { subst w1. cbn [streams set_activeDev tick set_streams set_cudaCurrent].
    rewrite (vec_at_vec_set _ d d handle 0 0 Hslot Hslot).
    now rewrite Z.eqb_refl. }
  assert (Hqa1 : vec_at (streams w1) (activeDev w) = Ret h).
  { subst w1. cbn [streams set_activeDev tick set_streams set_cudaCurrent].
    rewrite (vec_at_vec_set _ (activeDev w) d handle 0 h Hslot Hqa).
    destruct (Z.eqb_spec (activeDev w) d); [contradiction | reflexivity]. }
  pose proof (setActiveDevice_existing_queue w1 (activeDev w) (-1) na h) as H2.
  exists (set_activeDev (activeDev w) (tick (set_cudaCurrent na w1))).
  split.
  - unfold getStream. rewrite (bind_read _ _ _ 0) by exact Hslot.
    cbn [Z.eqb]. rewrite bind_gets. unfold setDevice.
    rewrite (bind_Ret _ _ _ _ _ H1).
    rewrite (bind_read _ _ _ handle) by exact Hs1.
    rewrite (bind_Ret _ _ _ _ _ (H2 Ha Hna Hback Hqa1 Hh)). reflexivity.
  - cbn. auto.
Qed.
(** *** The state of the registry between calls *)

Lemma preserves_bind_gen {A C} (R1 R2 R3 : World -> World -> Prop)
      (m : M A) (k : A -> M C) :
  (forall w w', R1 w w' -> R3 w w') ->
  (forall w w1 w', R1 w w1 -> R2 w1 w' -> R3 w w') ->
  preserves R1 m -> (forall a, preserves R2 (k a)) -> preserves R3 (bind m k).
Proof.
  intros Hstop Hseq Hm Hk w o w' Hrun. unfold bind in Hrun.
  destruct (m w) as [[a | e |] w1] eqn:Hmw.
  - eapply Hseq; [eapply Hm; eauto | eapply Hk; eauto].
  - injection Hrun as _ <-. eapply Hstop, Hm; eauto.
  - injection Hrun as _ <-. eapply Hstop, Hm; eauto.
Qed.

Lemma same_active_trans (w w1 w' : World) :
  same_active w w1 -> same_active w1 w' -> same_active w w'.
Proof. unfold same_active. intuition congruence. Qed.

Lemma same_active_bind {A C} (m : M A) (k : A -> M C) :
  preserves same_active m -> (forall a, preserves same_active (k a)) ->
  preserves same_active (bind m k).
Proof.
  apply (preserves_bind_gen same_active same_active same_active);
    eauto using same_active_trans.
Qed.

Lemma same_active_ret {A} (a : A) : preserves same_active (ret a).
Proof. intros w o w' [= _ <-]. now split. Qed.

Lemma same_active_read {A} (f : World -> outcome A) : preserves same_active (read f).
Proof. intros w o w' [= _ <-]. now split. Qed.

Lemma same_active_CUDA_CHECK (err : cudaError_t) : preserves same_active (CUDA_CHECK err).
Proof.
  intros w o w'. unfold CUDA_CHECK, ret, throw.
  destruct (err =? cudaSuccess); intros [= _ <-]; now split.
Qed.

Lemma same_active_debug_printf (line : string) :
  preserves same_active (debug_printf B line).
Proof.
  intros w o w'. unfold debug_printf, ret, modify.
  destruct (NDEBUG B); intros [= _ <-]; now split.
Qed.

Lemma same_active_do_cudaSetDevice (nId : Z) :
  preserves same_active (do_cudaSetDevice P nId).
Proof.
  intros w o w' [= _ <-].
  destruct (cudaSetDevice P (cudaCalls w) nId =? cudaSuccess); now split.
Qed.

Lemma same_active_do_cudaStreamCreate (device : Z) :
  preserves same_active (do_cudaStreamCreate P device).
Proof.
  intros w o w' Hrun. unfold do_cudaStreamCreate in Hrun.
  destruct (vec_at (streams w) device); injection Hrun as _ <-; try (now split).
  destruct (cudaStreamCreate P (cudaCalls w) (cudaCurrent w) =? cudaSuccess); now split.
Qed.

Lemma fallback_scan_bound (numDevices old : Z) :
  forall (k : nat) (device : Z) (err : cudaError_t),
    Z.to_nat (numDevices - device) = k ->
    preserves (scan_bound numDevices device)
              (fallback_scan P B numDevices old device err).
Proof.
  induction k as [k IH] using lt_wf_ind. intros device err Hk w o w'.
  simp fallback_scan.
  destruct (Z.eq_dec err cudaErrorDevicesUnavailable) as [He | Hne]; cbn.
  - destruct (Z_ge_dec (device + 1) numDevices) as [Hge | Hlt]; cbn.
    + intros Hrun.
      assert (Hsame : same_active w w').
      { revert Hrun. apply same_active_bind; [apply same_active_debug_printf | intros _].
        apply same_active_bind; [apply same_active_CUDA_CHECK | intros _].
        apply same_active_ret. }
      destruct Hsame. split; auto.
    + revert w o w'.
      assert (Hstop : forall w w', same_active w w' -> scan_bound numDevices device w w').
      { intros w w' [H1 H2]. split; auto. }
      assert (Hseq : forall w w1 w', same_active w w1 ->
                       scan_bound numDevices device w1 w' ->
                       scan_bound numDevices device w w').
      { intros w w1 w' [H1 H2] [H3 H4]. split; [congruence |].
        rewrite <- H2. exact H4. }
      apply (preserves_bind_gen same_active _ _ _ _ Hstop Hseq);
        [apply same_active_debug_printf | intros _].
      apply (preserves_bind_gen same_active _ _ _ _ Hstop Hseq);
        [apply same_active_read | intros nId].
      apply (preserves_bind_gen same_active _ _ _ _ Hstop Hseq);
        [apply same_active_do_cudaSetDevice | intros e].
      apply (preserves_bind_gen same_active _ _ _ _ Hstop Hseq);
        [apply same_active_CUDA_CHECK | intros _].
      apply (preserves_bind_gen same_active (scan_bound numDevices (device + 1))
               _ _ _ Hstop);
        [| apply same_active_do_cudaStreamCreate |].
      * intros w w1 w' [H1 H2] [H3 H4]. split; [congruence |].
        rewrite <- H2. destruct H4 as [H4 | H4]; [now left | right; lia].
      * intros err' w o w'.
        apply (IH (Z.to_nat (numDevices - (device + 1)))); lia.
  - unfold bind, CUDA_CHECK, modify, ret, throw.
    destruct (err =? cudaSuccess); intros [= _ <-].
    + split; [reflexivity |]. right. cbn. lia.
    + split; [reflexivity |]. now left.
Qed.

Lemma registry_ok_frame (w w' : World) :
  cuDevices w' = cuDevices w -> activeDev w' = activeDev w ->
  streams w' = streams w -> first w' = first w ->
  registry_ok w -> registry_ok w'.
Proof.
  unfold registry_ok, cuDevices_size. intros -> -> -> ->. trivial.
Qed.

(** A switch to an index that passes the range test ends in a state
    [registry_ok]: always when it returns, and also when it fails from
    such a state. *)
Lemma setActiveDevice_ok (w w' : World) (d nId : Z) (o : outcome Z) :
  d <= cuDevices_size w ->
  registry_ok w \/ (exists r, o = Ret r) ->
  setActiveDevice P B d nId w = (o, w') ->
  registry_ok w'.
Proof.
  intros Hd Hstart Hrun.
  assert (Hearly : cuDevices w' = cuDevices w -> activeDev w' = activeDev w ->
                   streams w' = streams w -> first w' = first w ->
                   (forall r, o <> Ret r) -> registry_ok w').
  { intros H1 H2 H3 H4 Hnot. destruct Hstart as [Hok | [r Hr]].
    - now apply (registry_ok_frame w w').
    - exfalso. now apply (Hnot r). }
  unfold setActiveDevice in Hrun. rewrite bind_gets in Hrun.
  destruct (Z.gtb_spec d (cuDevices_size w)) as [Hgt | _]; [lia |].
  rewrite bind_gets in Hrun.
  unfold bind at 1 in Hrun. unfold read at 1 in Hrun.
  destruct (resolve_native w d nId) as [n | e |] eqn:Hn;
    [| injection Hrun as <- <-; apply Hearly; auto; discriminate ..].
  unfold bind at 1 in Hrun. unfold do_cudaSetDevice in Hrun.
  unfold bind at 1 in Hrun. unfold CUDA_CHECK at 1 in Hrun.
  destruct (Z.eqb_spec (cudaSetDevice P (cudaCalls w) n) cudaSuccess) as [Hs | Hs].
  2:{ cbn in Hrun. injection Hrun as <- <-. apply Hearly; auto; discriminate. }
  cbn [ret] in Hrun.
  unfold bind at 1 in Hrun. unfold read at 1 in Hrun.
  cbn [streams tick set_cudaCurrent] in Hrun.
  destruct (vec_at (streams w) d) as [s0 | e |] eqn:Hslot;
    [| injection Hrun as <- <-; apply Hearly; auto; discriminate ..].
  pose proof (vec_at_Ret_range _ _ _ Hslot) as Hdr.
  destruct (Z.eqb_spec s0 0) as [-> | Hs0].
  - (* no queue yet *)
    unfold bind at 1 in Hrun. unfold do_cudaStreamCreate in Hrun.
    cbn [streams tick set_cudaCurrent cudaCalls cudaCurrent] in Hrun.
    rewrite Hslot in Hrun.
    destruct (Z.eqb_spec (cudaStreamCreate P (S (cudaCalls w)) n) cudaSuccess)
      as [Hc | Hc].
    + rewrite bind_modify in Hrun.
      injection Hrun as <- <-. split; [exact Hd |]. intros _.
      cbn [streams activeDev set_activeDev tick set_streams].
      rewrite (vec_at_vec_set _ d d _ 0 0 Hslot Hslot), Z.eqb_refl.
      eexists; split; [reflexivity | lia].
    + rewrite bind_modify, bind_gets in Hrun.
      cbn [first set_activeDev tick set_cudaCurrent] in Hrun.
      destruct (first w) eqn:Hfirst; cbn [negb] in Hrun.
      * rewrite bind_modify in Hrun.
        pose proof (fallback_scan_bound _ _ _ _ _ eq_refl _ _ _ Hrun) as [Hdevs Hact].
        pose proof (preserves_fallback_scan _ _ _ _ _ eq_refl _ _ _ Hrun) as (_ & _ & Hf & _).
        split.
        -- unfold cuDevices_size in *. rewrite Hdevs. cbn in *. lia.
        -- intros Ht. rewrite Hf in Ht; [discriminate | reflexivity].
      * unfold bind, CUDA_CHECK, throw in Hrun.
        destruct (Z.eqb_spec (cudaStreamCreate P (S (cudaCalls w)) n) cudaSuccess)
          as [Hc' | _]; [contradiction |].
        injection Hrun as <- <-. split; [exact Hd |].
        cbn. rewrite Hfirst. discriminate.
  - (* the queue exists *)
    unfold bind at 1 in Hrun. cbn [ret] in Hrun. rewrite bind_modify in Hrun.
    cbn [Z.eqb cudaSuccess] in Hrun. injection Hrun as <- <-.
    split; [exact Hd |]. intros _. cbn. eauto.
Qed.

Lemma setActiveDevice_keeps_ok (w w' : World) (d nId : Z) (o : outcome Z) :
  registry_ok w -> setActiveDevice P B d nId w = (o, w') -> registry_ok w'.
Proof.
  intros Hok Hrun. destruct (Z_le_gt_dec d (cuDevices_size w)) as [Hd | Hd].
  - eapply setActiveDevice_ok; [exact Hd | left; exact Hok | exact Hrun].
  - rewrite setActiveDevice_above_count in Hrun by lia.
    now injection Hrun as _ <-.
Qed.

(** [getStream] keeps the registry in that state, however it ends. *)
Lemma getStream_keeps_ok (w w' : World) (d : Z) (o : outcome Z) :
  registry_ok w -> getStream P B d w = (o, w') -> registry_ok w'.
Proof.
  intros Hok Hrun. unfold getStream in Hrun.
  unfold bind at 1 in Hrun. unfold read at 1 in Hrun.
  destruct (vec_at (streams w) d) as [s0 | e |]; try (now injection Hrun as _ <-).
  destruct (s0 =? 0); [| now injection Hrun as _ <-].
  rewrite bind_gets in Hrun. unfold bind at 1 in Hrun.
  destruct (setDevice P B d w) as [[r | e |] w1] eqn:H1;
    try (injection Hrun as _ <-; eapply setActiveDevice_keeps_ok; eauto).
  assert (Hok1 : registry_ok w1) by (eapply setActiveDevice_keeps_ok; eauto).
  unfold bind at 1 in Hrun. unfold read at 1 in Hrun.
  destruct (vec_at (streams w1) d) as [s1 | e |]; try (now injection Hrun as _ <-).
  unfold bind at 1 in Hrun.
  destruct (setDevice P B (activeDev w) w1) as [[r2 | e |] w2] eqn:H2;
    injection Hrun as _ <-; eapply setActiveDevice_keeps_ok; eauto.
Qed.

Lemma preserves_getStream (d : Z) : preserves registry_extends (getStream P B d).
Proof.
  unfold getStream.
  apply preserves_bind; [apply preserves_read | intros s0].
  destruct (s0 =? 0); [| apply preserves_ret].
  apply preserves_bind; [apply preserves_gets | intros a].
  apply preserves_bind; [apply preserves_setActiveDevice | intros _].
  apply preserves_bind; [apply preserves_read | intros s1].
  apply preserves_bind; [apply preserves_setActiveDevice | intros _].
  apply preserves_ret.
Qed.

(** The device count stays the length of the descriptor vector. *)
Lemma registry_extends_count (w w' : World) :
  registry_extends w w' ->
  getDeviceCount w = cuDevices_size w -> getDeviceCount w' = cuDevices_size w'.
Proof.
  unfold getDeviceCount, cuDevices_size. intros (Hd & Hn & _) H. congruence.
Qed.

(** The first-time marker survives a switch that succeeds at once: it is
    cleared by the first failure only. *)
Lemma setActiveDevice_success_keeps_marker (w w' : World) (d nId n r : Z) :
  d <= cuDevices_size w ->
  resolve_native w d nId = Ret n ->
  cudaSetDevice P (cudaCalls w) n = cudaSuccess ->
  vec_at (streams w) d = Ret 0 ->
  cudaStreamCreate P (S (cudaCalls w)) n = cudaSuccess ->
  setActiveDevice P B d nId w = (Ret r, w') ->
  first w' = first w /\ activeDev w' = d.
Proof.
  intros Hd Hn Hs Hslot Hc Hrun.
  rewrite (setActiveDevice_creates_queue w d nId n Hd Hn Hs Hslot Hc) in Hrun.
  injection Hrun as _ <-. split; reflexivity.
Qed.
End SwitchFacts.

(* ===================================================================== *)
(** ** Construction of the registry *)
(* ===================================================================== *)

Section ConstructorFacts.
Variable P : Platform.
Variable B : Build.

Lemma enumerate_devices_nativeId (n : Z) (d : cudaDevice_t) :
  In d (enumerate_devices P n) -> 0 <= nativeId d < n.
Proof.
  unfold enumerate_devices, upto. rewrite in_map_iff.
  intros (i & <- & Hi). rewrite in_map_iff in Hi.
  destruct Hi as (k & <- & Hk). apply in_seq in Hk. cbn. lia.
Qed.

Lemma vec_at_head {A} (v : list A) (x : A) :
  hd_error v = Some x -> vec_at v 0 = Ret x.
Proof. destruct v; cbn; congruence. Qed.

Lemma vec_at_repeat_head (x : Z) (n : Z) : 0 < n -> vec_at (repeat x (Z.to_nat n)) 0 = Ret x.
Proof.
  intros Hn. destruct (Z.to_nat n) as [| k] eqn:Hk; [lia | reflexivity].
Qed.

(** C6 (as the code has it).  When the default-device override is
    present and names an index that is negative or not below the device
    count, construction prints the warning, ignores the override and
    switches to logical device 0; when the runtime accepts that device
    and creates its queue, construction completes with device 0
    active. *)
Theorem ctor_out_of_range_override (n : Z) (d0 : cudaDevice_t) :
  let deviceENV := getEnvVar P "AF_CUDA_DEFAULT_DEVICE" in
  let def_device := istream_extract_int P deviceENV (-1) in
  cudaGetDeviceCount P = (cudaSuccess, n) ->
  deviceENV <> "" ->
  def_device < 0 \/ n <= def_device ->
  hd_error (sortDevices_list (sortDevices_default B) (enumerate_devices P n)) = Some d0 ->
  0 < MAX_DEVICES B ->
  cudaSetDevice P 0 (nativeId d0) = cudaSuccess ->
  cudaStreamCreate P 1 (nativeId d0) = cudaSuccess ->
  exists w,
    getInstance P B = (Ret tt, w) /\
    getActiveDeviceId w = 0 /\
    getDeviceCount w = n /\
    cuDevices w = sortDevices_list (sortDevices_default B) (enumerate_devices P n) /\
    console w = [("WARNING: AF_CUDA_DEFAULT_DEVICE is out of range" ++ LF)%string;
                 ("Setting default device as 0" ++ LF)%string] /\
    cudaCurrent w = nativeId d0 /\
    exists h, vec_at (streams w) 0 = Ret h /\ h <> 0.
Proof.
  intros deviceENV def_device Hcount Henv Hrange Hhd Hmax Hset Hcreate.
  set (ranked := sortDevices_list (sortDevices_default B) (enumerate_devices P n)) in *.
  assert (Hin : In d0 (enumerate_devices P n)).
  { eapply Permutation_in.
    - symmetry. apply (stable_sort_perm (comparator (sortDevices_default B))).
    - fold (sortDevices_list (sortDevices_default B) (enumerate_devices P n)).
      fold ranked. destruct ranked as [| x r]; [discriminate |].
      cbn in Hhd. injection Hhd as ->. now left. }
  pose proof (enumerate_devices_nativeId n d0 Hin) as Hnid.
  unfold getInstance, DeviceManager_ctor. rewrite Hcount.
  rewrite bind_modify. unfold bind at 1. cbn [CUDA_CHECK cudaSuccess Z.eqb ret].
  destruct (Z.eqb_spec n 0) as [Hz | _]; [lia |].
  rewrite bind_modify. unfold sortDevices. rewrite !bind_modify.
  fold deviceENV. fold def_device.
  destruct (String.eqb_spec deviceENV "") as [He | _]; [contradiction |].
  rewrite bind_gets.
  cbn [nDevices set_streams set_cuDevices set_nDevices cuDevices initial_world].
  fold ranked.
  assert (Hor : (def_device <? 0) || (def_device >=? n) = true).
  { apply orb_true_iff. destruct Hrange; [left | right]; lia. }
  rewrite Hor. rewrite !bind_modify.
  eexists. split.
  - match goal with
    | |- bind (read _) _ ?w0 = _ =>
        rewrite (bind_read _ _ w0 d0) by (apply vec_at_head; exact Hhd);
        pose proof (setActiveDevice_creates_queue P B w0 0 (nativeId d0) (nativeId d0))
          as Hswitch
    end.
    eapply eq_trans; [apply bind_Ret, Hswitch | reflexivity].
    + unfold cuDevices_size. lia.
    + unfold resolve_native.
      destruct (Z.eqb_spec (nativeId d0) (-1)); [lia | reflexivity].
    + exact Hset.
    + apply vec_at_repeat_head. exact Hmax.
    + exact Hcreate.
  - cbn. repeat split; try reflexivity.
    exists 2. split; [| lia].
    destruct (Z.to_nat (MAX_DEVICES B)) as [| k] eqn:Hk; [lia | reflexivity].
Qed.

(** A registry whose construction completes is in the state
    [registry_ok]. *)
Lemma getInstance_ok (w : World) :
  getInstance P B = (Ret tt, w) -> registry_ok w.
Proof.
  unfold getInstance, DeviceManager_ctor.
  destruct (cudaGetDeviceCount P) as [e n]. intros Hrun.
  rewrite bind_modify in Hrun.
  apply bind_Ret_inv in Hrun as (u & w1 & Hchk & Hrun).
  apply CUDA_CHECK_Ret_inv in Hchk as [-> ->].
  destruct (n =? 0); [discriminate |].
  rewrite bind_modify in Hrun. unfold sortDevices in Hrun.
  rewrite !bind_modify in Hrun.
  assert (Hlast : forall (w0 : World) (idx : Z),
            (d <- read (fun w1 => vec_at (cuDevices w1) idx) ;;
             setActiveDevice P B idx (nativeId d) ;; ret tt)%M w0 = (Ret tt, w) ->
            registry_ok w).
  { intros w0 idx H.
    apply bind_Ret_inv in H as (d & w1 & Hd & H).
    unfold read in Hd. injection Hd as Hd <-.
    apply bind_Ret_inv in H as (r & w2 & Hsw & H). injection H as <-.
    apply vec_at_Ret_range in Hd.
    eapply setActiveDevice_ok; [| right; eexists; reflexivity | exact Hsw].
    unfold cuDevices_size. lia. }
  destruct (String.eqb (getEnvVar P "AF_CUDA_DEFAULT_DEVICE") "").
  - eapply Hlast, Hrun.
  - rewrite bind_gets in Hrun.
    destruct (_ || _).
    + rewrite !bind_modify in Hrun. eapply Hlast, Hrun.
    + eapply Hlast, Hrun.
Qed.

Lemma enumerate_devices_length (n : Z) :
  List.length (enumerate_devices P n) = Z.to_nat n.
Proof.
  unfold enumerate_devices, upto. now rewrite !length_map, length_seq.
Qed.

(** After construction the device count is positive and is the length of
    the descriptor vector. *)
Lemma getInstance_count (w : World) :
  getInstance P B = (Ret tt, w) ->
  0 < getDeviceCount w /\ getDeviceCount w = cuDevices_size w.
Proof.
  unfold getInstance, DeviceManager_ctor.
  destruct (cudaGetDeviceCount P) as [e n]. intros Hrun.
  rewrite bind_modify in Hrun.
  apply bind_Ret_inv in Hrun as (u & w1 & Hchk & Hrun).
  apply CUDA_CHECK_Ret_inv in Hchk as [-> ->].
  destruct (Z.eqb_spec n 0) as [| Hn0]; [discriminate |].
  rewrite bind_modify in Hrun. unfold sortDevices in Hrun.
  rewrite !bind_modify in Hrun.
  set (ranked := sortDevices_list (sortDevices_default B) (enumerate_devices P n)) in *.
  assert (Hlen : List.length ranked = Z.to_nat n).
  { unfold ranked, sortDevices_list.
    rewrite <- (Permutation_length (stable_sort_perm _ _)).
    apply enumerate_devices_length. }
  assert (Hlast : forall (w0 : World) (idx : Z),
            cuDevices w0 = ranked -> nDevices w0 = n ->
            (d <- read (fun w1 => vec_at (cuDevices w1) idx) ;;
             setActiveDevice P B idx (nativeId d) ;; ret tt)%M w0 = (Ret tt, w) ->
            0 < getDeviceCount w /\ getDeviceCount w = cuDevices_size w).
  { intros w0 idx Hdevs Hcount H.
    apply bind_Ret_inv in H as (d & w1 & Hd & H).
    unfold read in Hd. injection Hd as Hd <-.
    apply bind_Ret_inv in H as (r & w2 & Hsw & H). injection H as <-.
    apply vec_at_Ret_range in Hd. rewrite Hdevs, Hlen in Hd.
    pose proof (preserves_setActiveDevice P B _ _ _ _ _ Hsw) as (Hd' & Hn' & _).
    unfold getDeviceCount, cuDevices_size. rewrite Hd', Hn', Hdevs, Hcount, Hlen. lia. }
  destruct (String.eqb (getEnvVar P "AF_CUDA_DEFAULT_DEVICE") "").
  - eapply Hlast, Hrun; reflexivity.
  - rewrite bind_gets in Hrun.
    destruct (_ || _).
    + rewrite !bind_modify in Hrun. eapply Hlast, Hrun; reflexivity.
    + eapply Hlast, Hrun; reflexivity.
Qed.
End ConstructorFacts.

(* ===================================================================== *)
(** ** The three-device machine *)
(* ===================================================================== *)

(** The round trip at logical index 2 of the three-device registry. *)
Lemma native_id_round_trip_witness :
  exists n j,
    getDeviceNativeId bootstrapped 2 = Ret n /\
    getDeviceIdFromNativeId bootstrapped n = Ret j /\
    0 <= j < getDeviceCount bootstrapped /\
    getDeviceNativeId bootstrapped j = Ret n /\
    (let? n1 := getDeviceNativeId bootstrapped 2 in
     let? j1 := getDeviceIdFromNativeId bootstrapped n1 in
     getDeviceNativeId bootstrapped j1) = getDeviceNativeId bootstrapped 2.
Proof.
  apply (native_id_round_trip bootstrapped 2).
  - reflexivity.
  - vm_compute. split; [discriminate | reflexivity].
Defined.

(** C1.  Construction activates device 0 at the first attempt, so the
    first-time marker is still set when the user asks for device 1.
    Device 1 is unavailable: instead of raising the failure,
    [setActiveDevice] runs the scan, returns normally and leaves device 2
    active, device 1 without a queue. *)
Theorem setDevice_scans_after_successful_construction :
  let P := three_gpu_platform "" 1 in
  fst (getInstance P release_build) = Ret tt /\
  getActiveDeviceId bootstrapped = 0 /\
  vec_at (streams bootstrapped) 0 = Ret 2 /\
  first bootstrapped = true /\
  cudaStreamCreate P (S (S (cudaCalls bootstrapped))) 1 = cudaErrorDevicesUnavailable /\
  fst (setDevice P release_build 1 bootstrapped) = Ret 0 /\
  getActiveDeviceId (snd (setDevice P release_build 1 bootstrapped)) = 2 /\
  vec_at (streams (snd (setDevice P release_build 1 bootstrapped))) 1 = Ret 0.
Proof. vm_compute. repeat split; reflexivity. Qed.

(** C2.  On a registry of three devices the index 3 passes the range
    test [device > numDevices]: [setDevice(3)] resolves the native id -1
    and throws the runtime's error instead of returning -1, and
    [setActiveDevice(3, 0)] makes 3 the active index and creates a queue
    in slot 3. *)
Theorem setActiveDevice_accepts_device_count :
  let P := three_gpu_platform "" 1 in
  getDeviceCount bootstrapped = 3 /\
  cuDevices_size bootstrapped = 3 /\
  getActiveDeviceId bootstrapped = 0 /\
  fst (setDevice P release_build 3 bootstrapped) =
    Throw (cuda_exception cudaErrorInvalidDevice) /\
  fst (setDevice P release_build 3 bootstrapped) <> Ret (-1) /\
  fst (setActiveDevice P release_build 3 0 bootstrapped) = Ret 0 /\
  getActiveDeviceId (snd (setActiveDevice P release_build 3 0 bootstrapped)) = 3 /\
  vec_at (streams (snd (setActiveDevice P release_build 3 0 bootstrapped))) 3 = Ret 4.
Proof. vm_compute. repeat split; try reflexivity; discriminate. Qed.

(** C6, counterexample.  The override names index 3 on a machine of three
    devices whose best device is unavailable: the warning is printed and
    construction completes, but with device 1 active. *)
Lemma ctor_out_of_range_override_falls_back :
  let P := three_gpu_platform "3" 0 in
  getEnvVar P "AF_CUDA_DEFAULT_DEVICE" = "3" /\
  istream_extract_int P "3" (-1) = 3 /\
  fst (getInstance P release_build) = Ret tt /\
  getDeviceCount bootstrapped_on_fallback = 3 /\
  console bootstrapped_on_fallback =
    [("WARNING: AF_CUDA_DEFAULT_DEVICE is out of range" ++ LF)%string;
     ("Setting default device as 0" ++ LF)%string] /\
  getActiveDeviceId bootstrapped_on_fallback = 1 /\
  getActiveDeviceId bootstrapped_on_fallback <> 0.
Proof. vm_compute. repeat split; try reflexivity; discriminate. Qed.

(** The override names index 3 and device 0 is free: device 0 is active. *)
Lemma ctor_out_of_range_override_witness :
  exists w,
    getInstance (three_gpu_platform "3" 1) release_build = (Ret tt, w) /\
    getActiveDeviceId w = 0 /\
    getDeviceCount w = 3 /\
    cuDevices w = sortDevices_list (sortDevices_default release_build)
                    (enumerate_devices (three_gpu_platform "3" 1) 3) /\
    console w = [("WARNING: AF_CUDA_DEFAULT_DEVICE is out of range" ++ LF)%string;
                 ("Setting default device as 0" ++ LF)%string] /\
    cudaCurrent w = nativeId (enumerate_device (three_cards 0) 0) /\
    exists h, vec_at (streams w) 0 = Ret h /\ h <> 0.
Proof.
  apply (ctor_out_of_range_override (three_gpu_platform "3" 1) release_build 3
           (enumerate_device (three_cards 0) 0)).
  - reflexivity.
  - vm_compute. discriminate.
  - right. vm_compute. discriminate.
  - reflexivity.
  - reflexivity.
  - reflexivity.
  - reflexivity.
Defined.

(** Past its first failure, the registry is asked for the busy device 0. *)
Lemma setActiveDevice_failure_keeps_switch_witness :
  exists w',
    setActiveDevice (three_gpu_platform "3" 0) release_build 0 (-1)
                    bootstrapped_on_fallback =
      (Throw (cuda_exception cudaErrorDevicesUnavailable), w') /\
    getActiveDeviceId w' = 0 /\
    vec_at (streams w') 0 = Ret 0 /\
    cuDevices w' = cuDevices bootstrapped_on_fallback /\
    first w' = false.
Proof.
  apply (setActiveDevice_failure_keeps_switch (three_gpu_platform "3" 0) release_build
           bootstrapped_on_fallback 0 (-1) 0 cudaErrorDevicesUnavailable).
  - reflexivity.
  - vm_compute. split; [discriminate | reflexivity].
  - reflexivity.
  - reflexivity.
  - reflexivity.
  - reflexivity.
  - reflexivity.
  - vm_compute. discriminate.
Defined.

(** [getStream(2)] on the freshly constructed registry: device 0 stays active. *)
Lemma getStream_restores_active_device_witness :
  getActiveDeviceId (snd (getStream (three_gpu_platform "" 1) release_build 2 bootstrapped))
  = getActiveDeviceId bootstrapped.
Proof.
  apply (getStream_restores_active_device (three_gpu_platform "" 1) release_build
           bootstrapped
           (snd (getStream (three_gpu_platform "" 1) release_build 2 bootstrapped))
           2 4).
  - split.
    + vm_compute. discriminate.
    + intros _. exists 2. split; [vm_compute; reflexivity | lia].
  - vm_compute. reflexivity.
Defined.

(** C10, counterexample.  Device 0 is valid and has no queue; the
    registry is past its first failure and device 1 is active.
    [getStream(0)] switches to device 0, the creation of its queue fails,
    and the failure leaves the call with device 0 active. *)
Lemma getStream_failure_leaves_device_switched :
  let P := three_gpu_platform "3" 0 in
  0 <= 0 < getDeviceCount bootstrapped_on_fallback /\
  getActiveDeviceId bootstrapped_on_fallback = 1 /\
  first bootstrapped_on_fallback = false /\
  fst (getStream P release_build 0 bootstrapped_on_fallback) =
    Throw (cuda_exception cudaErrorDevicesUnavailable) /\
  getActiveDeviceId (snd (getStream P release_build 0 bootstrapped_on_fallback)) = 0 /\
  getActiveDeviceId (snd (getStream P release_build 0 bootstrapped_on_fallback)) <>
    getActiveDeviceId bootstrapped_on_fallback.
Proof. vm_compute. repeat split; try reflexivity; discriminate. Qed.

(* ===================================================================== *)
(** ** Further facts about the device switch *)
(* ===================================================================== *)

Section SwitchProperties.
Variable P : Platform.
Variable B : Build.

Lemma do_cudaStreamCreate_success (device : Z) (w w' : World) (e : cudaError_t) :
  do_cudaStreamCreate P device w = (Ret e, w') -> e = cudaSuccess ->
  exists h, vec_at (streams w') device = Ret h /\ h <> 0.
Proof.
  unfold do_cudaStreamCreate. intros Hrun He.
  destruct (vec_at (streams w) device) as [s0 | |] eqn:Hslot; try discriminate.
  injection Hrun as Hres <-. rewrite Hres, He. cbn [Z.eqb cudaSuccess].
  cbn [streams tick set_streams].
  rewrite (vec_at_vec_set _ device device _ s0 s0 Hslot Hslot), Z.eqb_refl.
  eexists; split; [reflexivity | lia].
Qed.

(** A scan that returns has found a device with a queue, and returns the
    index that was active when the switch began. *)
Lemma fallback_scan_Ret (numDevices old : Z) :
  forall (k : nat) (device : Z) (err : cudaError_t) (w w' : World) (r : Z),
    Z.to_nat (numDevices - device) = k ->
    fallback_scan P B numDevices old device err w = (Ret r, w') ->
    (err = cudaSuccess -> exists h, vec_at (streams w) device = Ret h /\ h <> 0) ->
    r = old /\ exists h, vec_at (streams w') (activeDev w') = Ret h /\ h <> 0.
Proof.
  induction k as [k IH] using lt_wf_ind. intros device err w w' r Hk Hrun Hq.
  revert Hrun. simp fallback_scan.
  destruct (Z.eq_dec err cudaErrorDevicesUnavailable) as [He | Hne]; cbn.
  - destruct (Z_ge_dec (device + 1) numDevices) as [Hge | Hlt]; cbn; intros Hrun.
    + apply bind_Ret_inv in Hrun as (u & w1 & _ & Hrun).
      apply bind_Ret_inv in Hrun as (u' & w2 & Hchk & _).
      apply CUDA_CHECK_Ret_inv in Hchk as [Hc _]. subst err. discriminate.
    + apply bind_Ret_inv in Hrun as (u & w1 & _ & Hrun).
      apply bind_Ret_inv in Hrun as (nId & w2 & _ & Hrun).
      apply bind_Ret_inv in Hrun as (e & w3 & _ & Hrun).
      apply bind_Ret_inv in Hrun as (u' & w4 & _ & Hrun).
      apply bind_Ret_inv in Hrun as (err' & w5 & Hcreate & Hrun).
      apply (IH (Z.to_nat (numDevices - (device + 1))) ltac:(lia)
                (device + 1) err' w5 w' r eq_refl Hrun).
      intros Hs. eapply do_cudaStreamCreate_success; eauto.
  - intros Hrun.
    apply bind_Ret_inv in Hrun as (u & w1 & Hchk & Hrun).
    apply CUDA_CHECK_Ret_inv in Hchk as [Hc ->].
    injection Hrun as <- <-. split; [reflexivity |]. cbn. auto.
Qed.

Lemma setActiveDevice_Ret_facts (w w' : World) (d nId r : Z) :
  d <= cuDevices_size w ->
  setActiveDevice P B d nId w = (Ret r, w') ->
  r = activeDev w /\
  (d <= activeDev w' <= cuDevices_size w' /\
   (d < cuDevices_size w -> activeDev w' < cuDevices_size w)) /\
  exists h, vec_at (streams w') (activeDev w') = Ret h /\ h <> 0.
Proof.
  intros Hd Hrun.
  assert (Hok : registry_ok w').
  { eapply setActiveDevice_ok; [exact Hd | right; eexists; reflexivity | exact Hrun]. }
  unfold setActiveDevice in Hrun.
  apply bind_Ret_inv in Hrun as (numDevices & w1 & [= <- <-] & Hrun).
  destruct (Z.gtb_spec d (cuDevices_size w)) as [Hgt | _]; [lia |].
  apply bind_Ret_inv in Hrun as (old & w1 & [= <- <-] & Hrun).
  apply bind_Ret_inv in Hrun as (n & w1 & Hn & Hrun).
  unfold read in Hn. injection Hn as Hn <-.
  apply bind_Ret_inv in Hrun as (e & w1 & He & Hrun).
  apply bind_Ret_inv in Hrun as (u & w2 & Hchk & Hrun).
  apply CUDA_CHECK_Ret_inv in Hchk as [-> ->].
  apply bind_Ret_inv in Hrun as (s0 & w2 & Hs0 & Hrun).
  unfold read in Hs0. injection Hs0 as Hs0 <-.
  apply bind_Ret_inv in Hrun as (err & w2 & Herr & Hrun).
  apply bind_Ret_inv in Hrun as (u' & w3 & [= <- <-] & Hrun).
  assert (Hcreated : err = cudaSuccess ->
                     exists h, vec_at (streams w2) d = Ret h /\ h <> 0).
  { intros ->. destruct (Z.eqb_spec s0 0) as [-> | Hs0ne].
    - eapply do_cudaStreamCreate_success; eauto.
    - injection Herr as <-. eauto. }
  destruct (Z.eqb_spec err cudaSuccess) as [-> | Hfail].
  { injection Hrun as <- <-. cbn. repeat split; try lia.
    - destruct Hok as [Hle _]. exact Hle.
    - now apply Hcreated. }
  apply bind_Ret_inv in Hrun as (f & w4 & [= <- <-] & Hrun).
  cbn [first set_activeDev] in Hrun.
  destruct (first w2) eqn:Hfirst; cbn [negb] in Hrun.
  - rewrite bind_modify in Hrun.
    pose proof (fallback_scan_bound P B _ _ _ _ _ eq_refl _ _ _ Hrun) as [_ Hact].
    cbn [activeDev set_first set_activeDev] in Hact.
    destruct (fallback_scan_Ret _ _ _ _ _ _ _ _ eq_refl Hrun) as [-> Hq].
    { intros ->. contradiction. }
    split; [reflexivity |]. split; [| exact Hq].
    destruct Hok as [Hle _]. split; [split; [| exact Hle] |].
    + destruct Hact as [-> | Hact]; lia.
    + intros Hlt. destruct Hact as [-> | Hact]; lia.
  - apply bind_Ret_inv in Hrun as (u'' & w4 & Hchk & _).
    apply CUDA_CHECK_Ret_inv in Hchk as [-> _]. contradiction.
Qed.
(** X2.  A switch to an index that passes the range test, when it
    returns, returns the index that was active before, and leaves active
    an index not below the requested one whose queue exists. *)
Theorem setActiveDevice_returns_with_queue (w w' : World) (d nId r : Z) :
  d <= cuDevices_size w ->
  setActiveDevice P B d nId w = (Ret r, w') ->
  r = getActiveDeviceId w /\
  d <= getActiveDeviceId w' <= cuDevices_size w' /\
  exists h, vec_at (streams w') (getActiveDeviceId w') = Ret h /\ h <> 0.
Proof.
  unfold getActiveDeviceId. intros Hd Hrun.
  destruct (setActiveDevice_Ret_facts w w' d nId r Hd Hrun) as (Hr & [Hb _] & Hq).
  auto.
Qed.

(** Outside the scan a switch writes at most the slot of the requested
    device, and only when that slot is empty. *)
Lemma setActiveDevice_streams_steady (w w' : World) (d nId : Z) (o : outcome Z) :
  first w = false \/ (exists h, vec_at (streams w) d = Ret h /\ h <> 0) ->
  setActiveDevice P B d nId w = (o, w') ->
  streams w' = streams w \/
  (vec_at (streams w) d = Ret 0 /\
   exists handle, handle <> 0 /\
                  streams w' = vec_set (streams w) (Z.to_nat d) handle).
Proof.
  intros Hsafe Hrun. unfold setActiveDevice in Hrun. rewrite bind_gets in Hrun.
  destruct (d >? cuDevices_size w); [injection Hrun as _ <-; now left |].
  rewrite bind_gets in Hrun.
  unfold bind at 1 in Hrun. unfold read at 1 in Hrun.
  destruct (resolve_native w d nId) as [n | e |] eqn:Hn;
    [| injection Hrun as _ <-; now left ..].
  unfold bind at 1 in Hrun. unfold do_cudaSetDevice in Hrun.
  unfold bind at 1 in Hrun. unfold CUDA_CHECK at 1 in Hrun.
  destruct (Z.eqb_spec (cudaSetDevice P (cudaCalls w) n) cudaSuccess) as [Hs | Hs].
  2:{ cbn in Hrun. injection Hrun as _ <-. now left. }
  cbn [ret] in Hrun.
  unfold bind at 1 in Hrun. unfold read at 1 in Hrun.
  cbn [streams tick set_cudaCurrent] in Hrun.
  destruct (vec_at (streams w) d) as [s0 | e |] eqn:Hslot;
    [| injection Hrun as _ <-; now left ..].
  destruct (Z.eqb_spec s0 0) as [-> | Hs0].
  - assert (Hfirst : first w = false).
    { destruct Hsafe as [Hf | (h & Hh & Hne)]; [exact Hf | congruence]. }
    unfold bind at 1 in Hrun. unfold do_cudaStreamCreate in Hrun.
    cbn [streams tick set_cudaCurrent cudaCalls cudaCurrent] in Hrun.
    rewrite Hslot in Hrun.
    destruct (Z.eqb_spec (cudaStreamCreate P (S (cudaCalls w)) n) cudaSuccess)
      as [Hc | Hc].
    + rewrite bind_modify in Hrun. injection Hrun as _ <-.
      right. split; [reflexivity |]. eexists. split; [| reflexivity]. lia.
    + rewrite bind_modify, bind_gets in Hrun.
      cbn [first set_activeDev tick set_cudaCurrent] in Hrun.
      rewrite Hfirst in Hrun. cbn [negb] in Hrun.
      unfold bind, CUDA_CHECK, throw in Hrun.
      destruct (Z.eqb_spec (cudaStreamCreate P (S (cudaCalls w)) n) cudaSuccess)
        as [Hc' | _]; [contradiction |].
      injection Hrun as _ <-. now left.
  - unfold bind at 1 in Hrun. cbn [ret] in Hrun. rewrite bind_modify in Hrun.
    cbn [Z.eqb cudaSuccess] in Hrun. injection Hrun as _ <-. now left.
Qed.

(** *** The slots below the requested device

    A switch to [device] writes the slot of [device] and, in the scan, the
    slots after it; the slots before it are out of its reach. *)

Lemma kept_below_steady {A} (bound : Z) (m : M A) :
  (forall w o w', m w = (o, w') -> streams w' = streams w) ->
  preserves (kept_below bound) m.
Proof. intros Hm w o w' Hrun i _. now rewrite (Hm w o w' Hrun). Qed.

Lemma kept_below_bind {A C} (bound : Z) (m : M A) (k : A -> M C) :
  preserves (kept_below bound) m ->
  (forall a, preserves (kept_below bound) (k a)) ->
  preserves (kept_below bound) (bind m k).
Proof.
  apply (preserves_bind_gen (kept_below bound) (kept_below bound) (kept_below bound)).
  - auto.
  - intros w w1 w' H1 H2 i Hi. now rewrite (H2 i Hi), (H1 i Hi).
Qed.

Lemma kept_below_CUDA_CHECK (bound : Z) (err : cudaError_t) :
  preserves (kept_below bound) (CUDA_CHECK err).
Proof.
  apply kept_below_steady. unfold CUDA_CHECK.
  destruct (err =? cudaSuccess); now intros w o w' [= _ <-].
Qed.

Lemma kept_below_debug_printf (bound : Z) (line : string) :
  preserves (kept_below bound) (debug_printf B line).
Proof.
  apply kept_below_steady. unfold debug_printf.
  destruct (NDEBUG B); now intros w o w' [= _ <-].
Qed.

Lemma kept_below_do_cudaSetDevice (bound nId : Z) :
  preserves (kept_below bound) (do_cudaSetDevice P nId).
Proof.
  apply kept_below_steady. intros w o w' [= _ <-].
  destruct (cudaSetDevice P (cudaCalls w) nId =? cudaSuccess); reflexivity.
Qed.

Lemma vec_at_vec_set_other {A} (v : list A) (i j : Z) (x : A) :
  i < j -> vec_at (vec_set v (Z.to_nat j) x) i = vec_at v i.
Proof.
  intros Hij. unfold vec_at. destruct (Z.ltb_spec i 0) as [_ | Hi]; [reflexivity |].
  rewrite nth_error_vec_set.
  destruct (Nat.eqb_spec (Z.to_nat i) (Z.to_nat j)) as [E | _]; [lia | reflexivity].
Qed.

Lemma kept_below_do_cudaStreamCreate (bound device : Z) :
  bound <= device ->
  preserves (kept_below bound) (do_cudaStreamCreate P device).
Proof.
  intros Hb w o w' Hrun i Hi. unfold do_cudaStreamCreate in Hrun.
  destruct (vec_at (streams w) device) as [s | e |];
    try (injection Hrun as _ <-; reflexivity).
  injection Hrun as _ <-.
  destruct (cudaStreamCreate P (cudaCalls w) (cudaCurrent w) =? cudaSuccess);
    [| reflexivity].
  cbn [streams tick set_streams]. apply vec_at_vec_set_other. lia.
Qed.

Lemma kept_below_fallback_scan (numDevices old : Z) :
  forall (k : nat) (device : Z) (err : cudaError_t),
    Z.to_nat (numDevices - device) = k ->
    preserves (kept_below (device + 1))
              (fallback_scan P B numDevices old device err).
Proof.
  induction k as [k IH] using lt_wf_ind. intros device err Hk w o w'.
  simp fallback_scan.
  destruct (Z.eq_dec err cudaErrorDevicesUnavailable) as [He | Hne]; cbn.
  - destruct (Z_ge_dec (device + 1) numDevices) as [Hge | Hlt]; cbn.
    + revert w o w'.
      apply kept_below_bind; [apply kept_below_debug_printf | intros _].
      apply kept_below_bind; [apply kept_below_CUDA_CHECK | intros _].
      apply kept_below_steady. now intros w o w' [= _ <-].
    + revert w o w'.
      apply kept_below_bind; [apply kept_below_debug_printf | intros _].
      apply kept_below_bind;
        [apply kept_below_steady; now intros w o w' [= _ <-] | intros nId].
      apply kept_below_bind; [apply kept_below_do_cudaSetDevice | intros e].
      apply kept_below_bind; [apply kept_below_CUDA_CHECK | intros _].
      apply kept_below_bind;
        [apply kept_below_do_cudaStreamCreate; lia | intros err'].
      intros w o w' Hrun i Hi.
      apply (IH (Z.to_nat (numDevices - (device + 1))) ltac:(lia)
                (device + 1) err' eq_refl w o w' Hrun). lia.
  - revert w o w'.
    apply kept_below_bind; [apply kept_below_CUDA_CHECK | intros _].
    apply kept_below_bind; [| intros _];
      apply kept_below_steady; now intros w o w' [= _ <-].
Qed.

Lemma kept_below_setActiveDevice (device nId : Z) :
  preserves (kept_below device) (setActiveDevice P B device nId).
Proof.
  assert (Hsteady : forall A (m : M A),
             (forall w o w', m w = (o, w') -> w' = w) ->
             preserves (kept_below device) m).
  { intros A m Hm. apply kept_below_steady. intros w o w' Hrun.
    now rewrite (Hm w o w' Hrun). }
  assert (Hmodify : forall f, (forall w, streams (f w) = streams w) ->
                              preserves (kept_below device) (modify f)).
  { intros f Hf. apply kept_below_steady. intros w o w' [= _ <-]. apply Hf. }
  unfold setActiveDevice.
  apply kept_below_bind; [apply Hsteady; now intros w o w' [= _ <-] | intros numDevices].
  destruct (device >? numDevices); [apply Hsteady; now intros w o w' [= _ <-] |].
  apply kept_below_bind; [apply Hsteady; now intros w o w' [= _ <-] | intros old].
  apply kept_below_bind; [apply Hsteady; now intros w o w' [= _ <-] | intros n].
  apply kept_below_bind; [apply kept_below_do_cudaSetDevice | intros e].
  apply kept_below_bind; [apply kept_below_CUDA_CHECK | intros _].
  apply kept_below_bind; [apply Hsteady; now intros w o w' [= _ <-] | intros s0].
  apply kept_below_bind.
  { destruct (s0 =? 0);
      [apply kept_below_do_cudaStreamCreate; lia
      | apply Hsteady; now intros w o w' [= _ <-]]. }
  intros err.
  apply kept_below_bind; [apply Hmodify; reflexivity | intros _].
  destruct (err =? cudaSuccess); [apply Hsteady; now intros w o w' [= _ <-] |].
  apply kept_below_bind; [apply Hsteady; now intros w o w' [= _ <-] | intros f].
  destruct (negb f).
  { apply kept_below_bind; [apply kept_below_CUDA_CHECK | intros _].
    apply Hsteady; now intros w o w' [= _ <-]. }
  apply kept_below_bind; [apply Hmodify; reflexivity | intros _].
  intros w o w' Hrun i Hi.
  apply (kept_below_fallback_scan numDevices old _ device err eq_refl w o w' Hrun).
  lia.
Qed.

(** X1.  Whatever way a switch to [d] ends, it leaves the descriptors
    and the device count as they were, never sets the first-time marker
    again, and empties no slot of the stream table: a slot that held a
    queue still holds one, the same one when the slot is at or below
    [d], possibly a new one when it is above [d], where the scan for
    another device creates streams without looking at the slot. *)
Theorem setActiveDevice_frame (w w' : World) (d nId : Z) (o : outcome Z) :
  setActiveDevice P B d nId w = (o, w') ->
  cuDevices w' = cuDevices w /\
  getDeviceCount w' = getDeviceCount w /\
  (first w = false -> first w' = false) /\
  (forall i h, vec_at (streams w) i = Ret h -> h <> 0 ->
               exists h', vec_at (streams w') i = Ret h' /\ h' <> 0 /\
                          (i <= d -> h' = h)).
Proof.
  intros Hrun.
  destruct (preserves_setActiveDevice P B d nId w o w' Hrun)
    as (Hdevs & Hcount & Hfirst & Hslots).
  repeat split; try assumption.
  intros i h Hi Hh. destruct (Hslots i h Hi Hh) as (h' & Hi' & Hh').
  exists h'. repeat split; try assumption. intros Hle.
  assert (Hsame : vec_at (streams w') i = vec_at (streams w) i).
  { destruct (Z.eq_dec i d) as [-> | Hne].
    - destruct (setActiveDevice_streams_steady w w' d nId o) as [-> | [Hnull _]];
        [right; eauto | exact Hrun | reflexivity | congruence].
    - apply (kept_below_setActiveDevice d nId w o w' Hrun). lia. }
  congruence.
Qed.

(** X3.  Once the first-time marker is cleared, a switch never replaces a
    queue: every handle that was in the table is still there, in its
    slot, however the switch ends. *)
Theorem setActiveDevice_keeps_handles (w w' : World) (d nId : Z) (o : outcome Z) :
  first w = false ->
  setActiveDevice P B d nId w = (o, w') ->
  forall i h, vec_at (streams w) i = Ret h -> h <> 0 ->
              vec_at (streams w') i = Ret h.
Proof.
  intros Hfirst Hrun i h Hi Hh.
  destruct (setActiveDevice_streams_steady w w' d nId o (or_introl Hfirst) Hrun)
    as [-> | (Hslot & handle & _ & ->)]; [exact Hi |].
  rewrite (vec_at_vec_set _ i d handle 0 h Hslot Hi).
  destruct (Z.eqb_spec i d) as [-> | _]; [congruence | reflexivity].
Qed.

(** X4.  A handle that [getStream(d)] has returned is returned again by
    the next call, which then changes nothing. *)
Theorem getStream_again (w w' : World) (d h : Z) :
  registry_ok w ->
  getStream P B d w = (Ret h, w') ->
  h <> 0 ->
  getStream P B d w' = (Ret h, w').
Proof.
  intros [Hact Hqueue] Hrun Hh.
  assert (Hhit : forall w0, vec_at (streams w0) d = Ret h ->
                            getStream P B d w0 = (Ret h, w0)).
  { intros w0 H0. unfold getStream. rewrite (bind_read _ _ _ _ H0).
    destruct (Z.eqb_spec h 0); [contradiction | reflexivity]. }
  unfold getStream in Hrun.
  apply bind_Ret_inv in Hrun as (s0 & w1 & Hs0 & Hrun).
  unfold read in Hs0. injection Hs0 as Hs0 <-.
  destruct (Z.eqb_spec s0 0) as [-> | Hne].
  2:{ injection Hrun as <- <-. now apply Hhit. }
  apply bind_Ret_inv in Hrun as (active_dev & w1 & [= <- <-] & Hrun).
  apply bind_Ret_inv in Hrun as (r1 & w1 & Hswitch & Hrun).
  apply bind_Ret_inv in Hrun as (s1 & w2 & Hs1 & Hrun).
  unfold read in Hs1. injection Hs1 as Hs1 <-.
  apply bind_Ret_inv in Hrun as (r2 & w2 & Hback & Hrun).
  injection Hrun as -> <-.
  pose proof (preserves_setActiveDevice P B d (-1) _ _ _ Hswitch) as (_ & _ & Hf & Hq).
  assert (Hsafe : first w1 = false \/
                  exists h0, vec_at (streams w1) (activeDev w) = Ret h0 /\ h0 <> 0).
  { destruct (first w) eqn:Hfw.
    - right. destruct (Hqueue eq_refl) as (h0 & Hh0 & Hne0). eauto.
    - left. auto. }
  apply Hhit.
  destruct (setActiveDevice_streams_steady w1 w2 (activeDev w) (-1) _ Hsafe Hback)
    as [-> | (Hslot & handle & _ & ->)]; [exact Hs1 |].
  rewrite (vec_at_vec_set _ d (activeDev w) handle 0 h Hslot Hs1).
  destruct (Z.eqb_spec d (activeDev w)) as [E | _]; [| reflexivity].
  rewrite <- E in Hslot. congruence.
Qed.

(** X5.  While the first-time marker is set, a failure to create the
    queue that is not "devices unavailable" is thrown at once: no other
    device is tried, the requested device is left active without queue,
    and the marker is cleared. *)
Theorem setActiveDevice_other_failure_at_first
        (w : World) (d nId n : Z) (err : cudaError_t) :
  d <= cuDevices_size w ->
  first w = true ->
  resolve_native w d nId = Ret n ->
  cudaSetDevice P (cudaCalls w) n = cudaSuccess ->
  vec_at (streams w) d = Ret 0 ->
  cudaStreamCreate P (S (cudaCalls w)) n = err ->
  err <> cudaSuccess -> err <> cudaErrorDevicesUnavailable ->
  exists w',
    setActiveDevice P B d nId w = (Throw (cuda_exception err), w') /\
    getActiveDeviceId w' = d /\
    first w' = false /\
    streams w' = streams w /\
    cudaCalls w' = S (S (cudaCalls w)).
Proof.
  intros Hd Hfirst Hnat Hset Hslot Hcreate Herr Hother.
  unfold setActiveDevice. rewrite bind_gets.
  destruct (Z.gtb_spec d (cuDevices_size w)) as [Hgt | _]; [lia |].
  rewrite bind_gets, (bind_read _ _ _ _ Hnat).
  unfold bind at 1. unfold do_cudaSetDevice. rewrite Hset. cbn [Z.eqb cudaSuccess].
  unfold bind at 1. cbn [CUDA_CHECK Z.eqb cudaSuccess ret].
  rewrite (bind_read _ _ _ 0) by exact Hslot.
  unfold bind at 1. cbn [Z.eqb]. unfold do_cudaStreamCreate.
  cbn [streams tick set_cudaCurrent cudaCalls cudaCurrent].
  rewrite Hslot, Hcreate.
  destruct (Z.eqb_spec err cudaSuccess) as [E | _]; [contradiction |].
  rewrite bind_modify, bind_gets.
  cbn [first set_activeDev tick set_cudaCurrent]. rewrite Hfirst. cbn [negb].
  rewrite bind_modify. simp fallback_scan.
  destruct (Z.eq_dec err cudaErrorDevicesUnavailable) as [E | Hne]; [contradiction |].
  cbn. unfold bind, CUDA_CHECK, throw.
  destruct (Z.eqb_spec err cudaSuccess) as [E | _]; [contradiction |].
  eexists. split; [reflexivity |]. cbn. auto.
Qed.
(** *** The scan for another device *)

Lemma debug_printf_run (line : string) (w : World) :
  exists w1, debug_printf B line w = (Ret tt, w1) /\
             cuDevices w1 = cuDevices w /\ activeDev w1 = activeDev w /\
             streams w1 = streams w /\ first w1 = first w /\
             cudaCalls w1 = cudaCalls w /\ cudaCurrent w1 = cudaCurrent w.
Proof.
  unfold debug_printf. destruct (NDEBUG B); eexists; split; try reflexivity;
    cbn; repeat split.
Qed.

(** One turn of the loop, when the device tried has its slot in the
    table: the runtime is switched to it and a stream creation is
    attempted. *)
Lemma fallback_scan_turn (numDevices old device : Z) (w : World)
      (dk : cudaDevice_t) (s : Z) :
  device + 1 < numDevices ->
  vec_at (cuDevices w) (device + 1) = Ret dk ->
  vec_at (streams w) (device + 1) = Ret s ->
  always_accepts P (nativeId dk) ->
  exists w1,
    cuDevices w1 = cuDevices w /\ activeDev w1 = activeDev w /\
    first w1 = first w /\
    cudaCalls w1 = S (S (cudaCalls w)) /\ cudaCurrent w1 = nativeId dk /\
    let err := cudaStreamCreate P (S (cudaCalls w)) (nativeId dk) in
    streams w1 = (if err =? cudaSuccess
                  then vec_set (streams w) (Z.to_nat (device + 1))
                               (Z.of_nat (S (S (cudaCalls w))))
                  else streams w) /\
    fallback_scan P B numDevices old device cudaErrorDevicesUnavailable w =
    fallback_scan P B numDevices old (device + 1) err w1.
Proof.
  intros Hlt Hdk Hs Hacc. simp fallback_scan.
  destruct (Z.eq_dec cudaErrorDevicesUnavailable cudaErrorDevicesUnavailable)
    as [Heq | Hne]; [| contradiction]. cbn.
  destruct (Z_ge_dec (device + 1) numDevices) as [Hge | Hlt']; [lia |]. cbn.
  destruct (debug_printf_run
              ("Warning: Device " ++ toString device ++
               " is unavailable. Incrementing to next device " ++ LF) w)
    as (w1 & Hdbg & Hd1 & Ha1 & Hs1 & Hf1 & Hc1 & _).
  rewrite (bind_Ret _ _ _ _ _ Hdbg).
  rewrite (bind_read _ _ _ (nativeId dk)) by (now rewrite Hd1, Hdk).
  unfold bind at 1. unfold do_cudaSetDevice. rewrite Hacc. cbn [Z.eqb cudaSuccess].
  unfold bind at 1. cbn [CUDA_CHECK Z.eqb cudaSuccess ret].
  unfold bind at 1. unfold do_cudaStreamCreate.
  cbn [streams tick set_cudaCurrent cudaCalls cudaCurrent].
  rewrite Hs1, Hs, Hc1.
  eexists. split; [| split; [| split; [| split; [| split; [| split; [| reflexivity]]]]]].
  - destruct (_ =? cudaSuccess); cbn; exact Hd1.
  - destruct (_ =? cudaSuccess); cbn; exact Ha1.
  - destruct (_ =? cudaSuccess); cbn; exact Hf1.
  - destruct (_ =? cudaSuccess); cbn; congruence.
  - destruct (_ =? cudaSuccess); cbn; reflexivity.
  - cbv zeta. destruct (_ =? cudaSuccess); cbn; congruence.
Qed.
(** The scan begins when the queue of the requested device cannot be
    created while the first-time marker is set. *)
Lemma setActiveDevice_enters_scan (w : World) (d nId n : Z) (err : cudaError_t) :
  d <= cuDevices_size w ->
  first w = true ->
  resolve_native w d nId = Ret n ->
  cudaSetDevice P (cudaCalls w) n = cudaSuccess ->
  vec_at (streams w) d = Ret 0 ->
  cudaStreamCreate P (S (cudaCalls w)) n = err ->
  err <> cudaSuccess ->
  setActiveDevice P B d nId w =
  fallback_scan P B (cuDevices_size w) (activeDev w) d err
    (set_first false (set_activeDev d (tick (tick (set_cudaCurrent n w))))).
Proof.
  intros Hd Hfirst Hnat Hset Hslot Hcreate Herr.
  unfold setActiveDevice. rewrite bind_gets.
  destruct (Z.gtb_spec d (cuDevices_size w)) as [Hgt | _]; [lia |].
  rewrite bind_gets, (bind_read _ _ _ _ Hnat).
  unfold bind at 1. unfold do_cudaSetDevice. rewrite Hset. cbn [Z.eqb cudaSuccess].
  unfold bind at 1. cbn [CUDA_CHECK Z.eqb cudaSuccess ret].
  rewrite (bind_read _ _ _ 0) by exact Hslot.
  unfold bind at 1. cbn [Z.eqb]. unfold do_cudaStreamCreate.
  cbn [streams tick set_cudaCurrent cudaCalls cudaCurrent].
  rewrite Hslot, Hcreate.
  destruct (Z.eqb_spec err cudaSuccess) as [E | _]; [contradiction |].
  rewrite bind_modify, bind_gets.
  cbn [first set_activeDev tick set_cudaCurrent]. rewrite Hfirst. cbn [negb].
  rewrite bind_modify. reflexivity.
Qed.

Lemma fallback_scan_reaches (numDevices old lo j : Z) (devs : list cudaDevice_t) :
  j < numDevices ->
  (forall k dk, lo <= k <= j -> vec_at devs k = Ret dk ->
                always_accepts P (nativeId dk)) ->
  (forall k dk, lo <= k < j -> vec_at devs k = Ret dk ->
                always_unavailable P (nativeId dk)) ->
  (forall dj, vec_at devs j = Ret dj -> always_creates P (nativeId dj)) ->
  forall (m : nat) (device : Z) (w : World),
    Z.to_nat (j - device) = m ->
    0 <= device < j -> lo <= device ->
    cuDevices w = devs ->
    j < Z.of_nat (List.length devs) ->
    j < Z.of_nat (List.length (streams w)) ->
    exists w' handle,
      fallback_scan P B numDevices old device cudaErrorDevicesUnavailable w =
        (Ret old, w') /\
      activeDev w' = j /\ first w' = first w /\ cuDevices w' = devs /\
      handle <> 0 /\ streams w' = vec_set (streams w) (Z.to_nat j) handle.
Proof.
  intros Hj Hacc Hbusy Hfree.
  induction m as [m IH] using lt_wf_ind.
  intros device w Hm Hdev Hlo Hdevs Hjd Hjs.
  destruct (vec_at_in_range devs (device + 1)) as [dk Hdk]; [lia |].
  destruct (vec_at_in_range (streams w) (device + 1)) as [s Hs]; [lia |].
  destruct (fallback_scan_turn numDevices old device w dk s) as
      (w1 & Hd1 & Ha1 & Hf1 & _ & _ & Hs1 & Hturn);
    [lia | now rewrite Hdevs | exact Hs | apply (Hacc (device + 1)); [lia | exact Hdk] |].
  cbv zeta in Hs1, Hturn. rewrite Hturn.
  destruct (Z.eq_dec (device + 1) j) as [Ej | Nj].
  - (* the device tried is the free one *)
    rewrite Ej in *. rewrite (Hfree dk Hdk) in *. cbn [Z.eqb cudaSuccess] in Hs1.
    simp fallback_scan.
    destruct (Z.eq_dec cudaSuccess cudaErrorDevicesUnavailable) as [E | NE];
      [discriminate |].
    cbn. exists (set_activeDev j w1), (Z.of_nat (S (S (cudaCalls w)))).
    split; [reflexivity |]. cbn [activeDev first cuDevices streams set_activeDev].
    repeat split; try congruence. lia.
  - rewrite (Hbusy (device + 1) dk ltac:(lia) Hdk) in *.
    cbn [Z.eqb cudaErrorDevicesUnavailable cudaSuccess] in Hs1.
    destruct (IH (Z.to_nat (j - (device + 1))) ltac:(lia) (device + 1) w1)
      as (w' & handle & Hrun & Ha & Hf & Hd & Hh & Hst);
      try lia; try congruence.
    exists w', handle. repeat split; try congruence.
Qed.

(** When every device from [device] on is unavailable, the scan tries
    each of the later ones, two runtime calls apiece, and throws with the
    runtime left on the last device. *)
Lemma fallback_scan_exhausts (numDevices old lo : Z) (devs : list cudaDevice_t) :
  numDevices <= Z.of_nat (List.length devs) ->
  (forall k dk, lo <= k -> vec_at devs k = Ret dk ->
                always_accepts P (nativeId dk) /\ always_unavailable P (nativeId dk)) ->
  forall (m : nat) (device : Z) (w : World),
    Z.to_nat (numDevices - device) = m ->
    0 <= device < numDevices -> lo <= device ->
    cuDevices w = devs ->
    numDevices <= Z.of_nat (List.length (streams w)) ->
    (forall dc, vec_at devs device = Ret dc -> cudaCurrent w = nativeId dc) ->
    exists w',
      fallback_scan P B numDevices old device cudaErrorDevicesUnavailable w =
        (Throw (cuda_exception cudaErrorDevicesUnavailable), w') /\
      activeDev w' = activeDev w /\ first w' = first w /\
      cuDevices w' = devs /\ streams w' = streams w /\
      cudaCalls w' = (cudaCalls w + 2 * Z.to_nat (numDevices - 1 - device))%nat /\
      (forall dl, vec_at devs (numDevices - 1) = Ret dl -> cudaCurrent w' = nativeId dl).
Proof.
  intros Hn Hall.
  induction m as [m IH] using lt_wf_ind.
  intros device w Hm Hdev Hlo Hdevs Hslots Hcur.
  destruct (Z_ge_dec (device + 1) numDevices) as [Hge | Hlt].
  - simp fallback_scan.
    destruct (Z.eq_dec cudaErrorDevicesUnavailable cudaErrorDevicesUnavailable)
      as [Heq | Hne]; [| contradiction]. cbn.
    destruct (Z_ge_dec (device + 1) numDevices) as [Hge' | Hlt']; [| lia]. cbn.
    destruct (debug_printf_run
                ("Warning: Device " ++ toString device ++
                 " is unavailable. Incrementing to next device " ++ LF) w)
      as (w1 & Hdbg & Hd1 & Ha1 & Hs1 & Hf1 & Hc1 & Hr1).
    rewrite (bind_Ret _ _ _ _ _ Hdbg).
    exists w1. split; [reflexivity |].
    assert (Elast : numDevices - 1 = device) by lia.
    repeat split; try congruence.
    + rewrite Hc1. replace (numDevices - 1 - device) with 0 by lia. cbn. lia.
    + intros dl Hdl. rewrite Elast in Hdl. rewrite Hr1. now apply Hcur.
  - destruct (vec_at_in_range devs (device + 1)) as [dk Hdk]; [lia |].
    destruct (vec_at_in_range (streams w) (device + 1)) as [s Hs]; [lia |].
    destruct (Hall (device + 1) _ ltac:(lia) Hdk) as [Hacc Hbusy].
    destruct (fallback_scan_turn numDevices old device w dk s) as
        (w1 & Hd1 & Ha1 & Hf1 & Hc1 & Hr1 & Hs1 & Hturn);
      [lia | now rewrite Hdevs | exact Hs | exact Hacc |].
    cbv zeta in Hs1, Hturn. rewrite Hturn. rewrite Hbusy in *.
    cbn [Z.eqb cudaErrorDevicesUnavailable cudaSuccess] in Hs1.
    destruct (IH (Z.to_nat (numDevices - (device + 1))) ltac:(lia) (device + 1) w1)
      as (w' & Hrun & Ha & Hf & Hd & Hst & Hcalls & Hlast); try lia; try congruence.
    exists w'. repeat split; try congruence; [| exact Hlast].
    rewrite Hcalls, Hc1. lia.
Qed.
(** X6.  While the first-time marker is set, a switch to a device that is
    unavailable moves on: when the devices from [d] up to [j] are
    unavailable and [j] is free, the call returns the previously active
    index, leaves [j] active with a new queue in slot [j], writes no other
    slot, and clears the marker. *)
Theorem setActiveDevice_scans_to_next_free
        (w : World) (d nId j : Z) (dd : cudaDevice_t) :
  first w = true ->
  0 <= d < j ->
  j < cuDevices_size w ->
  j < Z.of_nat (List.length (streams w)) ->
  vec_at (cuDevices w) d = Ret dd ->
  resolve_native w d nId = Ret (nativeId dd) ->
  vec_at (streams w) d = Ret 0 ->
  (forall k dk, d <= k <= j -> vec_at (cuDevices w) k = Ret dk ->
                always_accepts P (nativeId dk)) ->
  (forall k dk, d <= k < j -> vec_at (cuDevices w) k = Ret dk ->
                always_unavailable P (nativeId dk)) ->
  (forall dj, vec_at (cuDevices w) j = Ret dj -> always_creates P (nativeId dj)) ->
  exists w' handle,
    setActiveDevice P B d nId w = (Ret (getActiveDeviceId w), w') /\
    getActiveDeviceId w' = j /\
    first w' = false /\
    handle <> 0 /\
    streams w' = vec_set (streams w) (Z.to_nat j) handle.
Proof.
  intros Hfirst Hd Hj Hslots Hdd Hnat Hslot Hacc Hbusy Hfree.
  unfold cuDevices_size in Hj.
  rewrite (setActiveDevice_enters_scan w d nId (nativeId dd)
             cudaErrorDevicesUnavailable);
    [| unfold cuDevices_size; lia | exact Hfirst | exact Hnat
     | apply (Hacc d dd); [lia | exact Hdd] | exact Hslot
     | apply (Hbusy d dd); [lia | exact Hdd] | discriminate].
  destruct (fallback_scan_reaches (cuDevices_size w) (activeDev w) d j (cuDevices w)
              Hj Hacc Hbusy Hfree (Z.to_nat (j - d)) d
              (set_first false
                 (set_activeDev d (tick (tick (set_cudaCurrent (nativeId dd) w))))))
    as (w' & handle & Hrun & Ha & Hf & _ & Hh & Hst);
    try reflexivity; try lia; try assumption.
  exists w', handle. unfold getActiveDeviceId. repeat split; assumption.
Qed.

(** X7.  While the first-time marker is set, when the requested device
    and every device after it are unavailable, the switch tries them all
    and then throws "devices unavailable": two runtime calls, a switch and
    a stream creation, have been made for each device from [d] to the
    last, the runtime is left on the last device, the requested device is
    left active, no queue has been created, and the marker is cleared. *)
Theorem setActiveDevice_all_unavailable (w : World) (d nId : Z) (dd : cudaDevice_t) :
  first w = true ->
  0 <= d ->
  cuDevices_size w <= Z.of_nat (List.length (streams w)) ->
  vec_at (cuDevices w) d = Ret dd ->
  resolve_native w d nId = Ret (nativeId dd) ->
  vec_at (streams w) d = Ret 0 ->
  (forall k dk, d <= k -> vec_at (cuDevices w) k = Ret dk ->
                always_accepts P (nativeId dk) /\ always_unavailable P (nativeId dk)) ->
  exists w' last,
    setActiveDevice P B d nId w =
      (Throw (cuda_exception cudaErrorDevicesUnavailable), w') /\
    getActiveDeviceId w' = d /\
    first w' = false /\
    streams w' = streams w /\
    cudaCalls w' = (cudaCalls w + 2 * Z.to_nat (cuDevices_size w - d))%nat /\
    vec_at (cuDevices w) (cuDevices_size w - 1) = Ret last /\
    cudaCurrent w' = nativeId last.
Proof.
  intros Hfirst Hd Hslots Hdd Hnat Hslot Hall.
  pose proof (vec_at_Ret_range _ _ _ Hdd) as Hrange.
  destruct (Hall d dd ltac:(lia) Hdd) as [Hacc Hbusy].
  destruct (vec_at_in_range (cuDevices w) (cuDevices_size w - 1)) as [last Hlast];
    [unfold cuDevices_size; lia |].
  rewrite (setActiveDevice_enters_scan w d nId (nativeId dd)
             cudaErrorDevicesUnavailable);
    [| unfold cuDevices_size; lia | exact Hfirst | exact Hnat
     | apply Hacc | exact Hslot | apply Hbusy | discriminate].
  destruct (fallback_scan_exhausts (cuDevices_size w) (activeDev w) d (cuDevices w)
              ltac:(unfold cuDevices_size; lia) Hall
              (Z.to_nat (cuDevices_size w - d)) d
              (set_first false
                 (set_activeDev d (tick (tick (set_cudaCurrent (nativeId dd) w))))))
    as (w' & Hrun & Ha & Hf & _ & Hst & Hcalls & Hcur);
    try reflexivity; try (unfold cuDevices_size; lia); try assumption.
  { intros dc Hdc. cbn. congruence. }
  exists w', last. unfold getActiveDeviceId.
  repeat split; try assumption.
  - rewrite Hcalls. cbn [cudaCalls set_first set_activeDev tick set_cudaCurrent].
    unfold cuDevices_size in *. lia.
  - now apply Hcur.
Qed.
End SwitchProperties.

(* ===================================================================== *)
(** ** Further facts about the registry *)
(* ===================================================================== *)

Lemma vec_at_nth_error {A} (v : list A) (i : Z) (x : A) :
  vec_at v i = Ret x <-> 0 <= i /\ nth_error v (Z.to_nat i) = Some x.
Proof.
  unfold vec_at. destruct (Z.ltb_spec i 0).
  - split; [discriminate | lia].
  - destruct (nth_error v (Z.to_nat i)); split; intros H0; try discriminate.
    + injection H0 as ->. auto.
    + destruct H0 as [_ [= ->]]. reflexivity.
    + destruct H0 as [_ H0]. discriminate.
Qed.

Lemma vec_at_In {A} (v : list A) (i : Z) (x : A) : vec_at v i = Ret x -> In x v.
Proof.
  intros H. apply vec_at_nth_error in H as [_ H]. eapply nth_error_In; eauto.
Qed.

Lemma In_vec_at {A} (v : list A) (x : A) :
  In x v -> exists i, 0 <= i < Z.of_nat (List.length v) /\ vec_at v i = Ret x.
Proof.
  intros H. apply In_nth_error in H as [k Hk].
  assert (Hlt : (k < List.length v)%nat) by (apply nth_error_Some; congruence).
  exists (Z.of_nat k). split; [lia |].
  apply vec_at_nth_error. rewrite Nat2Z.id. split; [lia | exact Hk].
Qed.

(** The scan of [getDeviceIdFromNativeId] stops at the first slot that
    holds the native id, or at the device count. *)
Lemma native_scan_first (w : World) (nId : Z) :
  nDevices w = cuDevices_size w ->
  forall (k : nat) (devId : Z),
    Z.to_nat (nDevices w - devId) = k -> 0 <= devId <= nDevices w ->
    exists j, native_scan w nId devId = Ret j /\
              devId <= j <= nDevices w /\
              (forall i di, devId <= i < j -> vec_at (cuDevices w) i = Ret di ->
                            nativeId di <> nId) /\
              (j < nDevices w ->
               exists dj, vec_at (cuDevices w) j = Ret dj /\ nativeId dj = nId).
Proof.
  intros Hn. induction k as [k IH] using lt_wf_ind. intros devId Hk Hdev.
  simp native_scan.
  destruct (Z_lt_dec devId (nDevices w)) as [Hlt | Hge]; cbn.
  - destruct (vec_at_in_range (cuDevices w) devId) as [x Hx].
    { unfold cuDevices_size in Hn. lia. }
    rewrite Hx. cbn.
    destruct (Z.eqb_spec nId (nativeId x)) as [Heq | Hne].
    + exists devId. repeat split; try lia. eauto.
    + destruct (IH (Z.to_nat (nDevices w - (devId + 1))) ltac:(lia) (devId + 1))
        as (j & Hs & Hj & Hbefore & Hat); [reflexivity | lia |].
      exists j. repeat split; try lia; trivial.
      intros i di Hi Hdi. destruct (Z.eq_dec i devId) as [-> | Hid].
      * rewrite Hx in Hdi. injection Hdi as <-. congruence.
      * apply (Hbefore i di); [lia | exact Hdi].
  - exists devId. repeat split; try lia.
Qed.

(** X8.  [getDeviceIdFromNativeId] returns the first logical index whose
    descriptor holds the native id; when no descriptor holds it, it
    returns the device count, which is not a valid index. *)
Theorem getDeviceIdFromNativeId_first_match (w : World) (nId : Z) :
  getDeviceCount w = cuDevices_size w ->
  exists j,
    getDeviceIdFromNativeId w nId = Ret j /\
    0 <= j <= getDeviceCount w /\
    (forall i, 0 <= i < j -> getDeviceNativeId w i <> Ret nId) /\
    (j < getDeviceCount w -> getDeviceNativeId w j = Ret nId) /\
    (j = getDeviceCount w <-> ~ In nId (map nativeId (cuDevices w))).
Proof.
  unfold getDeviceCount. intros Hn.
  assert (H0 : 0 <= nDevices w) by (rewrite Hn; unfold cuDevices_size; lia).
  destruct (native_scan_first w nId Hn (Z.to_nat (nDevices w)) 0)
    as (j & Hs & Hj & Hbefore & Hat); [f_equal; lia | lia |].
  exists j. split; [exact Hs |]. split; [exact Hj |].
  split; [| split; [| split]].
  - intros i Hi Hget.
    destruct (vec_at_in_range (cuDevices w) i) as [di Hdi].
    { unfold cuDevices_size in Hn. lia. }
    rewrite (getDeviceNativeId_valid w i di Hdi) in Hget. injection Hget as Hget.
    exact (Hbefore i di Hi Hdi Hget).
  - intros Hlt. destruct (Hat Hlt) as (dj & Hdj & <-).
    now apply getDeviceNativeId_valid.
  - intros -> Hin. apply in_map_iff in Hin as (x & Hx & Hin).
    apply In_vec_at in Hin as (i & Hi & Hvi).
    apply (Hbefore i x); [unfold cuDevices_size in Hn; lia | exact Hvi | exact Hx].
  - intros Hnot. destruct (Z.eq_dec j (nDevices w)) as [E | NE]; [exact E |].
    exfalso. destruct (Hat ltac:(lia)) as (dj & Hdj & <-).
    apply Hnot, in_map, (vec_at_In _ _ _ Hdj).
Qed.

(** Two slots of a vector without repeated native ids that hold the same
    native id are the same slot. *)
Lemma nativeId_slot_unique (devs : list cudaDevice_t) (i j : Z) (di dj : cudaDevice_t) :
  NoDup (map nativeId devs) ->
  vec_at devs i = Ret di -> vec_at devs j = Ret dj ->
  nativeId di = nativeId dj -> i = j.
Proof.
  intros Hnd Hi Hj Heq.
  apply vec_at_nth_error in Hi as [Hi0 Hi]. apply vec_at_nth_error in Hj as [Hj0 Hj].
  assert (E : Z.to_nat i = Z.to_nat j).
  { rewrite NoDup_nth_error in Hnd. apply Hnd.
    - apply nth_error_Some. rewrite nth_error_map, Hi. discriminate.
    - rewrite !nth_error_map, Hi, Hj. cbn. now rewrite Heq. }
  lia.
Qed.

Lemma getDeviceIdFromNativeId_of_slot (w : World) (i : Z) (di : cudaDevice_t) :
  nDevices w = cuDevices_size w ->
  NoDup (map nativeId (cuDevices w)) ->
  vec_at (cuDevices w) i = Ret di ->
  getDeviceIdFromNativeId w (nativeId di) = Ret i.
Proof.
  intros Hn Hnd Hdi.
  pose proof (vec_at_Ret_range _ _ _ Hdi) as Hi.
  pose proof Hn as Hsize. unfold cuDevices_size in Hsize.
  destruct (native_scan_first w (nativeId di) Hn (Z.to_nat (nDevices w)) 0)
    as (j & Hs & Hj & Hbefore & Hat); [f_equal; lia | lia |].
  unfold getDeviceIdFromNativeId. rewrite Hs. f_equal.
  assert (Hji : j <= i).
  { destruct (Z_le_gt_dec j i) as [Hle | Hgt]; [exact Hle |].
    exfalso. apply (Hbefore i di); [lia | exact Hdi | reflexivity]. }
  destruct (Hat ltac:(lia)) as (dj & Hdj & Heq).
  exact (nativeId_slot_unique _ _ _ _ _ Hnd Hdj Hdi Heq).
Qed.

(** X9.  In a registry whose native ids are pairwise different, looking
    up the native id of a valid logical index gives that index back. *)
Theorem logical_index_round_trip (w : World) (i : Z) :
  getDeviceCount w = cuDevices_size w ->
  NoDup (map nativeId (cuDevices w)) ->
  0 <= i < getDeviceCount w ->
  exists n, getDeviceNativeId w i = Ret n /\ getDeviceIdFromNativeId w n = Ret i.
Proof.
  unfold getDeviceCount. intros Hn Hnd Hi.
  destruct (vec_at_in_range (cuDevices w) i) as [di Hdi].
  { unfold cuDevices_size in Hn. lia. }
  exists (nativeId di). split; [now apply getDeviceNativeId_valid |].
  now apply getDeviceIdFromNativeId_of_slot.
Qed.

(* ===================================================================== *)
(** ** Further facts about construction *)
(* ===================================================================== *)

Section ConstructionProperties.
Variable P : Platform.
Variable B : Build.

Lemma enumerate_devices_natives (n : Z) :
  map nativeId (enumerate_devices P n) = upto n.
Proof.
  unfold enumerate_devices. rewrite map_map. cbn. apply map_id.
Qed.

Lemma upto_NoDup (n : Z) : NoDup (upto n).
Proof.
  unfold upto. generalize (seq_NoDup (Z.to_nat n) 0).
  induction (seq 0 (Z.to_nat n)) as [| x l IH]; intros Hnd; cbn; [constructor |].
  inversion Hnd as [| ? ? Hx Hl]; subst. constructor; [| now apply IH].
  rewrite in_map_iff. intros (y & Hy & Hin). apply Nat2Z.inj in Hy. congruence.
Qed.

Lemma vec_at_repeat (x : Z) (n i : Z) :
  0 <= i < n -> vec_at (repeat x (Z.to_nat n)) i = Ret x.
Proof.
  intros Hi. apply vec_at_nth_error. split; [lia |].
  apply nth_error_repeat. lia.
Qed.

(** X10.  When construction completes, the runtime has reported a
    positive device count, which is the length of the descriptor vector;
    the descriptors are the enumerated devices in ranked order, so the
    native ids are 0 .. count-1, each once; and the active index is a
    valid one whose queue exists. *)
Theorem construction_postcondition (w : World) :
  getInstance P B = (Ret tt, w) ->
  let n := snd (cudaGetDeviceCount P) in
  fst (cudaGetDeviceCount P) = cudaSuccess /\
  0 < n /\
  getDeviceCount w = n /\
  cuDevices_size w = n /\
  cuDevices w = sortDevices_list (sortDevices_default B) (enumerate_devices P n) /\
  Permutation (map nativeId (cuDevices w)) (upto n) /\
  NoDup (map nativeId (cuDevices w)) /\
  0 <= getActiveDeviceId w < n /\
  exists h, vec_at (streams w) (getActiveDeviceId w) = Ret h /\ h <> 0.
Proof.
  unfold getInstance, DeviceManager_ctor, getDeviceCount, getActiveDeviceId.
  destruct (cudaGetDeviceCount P) as [e n]. cbn [fst snd]. intros Hrun.
  rewrite bind_modify in Hrun.
  apply bind_Ret_inv in Hrun as (u & w1 & Hchk & Hrun).
  apply CUDA_CHECK_Ret_inv in Hchk as [-> ->].
  destruct (Z.eqb_spec n 0) as [| Hn0]; [discriminate |].
  rewrite bind_modify in Hrun. unfold sortDevices in Hrun.
  rewrite !bind_modify in Hrun.
  set (ranked := sortDevices_list (sortDevices_default B) (enumerate_devices P n)) in *.
  assert (Hperm : Permutation (enumerate_devices P n) ranked).
  { apply (stable_sort_perm (comparator (sortDevices_default B))). }
  assert (Hlen : List.length ranked = Z.to_nat n).
  { rewrite <- (Permutation_length Hperm). apply enumerate_devices_length. }
  assert (Hnat : Permutation (map nativeId ranked) (upto n)).
  { rewrite <- enumerate_devices_natives. symmetry. now apply Permutation_map. }
  assert (Hlast : forall (w0 : World) (idx : Z),
            cuDevices w0 = ranked -> nDevices w0 = n ->
            (d <- read (fun w1 => vec_at (cuDevices w1) idx) ;;
             setActiveDevice P B idx (nativeId d) ;; ret tt)%M w0 = (Ret tt, w) ->
            0 < n /\ nDevices w = n /\ cuDevices_size w = n /\ cuDevices w = ranked /\
            0 <= activeDev w < n /\
            exists h, vec_at (streams w) (activeDev w) = Ret h /\ h <> 0).
  { intros w0 idx Hdevs Hcount H.
    apply bind_Ret_inv in H as (d & w1 & Hd & H).
    unfold read in Hd. injection Hd as Hd <-.
    apply bind_Ret_inv in H as (r & w2 & Hsw & H). injection H as <-.
    apply vec_at_Ret_range in Hd. rewrite Hdevs, Hlen in Hd.
    pose proof (preserves_setActiveDevice P B _ _ _ _ _ Hsw) as (Hd' & Hn' & _).
    assert (Hsize : cuDevices_size w0 = n).
    { unfold cuDevices_size. rewrite Hdevs, Hlen. lia. }
    destruct (setActiveDevice_Ret_facts P B w0 w2 idx (nativeId d) r)
      as (_ & [[Hlo _] Hhi] & Hq); [lia | exact Hsw |].
    unfold cuDevices_size in *. rewrite Hd'.
    repeat split; try lia; try congruence; try exact Hq. }
  assert (Hall : 0 < n /\ nDevices w = n /\ cuDevices_size w = n /\
                 cuDevices w = ranked /\ 0 <= activeDev w < n /\
                 exists h, vec_at (streams w) (activeDev w) = Ret h /\ h <> 0).
  { destruct (String.eqb (getEnvVar P "AF_CUDA_DEFAULT_DEVICE") "").
    - eapply Hlast, Hrun; reflexivity.
    - rewrite bind_gets in Hrun.
      destruct (_ || _).
      + rewrite !bind_modify in Hrun. eapply Hlast, Hrun; reflexivity.
      + eapply Hlast, Hrun; reflexivity. }
  destruct Hall as (H1 & H2 & H3 & H4 & H5 & H6).
  repeat split; try assumption; try lia; rewrite H4; try exact Hnat.
  eapply Permutation_NoDup; [symmetry; exact Hnat | apply upto_NoDup].
Qed.

(** X11.  The state [registry_ok] (the active index is not above the
    device count and, while the first-time marker is set, the active
    device has its queue) holds when construction completes, and a
    switch or a [getStream] from such a state ends in such a state,
    whether it returns or throws. *)
Theorem registry_ok_invariant :
  (forall w, getInstance P B = (Ret tt, w) -> registry_ok w) /\
  (forall w w' d nId o,
      registry_ok w -> setActiveDevice P B d nId w = (o, w') -> registry_ok w') /\
  (forall w w' d o,
      registry_ok w -> getStream P B d w = (o, w') -> registry_ok w').
Proof.
  split; [| split].
  - apply getInstance_ok.
  - intros w w' d nId o. apply setActiveDevice_keeps_ok.
  - intros w w' d o. apply getStream_keeps_ok.
Qed.

(** X12.  Without override, or with an override that names a valid
    index, construction prints nothing and switches to logical device 0,
    respectively to the index named; when the runtime accepts that device
    and creates its queue, construction completes with that index active
    and the first-time marker still set. *)
Theorem ctor_selects_default_device (n target : Z) (dd : cudaDevice_t) :
  let deviceENV := getEnvVar P "AF_CUDA_DEFAULT_DEVICE" in
  let def_device := istream_extract_int P deviceENV (-1) in
  let ranked := sortDevices_list (sortDevices_default B) (enumerate_devices P n) in
  cudaGetDeviceCount P = (cudaSuccess, n) ->
  (deviceENV = "" /\ target = 0) \/
  (deviceENV <> "" /\ 0 <= def_device < n /\ target = def_device) ->
  vec_at ranked target = Ret dd ->
  target < MAX_DEVICES B ->
  cudaSetDevice P 0 (nativeId dd) = cudaSuccess ->
  cudaStreamCreate P 1 (nativeId dd) = cudaSuccess ->
  exists w,
    getInstance P B = (Ret tt, w) /\
    getActiveDeviceId w = target /\
    console w = [] /\
    first w = true /\
    cuDevices w = ranked /\
    cudaCurrent w = nativeId dd /\
    vec_at (streams w) target = Ret 2.
Proof.
  intros deviceENV def_device ranked Hcount Hcase Hdd Hmax Hset Hcreate.
  pose proof (vec_at_Ret_range _ _ _ Hdd) as Hrange.
  assert (Hlen : List.length ranked = Z.to_nat n).
  { unfold ranked, sortDevices_list.
    rewrite <- (Permutation_length (stable_sort_perm _ _)).
    apply enumerate_devices_length. }
  assert (Hin : In dd (enumerate_devices P n)).
  { eapply Permutation_in.
    - symmetry. apply (stable_sort_perm (comparator (sortDevices_default B))).
    - apply (vec_at_In _ _ _ Hdd). }
  pose proof (enumerate_devices_nativeId P n dd Hin) as Hnid.
  unfold getInstance, DeviceManager_ctor. rewrite Hcount.
  rewrite bind_modify. unfold bind at 1. cbn [CUDA_CHECK cudaSuccess Z.eqb ret].
  destruct (Z.eqb_spec n 0) as [Hz | _]; [lia |].
  rewrite bind_modify. unfold sortDevices. rewrite !bind_modify.
  fold deviceENV. fold def_device.
  cbn [nDevices set_streams set_cuDevices set_nDevices cuDevices initial_world].
  fold ranked.
  assert (Hlast : forall w0,
            cuDevices w0 = ranked -> activeDev w0 = 0 -> cudaCalls w0 = O ->
            streams w0 = repeat 0 (Z.to_nat (MAX_DEVICES B)) ->
            first w0 = true -> console w0 = [] ->
            exists w,
              (d <- read (fun w1 => vec_at (cuDevices w1) target) ;;
               setActiveDevice P B target (nativeId d) ;; ret tt)%M w0 = (Ret tt, w) /\
              getActiveDeviceId w = target /\ console w = [] /\ first w = true /\
              cuDevices w = ranked /\ cudaCurrent w = nativeId dd /\
              vec_at (streams w) target = Ret 2).
  { intros w0 Hd0 Ha0 Hc0 Hs0 Hf0 Hp0.
    assert (Hslot : vec_at (streams w0) target = Ret 0).
    { rewrite Hs0. apply vec_at_repeat. lia. }
    rewrite (bind_read _ _ w0 dd) by (now rewrite Hd0).
    pose proof (setActiveDevice_creates_queue P B w0 target (nativeId dd) (nativeId dd))
      as Hswitch.
    eexists. split.
    - eapply eq_trans; [apply bind_Ret, Hswitch | reflexivity].
      + unfold cuDevices_size. rewrite Hd0. lia.
      + unfold resolve_native.
        destruct (Z.eqb_spec (nativeId dd) (-1)); [lia | reflexivity].
      + now rewrite Hc0.
      + exact Hslot.
      + now rewrite Hc0.
    - cbn [getActiveDeviceId activeDev console first cuDevices cudaCurrent streams
           set_activeDev tick set_streams set_cudaCurrent].
      repeat split; try assumption.
      rewrite Hc0.
      rewrite (vec_at_vec_set _ target target _ 0 0 Hslot Hslot), Z.eqb_refl.
      reflexivity. }
  destruct Hcase as [[Hempty ->] | (Hne & Hin_range & ->)].
  - rewrite Hempty. cbn [String.eqb]. apply Hlast; reflexivity.
  - destruct (String.eqb_spec deviceENV "") as [E | _]; [contradiction |].
    rewrite bind_gets.
    cbn [nDevices set_streams set_cuDevices set_nDevices cuDevices initial_world].
    assert (Hor : (def_device <? 0) || (def_device >=? n) = false).
    { apply orb_false_iff. split; lia. }
    rewrite Hor. apply Hlast; reflexivity.
Qed.
End ConstructionProperties.

(* ===================================================================== *)
(** ** Further facts about ranking *)
(* ===================================================================== *)

Section SortedUnique.
Context {A : Type} (comp : A -> A -> bool).

(** Two sorted arrangements of the same elements are the same list, when
    elements that [comp] leaves tied are equal. *)
Lemma sorted_perm_unique (l1 l2 : list A) :
  (forall a b, In a l1 -> In b l1 ->
               comp a b = false -> comp b a = false -> a = b) ->
  StronglySorted (not_after comp) l1 ->
  StronglySorted (not_after comp) l2 ->
  Permutation l1 l2 -> l1 = l2.
Proof.
  revert l2. induction l1 as [| x t1 IH]; intros l2 Htot H1 H2 Hperm.
  - apply Permutation_nil in Hperm. now subst.
  - destruct l2 as [| y t2].
    { apply Permutation_sym, Permutation_nil in Hperm. discriminate. }
    inversion H1 as [| ? ? Hs1 Hall1]; subst.
    inversion H2 as [| ? ? Hs2 Hall2]; subst.
    rewrite Forall_forall in Hall1, Hall2.
    assert (Hxy : x = y).
    { assert (Hy : In y (x :: t1)).
      { eapply Permutation_in; [symmetry; exact Hperm | now left]. }
      assert (Hx : In x (y :: t2)).
      { eapply Permutation_in; [exact Hperm | now left]. }
      destruct Hy as [-> | Hy]; [reflexivity |].
      destruct Hx as [<- | Hx]; [reflexivity |].
      apply Htot; [now left | now right | apply (Hall2 x Hx) | apply (Hall1 y Hy)]. }
    subst y. f_equal. apply IH; trivial.
    + intros a b Ha Hb. apply Htot; now right.
    + eapply Permutation_cons_inv; eauto.
Qed.

(** An element that [comp] puts behind the whole list is inserted at its
    end. *)
Lemma stable_insert_last (x : A) (l : list A) :
  (forall y, In y l -> comp y x = true) -> stable_insert comp x l = l ++ [x].
Proof.
  induction l as [| y l IH]; intros Hall; cbn; [reflexivity |].
  rewrite (Hall y (or_introl eq_refl)). f_equal. apply IH.
  intros z Hz. apply Hall. now right.
Qed.
End SortedUnique.

Lemma nativeId_In_unique (devs : list cudaDevice_t) (a b : cudaDevice_t) :
  NoDup (map nativeId devs) -> In a devs -> In b devs ->
  nativeId a = nativeId b -> a = b.
Proof.
  intros Hnd Ha Hb Heq.
  apply In_vec_at in Ha as (i & _ & Hi). apply In_vec_at in Hb as (j & _ & Hj).
  pose proof (nativeId_slot_unique devs i j a b Hnd Hi Hj Heq) as ->.
  congruence.
Qed.

(** X13.  The ranking depends on the devices only, not on the order in
    which they were enumerated: two arrangements of devices with pairwise
    different native ids are ranked alike under every policy. *)
Theorem sortDevices_order_independent
        (mode : sort_mode.t) (devs1 devs2 : list cudaDevice_t) :
  NoDup (map nativeId devs1) ->
  Permutation devs1 devs2 ->
  sortDevices_list mode devs1 = sortDevices_list mode devs2.
Proof.
  intros Hnd Hperm. unfold sortDevices_list.
  pose proof (comparator_asym mode) as Hasym.
  pose proof (comparator_negtrans mode) as Hneg.
  pose proof (stable_sort_perm (comparator mode) devs1) as Hp1.
  pose proof (stable_sort_perm (comparator mode) devs2) as Hp2.
  apply (sorted_perm_unique (comparator mode)).
  - intros a b Ha Hb Hab Hba.
    apply (nativeId_In_unique devs1); trivial.
    + eapply Permutation_in; [symmetry; exact Hp1 | exact Ha].
    + eapply Permutation_in; [symmetry; exact Hp1 | exact Hb].
    + rewrite comparator_chain in Hab, Hba.
      rewrite <- (sort_key_last mode a), <- (sort_key_last mode b).
      f_equal. apply compare_chain_tied_eq; trivial. apply sort_key_length.
  - now apply stable_sort_sorted.
  - now apply stable_sort_sorted.
  - rewrite <- Hp1, <- Hp2. exact Hperm.
Qed.

Lemma card_compare_num_gt (l r : cudaDevice_t) :
  nativeId r < nativeId l -> card_compare_num l r = true.
Proof. intros H. unfold card_compare_num. compare_cases. Qed.

(** Under the policy [none] a list in increasing native order is turned
    round. *)
Lemma sort_none_reverses (devs : list cudaDevice_t) :
  StronglySorted (fun a b => nativeId a < nativeId b) devs ->
  sortDevices_list sort_mode.none devs = rev devs.
Proof.
  unfold sortDevices_list. cbn [comparator].
  induction devs as [| x l IH]; intros Hs; [reflexivity |].
  inversion Hs as [| ? ? Hs' Hall]; subst.
  cbn [stable_sort rev]. rewrite (IH Hs').
  apply stable_insert_last. intros y Hy. apply in_rev in Hy.
  rewrite Forall_forall in Hall. apply card_compare_num_gt. now apply Hall.
Qed.

Lemma enumerate_devices_increasing (P : Platform) (n : Z) :
  StronglySorted (fun a b => nativeId a < nativeId b) (enumerate_devices P n).
Proof.
  unfold enumerate_devices, upto. generalize (Z.to_nat n) as k. generalize O as a.
  intros a k. revert a. induction k as [| k IH]; intros a; cbn; constructor.
  - apply IH.
  - rewrite Forall_forall. intros d Hd.
    rewrite map_map in Hd. apply in_map_iff in Hd as (i & <- & Hi).
    apply in_seq in Hi. cbn. lia.
Qed.

(** X14.  The policy [none] compares native ids with the same "greater
    first" rule as the other policies: applied to the devices as
    enumerated (native ids 0, 1, 2, ...) it yields them in the opposite
    order, highest native id first. *)
Theorem sortDevices_none_reverses_enumeration (P : Platform) (n : Z) :
  sortDevices_list sort_mode.none (enumerate_devices P n) =
  rev (enumerate_devices P n) /\
  map nativeId (sortDevices_list sort_mode.none (enumerate_devices P n)) =
  rev (map Z.of_nat (seq 0 (Z.to_nat n))).
Proof.
  pose proof (sort_none_reverses _ (enumerate_devices_increasing P n)) as H.
  split; [exact H |].
  rewrite H, map_rev. f_equal.
  unfold enumerate_devices, upto. rewrite map_map. cbn. apply map_id.
Qed.

(* ===================================================================== *)
(** ** The name that devprop leaves *)
(* ===================================================================== *)

Lemma c_str_no_NUL (l : list ascii) : ~ In NUL (c_str l).
Proof.
  induction l as [| c l IH]; cbn [c_str In]; [tauto |].
  destruct (Ascii.eqb_spec c NUL) as [-> | Hc]; cbn [In]; [tauto |].
  intros [H | H]; [congruence | contradiction].
Qed.

Lemma c_str_clean (l rest : list ascii) :
  ~ In NUL l -> c_str (l ++ NUL :: rest) = l.
Proof.
  induction l as [| c l IH]; intros Hn; cbn [app c_str].
  - now rewrite Ascii.eqb_refl.
  - destruct (Ascii.eqb_spec c NUL) as [-> | Hc].
    + exfalso. apply Hn. now left.
    + f_equal. apply IH. intros H. apply Hn. now right.
Qed.

Lemma vec_set_app {A} (pre rest : list A) (c x : A) :
  vec_set (pre ++ c :: rest) (List.length pre) x = pre ++ x :: rest.
Proof. induction pre as [| y pre IH]; cbn; [reflexivity | now rewrite IH]. Qed.

Lemma nth_app_here {A} (pre l : list A) (d : A) :
  nth (List.length pre) (pre ++ l) d = hd d l.
Proof. induction pre; cbn; [now destruct l | assumption]. Qed.

Lemma nth_app_next {A} (pre rest : list A) (c d : A) :
  nth (S (List.length pre)) (pre ++ c :: rest) d = hd d rest.
Proof. induction pre; cbn; [now destruct rest | assumption]. Qed.

(** Turns at indices behind the end of the characters change nothing. *)
Lemma fold_sanitize_at_beyond (k : nat) :
  forall (a : nat) (buf : list ascii),
    (List.length buf <= a)%nat -> fold_left sanitize_at (seq a k) buf = buf.
Proof.
  induction k as [| k IH]; intros a buf Hlen; [reflexivity |].
  cbn [seq fold_left]. unfold sanitize_at at 2.
  rewrite (nth_overflow buf NUL Hlen).
  change (Ascii.eqb NUL SPACE) with false. cbv iota.
  apply IH. lia.
Qed.

(** The loop writes slot [i] from what it reads in slots [i] and [i+1],
    which no earlier turn has written: it computes [sanitize_prefix]. *)
Lemma fold_sanitize_at (k : nat) :
  forall (pre l : list ascii),
    fold_left sanitize_at (seq (List.length pre) k) (pre ++ l) =
    pre ++ sanitize_prefix k l.
Proof.
  induction k as [| k IH]; intros pre l; [reflexivity |].
  destruct l as [| c rest].
  - rewrite fold_sanitize_at_beyond; [reflexivity | rewrite app_nil_r; lia].
  - cbn [seq fold_left].
    unfold sanitize_at at 2. rewrite nth_app_here, nth_app_next. cbn [hd].
    set (x := if Ascii.eqb c SPACE
              then if Ascii.eqb (hd NUL rest) NUL || Ascii.eqb (hd NUL rest) SPACE
                   then NUL else UNDERSCORE
              else c).
    assert (Hstep : (if Ascii.eqb c SPACE
                     then if Ascii.eqb (hd NUL rest) NUL || Ascii.eqb (hd NUL rest) SPACE
                          then vec_set (pre ++ c :: rest) (List.length pre) NUL
                          else vec_set (pre ++ c :: rest) (List.length pre) UNDERSCORE
                     else pre ++ c :: rest) = (pre ++ [x]) ++ rest).
    { subst x. rewrite <- app_assoc. cbn.
      destruct (Ascii.eqb c SPACE); [| reflexivity].
      destruct (_ || _); apply vec_set_app. }
    rewrite Hstep.
    replace (S (List.length pre)) with (List.length (pre ++ [x]))
      by (rewrite length_app; cbn; lia).
    rewrite IH. cbn [sanitize_prefix]. fold x. now rewrite <- app_assoc.
Qed.

Lemma sanitize_name_prefix (buf : list ascii) :
  sanitize_name buf = sanitize_prefix 63 buf.
Proof. exact (fold_sanitize_at 63 [] buf). Qed.

Lemma c_str_sanitize_prefix (text rest : list ascii) :
  ~ In NUL text ->
  forall k, (List.length text <= k)%nat ->
            c_str (sanitize_prefix k (text ++ NUL :: rest)) = underscored text.
Proof.
  induction text as [| c t IH]; intros Hn k Hk.
  - destruct k; reflexivity.
  - destruct k as [| k]; [cbn in Hk; lia |].
    assert (Hc : c <> NUL) by (intros ->; apply Hn; now left).
    assert (Ht : ~ In NUL t) by (intros H; apply Hn; now right).
    cbn [app sanitize_prefix underscored].
    specialize (IH Ht k ltac:(cbn in Hk; lia)).
    destruct (Ascii.eqb_spec c SPACE) as [-> | Hs].
    + destruct t as [| c' t'].
      * reflexivity.
      * cbn [app hd].
        assert (Hc' : c' <> NUL) by (intros ->; apply Ht; now left).
        destruct (Ascii.eqb_spec c' NUL) as [E | _]; [contradiction |].
        destruct (Ascii.eqb_spec c' SPACE) as [-> | Hs']; cbn [orb].
        -- reflexivity.
        -- cbn [c_str]. change (Ascii.eqb UNDERSCORE NUL) with false. cbv iota.
           f_equal. exact IH.
    + cbn [c_str]. destruct (Ascii.eqb_spec c NUL) as [E | _]; [contradiction |].
      f_equal. exact IH.
Qed.

Lemma underscored_no_space (text : list ascii) : ~ In SPACE (underscored text).
Proof.
  induction text as [| c t IH]; cbn [underscored In]; [tauto |].
  destruct (Ascii.eqb_spec c SPACE) as [-> | Hs].
  - destruct t as [| c' t']; [cbn [In]; tauto |].
    destruct (Ascii.eqb c' SPACE); [cbn [In]; tauto |].
    intros [H | H]; [discriminate | contradiction].
  - intros [H | H]; [congruence | contradiction].
Qed.

Lemma underscored_clean (text : list ascii) :
  ~ In SPACE text -> underscored text = text.
Proof.
  induction text as [| c t IH]; intros Hn; cbn [underscored]; [reflexivity |].
  destruct (Ascii.eqb_spec c SPACE) as [-> | Hs].
  - exfalso. apply Hn. now left.
  - f_equal. apply IH. intros H. apply Hn. now right.
Qed.

Lemma firstn_not_In {A} (n : nat) (l : list A) (x : A) :
  ~ In x l -> ~ In x (firstn n l).
Proof.
  intros Hn H. apply Hn. rewrite <- (firstn_skipn n l).
  apply in_or_app. now left.
Qed.

(** The name left in the array after [snprintf] and the loop. *)
Lemma sanitized_name (text buf : list ascii) :
  c_str (sanitize_name (snprintf_s 64 text buf)) =
  underscored (firstn 63 (c_str text)).
Proof.
  rewrite sanitize_name_prefix. unfold snprintf_s. cbn [Nat.sub].
  apply c_str_sanitize_prefix.
  - apply firstn_not_In, c_str_no_NUL.
  - apply firstn_le_length.
Qed.

(** X15.  With at least one device and arrays of the sizes the function
    writes, [devprop] leaves as the name the first 63 characters of the
    device name, cut at the first space that is last or followed by a
    space, with every space in front of that as an underscore: the name
    contains no space, and a device name of at most 63 characters
    without spaces is passed unchanged.  The platform is "CUDA" and the
    registry is not changed. *)
Theorem devprop_name (w : World) (cudaRuntime : string) (b : devprop_buffers)
        (dev : cudaDeviceProp) :
  0 < getDeviceCount w ->
  getDeviceProp w (getActiveDeviceId w) = Ret dev ->
  (64 <= List.length (d_name b))%nat -> (10 <= List.length (d_platform b))%nat ->
  (64 <= List.length (d_toolkit b))%nat -> (10 <= List.length (d_compute b))%nat ->
  exists b',
    devprop cudaRuntime b w = (Ret b', w) /\
    let text := c_str (list_ascii_of_string (name dev)) in
    c_str (d_name b') = underscored (firstn 63 text) /\
    ~ In SPACE (c_str (d_name b')) /\
    ((List.length text <= 63)%nat -> ~ In SPACE text -> c_str (d_name b') = text) /\
    c_str (d_platform b') = list_ascii_of_string "CUDA".
Proof.
  intros Hcount Hdev H1 H2 H3 H4. unfold devprop.
  destruct (Z.leb_spec (getDeviceCount w) 0) as [Hle | _]; [lia |].
  rewrite Hdev.
  destruct (Nat.ltb_spec (List.length (d_name b)) 64); [lia |].
  destruct (Nat.ltb_spec (List.length (d_platform b)) 10); [lia |].
  destruct (Nat.ltb_spec (List.length (d_toolkit b)) 64); [lia |].
  destruct (Nat.ltb_spec (List.length (d_compute b)) 10); [lia |].
  cbn [orb]. eexists. split; [reflexivity |]. cbn [d_name d_platform].
  rewrite sanitized_name. cbv zeta.
  split; [reflexivity |]. split; [apply underscored_no_space |]. split.
  - intros Hlen Hclean. rewrite firstn_all2 by exact Hlen.
    now apply underscored_clean.
  - reflexivity.
Qed.

(* ===================================================================== *)
(** ** sync, the C interface and getMaxJitSize *)
(* ===================================================================== *)

Section InterfaceProperties.
Variable P : Platform.
Variable B : Build.
Variable cudaStreamSynchronize : nat -> Z -> cudaError_t.
Variable E : ErrorBoundary.

Lemma preserves_getActiveStream : preserves registry_extends (getActiveStream P B).
Proof.
  unfold getActiveStream.
  apply preserves_bind; [apply preserves_gets | intros d; apply preserves_getStream].
Qed.

Lemma preserves_do_cudaStreamSynchronize (s : Z) :
  preserves registry_extends (do_cudaStreamSynchronize cudaStreamSynchronize s).
Proof. intros w o w' [= _ <-]. repeat split; cbn; eauto. Qed.

(** X16.  Whenever [sync(device)] returns, the active device is the one
    that was active before the call. *)
Theorem sync_restores_active_device (w w' : World) (device : Z) :
  registry_ok w ->
  sync P B cudaStreamSynchronize device w = (Ret tt, w') ->
  getActiveDeviceId w' = getActiveDeviceId w.
Proof.
  unfold getActiveDeviceId. intros [Hact Hqueue] Hrun. unfold sync in Hrun.
  apply bind_Ret_inv in Hrun as (curr & w0 & [= <- <-] & Hrun).
  apply bind_Ret_inv in Hrun as (r1 & w1 & Hswitch & Hrun).
  apply bind_Ret_inv in Hrun as (s & w2 & Hstream & Hrun).
  apply bind_Ret_inv in Hrun as (e & w3 & Hsync & Hrun).
  apply bind_Ret_inv in Hrun as (u & w4 & Hchk & Hrun).
  apply CUDA_CHECK_Ret_inv in Hchk as [-> ->].
  apply bind_Ret_inv in Hrun as (r2 & w4 & Hback & Hrun).
  injection Hrun as <-.
  pose proof (preserves_setActiveDevice P B _ _ _ _ _ Hswitch) as H01.
  pose proof (preserves_getActiveStream _ _ _ Hstream) as H12.
  pose proof (preserves_do_cudaStreamSynchronize _ _ _ _ Hsync) as H23.
  pose proof (registry_extends_trans _ _ _
                (registry_extends_trans _ _ _ H01 H12) H23) as (Hdevs & _ & Hf & Hq).
  eapply setActiveDevice_Ret_active; [| | exact Hback].
  - unfold cuDevices_size in *. rewrite Hdevs. exact Hact.
  - unfold getActiveDeviceId. destruct (first w) eqn:Hfw.
    + right. destruct (Hqueue eq_refl) as (h & Hh & Hne). eauto.
    + left. auto.
Qed.

(** X17.  A native id that no descriptor holds makes
    [afcu_set_native_id] ask the runtime for device -1: the lookup gives
    the device count, which passes the range test of the switch and
    resolves to the native id -1.  When the runtime refuses, the call
    reports that failure through the error boundary and the registry is
    as it was. *)
Theorem afcu_set_native_id_unknown (w : World) (nativeid : Z) (err : cudaError_t) :
  getDeviceCount w = cuDevices_size w ->
  ~ In nativeid (map nativeId (cuDevices w)) ->
  cudaSetDevice P (cudaCalls w) (-1) = err ->
  err <> cudaSuccess ->
  getDeviceIdFromNativeId w nativeid = Ret (getDeviceCount w) /\
  resolve_native w (getDeviceCount w) (-1) = Ret (-1) /\
  afcu_set_native_id P B E nativeid w =
    (Ret (CATCHALL E (cuda_exception err)), tick w).
Proof.
  unfold getDeviceCount. intros Hn Hnot Herr Hfail.
  assert (H0 : 0 <= nDevices w) by (rewrite Hn; unfold cuDevices_size; lia).
  destruct (native_scan_first w nativeid Hn (Z.to_nat (nDevices w)) 0)
    as (j & Hs & Hj & _ & Hat); [f_equal; lia | lia |].
  assert (Ej : j = nDevices w).
  { destruct (Z.eq_dec j (nDevices w)) as [Ej | NE]; [exact Ej |].
    exfalso. destruct (Hat ltac:(lia)) as (dj & Hdj & <-).
    apply Hnot, in_map, (vec_at_In _ _ _ Hdj). }
  subst j.
  assert (Hres : resolve_native w (nDevices w) (-1) = Ret (-1)).
  { unfold resolve_native, getDeviceNativeId. cbn [Z.eqb].
    rewrite Hn. now rewrite Z.ltb_irrefl. }
  split; [exact Hs |]. split; [exact Hres |].
  unfold afcu_set_native_id, try_catchall.
  unfold getDeviceIdFromNativeId in *.
  rewrite (bind_read _ _ _ _ Hs).
  unfold setDevice, setActiveDevice. rewrite bind_gets.
  destruct (Z.gtb_spec (nDevices w) (cuDevices_size w)) as [Hgt | _]; [lia |].
  rewrite bind_gets, (bind_read _ _ _ _ Hres).
  unfold bind at 1. unfold do_cudaSetDevice. rewrite Herr.
  destruct (Z.eqb_spec err cudaSuccess) as [E0 | _]; [contradiction |].
  unfold bind, CUDA_CHECK, throw.
  destruct (Z.eqb_spec err cudaSuccess) as [E0 | _]; [contradiction |].
  reflexivity.
Qed.

(** X18.  In a registry whose native ids are pairwise different,
    [afcu_set_native_id] with the native id of logical device [i], whose
    queue exists, makes [i] the active device: it switches the runtime to
    that native id, reports success, and changes nothing else. *)
Theorem afcu_set_native_id_known (w : World) (i h : Z) (di : cudaDevice_t) :
  getDeviceCount w = cuDevices_size w ->
  NoDup (map nativeId (cuDevices w)) ->
  vec_at (cuDevices w) i = Ret di ->
  cudaSetDevice P (cudaCalls w) (nativeId di) = cudaSuccess ->
  vec_at (streams w) i = Ret h -> h <> 0 ->
  afcu_set_native_id P B E (nativeId di) w =
    (Ret (AF_SUCCESS E),
     set_activeDev i (tick (set_cudaCurrent (nativeId di) w))).
Proof.
  unfold getDeviceCount. intros Hn Hnd Hdi Hset Hslot Hh.
  pose proof (vec_at_Ret_range _ _ _ Hdi) as Hi.
  unfold afcu_set_native_id, try_catchall.
  rewrite (bind_read _ _ _ i)
    by (now apply getDeviceIdFromNativeId_of_slot).
  unfold setDevice.
  rewrite (setActiveDevice_existing_queue P B w i (-1) (nativeId di) h);
    trivial.
  - unfold cuDevices_size. lia.
  - unfold resolve_native. cbn [Z.eqb]. now apply getDeviceNativeId_valid.
Qed.
End InterfaceProperties.

Lemma getMaxJitSize_cached (stoi : string -> outcome Z) (env_var : string) (length : Z) :
  length <> 0 ->
  getMaxJitSize stoi env_var length = (Ret (unsigned_wrap length), length).
Proof.
  intros Hne. unfold getMaxJitSize.
  destruct (Z.eqb_spec length 0); [contradiction | reflexivity].
Qed.

(** X19.  Once a call of [getMaxJitSize] has stored a non-zero length,
    every later call returns the same value whatever the environment
    holds then, and never converts text again. *)
Theorem getMaxJitSize_memoized (stoi : string -> outcome Z) (env_var : string)
        (length length' v : Z) (later : list string) :
  getMaxJitSize stoi env_var length = (Ret v, length') ->
  length' <> 0 ->
  v = unsigned_wrap length' /\
  Forall (fun r => r = Ret v) (getMaxJitSize_calls stoi later length') /\
  List.length (getMaxJitSize_calls stoi later length') = List.length later.
Proof.
  intros Hfirst Hne.
  assert (Hv : v = unsigned_wrap length').
  { unfold getMaxJitSize in Hfirst.
    destruct (length =? 0).
    - destruct (negb (String.eqb env_var "")).
      + destruct (stoi env_var); try discriminate. now injection Hfirst as <- <-.
      + now injection Hfirst as <- <-.
    - now injection Hfirst as <- <-. }
  split; [exact Hv |]. subst v.
  induction later as [| e later IH]; cbn [getMaxJitSize_calls].
  - split; [constructor | reflexivity].
  - rewrite (getMaxJitSize_cached stoi e length' Hne).
    destruct IH as [IH1 IH2]. split; [constructor; [reflexivity | exact IH1] |].
    cbn. now rewrite IH2.
Qed.

(* ===================================================================== *)
(** ** The handle cache *)
(* ===================================================================== *)

Section HandleCacheFacts.
Variable new_handle : nat -> outcome Z.

Lemma blasHandle_served (w : World) (c : HandleCache) (h : Z) :
  serves c (getActiveDeviceId w) h ->
  blasHandle new_handle w c = (Ret h, c).
Proof.
  intros [Hflag Hslot]. unfold blasHandle, call_once_new.
  now rewrite Hflag, Hslot.
Qed.

(** A call for any device leaves a served device served, with the same
    handle. *)
Lemma blasHandle_keeps_served (w : World) (c : HandleCache) (i h : Z) :
  serves c i h -> serves (snd (blasHandle new_handle w c)) i h.
Proof.
  intros [Hflag Hslot]. unfold blasHandle, call_once_new.
  set (id := getActiveDeviceId w).
  destruct (vec_at (initFlags c) id) as [[|] | e |] eqn:Hid; cbn [snd].
  - destruct (vec_at (cublasHandles c) id) as [[h' |] | e |]; now split.
  - destruct (new_handle (constructions c)) as [h' | e |]; try now split.
    destruct (vec_at (cublasHandles c) id) as [s0 | e |] eqn:Hs; try now split.
    assert (Hne : i <> id) by (intros ->; congruence).
    assert (Hkept : serves (mkCache (vec_set (initFlags c) (Z.to_nat id) true)
                                    (vec_set (cublasHandles c) (Z.to_nat id) (Some h'))
                                    (S (constructions c))) i h).
    { split; cbn [initFlags cublasHandles].
      - rewrite (vec_at_vec_set _ i id true false true Hid Hflag).
        destruct (Z.eqb_spec i id); [contradiction | reflexivity].
      - rewrite (vec_at_vec_set _ i id (Some h') s0 (Some h) Hs Hslot).
        destruct (Z.eqb_spec i id); [contradiction | reflexivity]. }
    cbn [cublasHandles].
    destruct (vec_at (vec_set (cublasHandles c) (Z.to_nat id) (Some h')) id)
      as [[h'' |] | e |]; exact Hkept.
  - now split.
  - now split.
Qed.

Lemma blasHandle_calls_keep_served (ws : list World) :
  forall (c : HandleCache) (i h : Z),
    serves c i h -> serves (blasHandle_calls new_handle ws c) i h.
Proof.
  induction ws as [| w ws IH]; intros c i h Hs; cbn [blasHandle_calls]; [exact Hs |].
  apply IH, blasHandle_keeps_served, Hs.
Qed.

(** A call that returns a handle has served its device. *)
Lemma blasHandle_Ret_serves (w : World) (c c' : HandleCache) (h : Z) :
  blasHandle new_handle w c = (Ret h, c') -> serves c' (getActiveDeviceId w) h.
Proof.
  unfold blasHandle, call_once_new. set (id := getActiveDeviceId w).
  destruct (vec_at (initFlags c) id) as [[|] | e |] eqn:Hid; try discriminate.
  - destruct (vec_at (cublasHandles c) id) as [[h' |] | e |] eqn:Hs; try discriminate.
    intros [= <- <-]. now split.
  - destruct (new_handle (constructions c)) as [h' | e |]; try discriminate.
    destruct (vec_at (cublasHandles c) id) as [s0 | e |] eqn:Hs; try discriminate.
    cbn [cublasHandles].
    rewrite (vec_at_vec_set _ id id (Some h') s0 s0 Hs Hs), Z.eqb_refl.
    intros [= <- <-]. split; cbn [initFlags cublasHandles].
    + now rewrite (vec_at_vec_set _ id id true false false Hid Hid), Z.eqb_refl.
    + now rewrite (vec_at_vec_set _ id id (Some h') s0 s0 Hs Hs), Z.eqb_refl.
Qed.

(** X20.  Once [blasHandle] has returned a handle for a device, every
    later call for that device returns the same handle without running
    the constructor, whatever calls for this or other devices, returning
    or throwing, were made in between. *)
Theorem blasHandle_constructs_once
        (w w2 : World) (ws : list World) (c c1 : HandleCache) (h : Z) :
  blasHandle new_handle w c = (Ret h, c1) ->
  getActiveDeviceId w2 = getActiveDeviceId w ->
  let c2 := blasHandle_calls new_handle ws c1 in
  blasHandle new_handle w2 c2 = (Ret h, c2).
Proof.
  intros Hfirst Hsame c2. apply blasHandle_served. rewrite Hsame.
  apply blasHandle_calls_keep_served. eapply blasHandle_Ret_serves, Hfirst.
Qed.

(** The constructor runs at most once per call, and only for a device
    whose flag is not yet set; a flag that is set stays set. *)
Lemma blasHandle_construction_count (w : World) (c : HandleCache) :
  let c' := snd (blasHandle new_handle w c) in
  (constructions c <= constructions c' <= S (constructions c))%nat /\
  (vec_at (initFlags c) (getActiveDeviceId w) = Ret true ->
   constructions c' = constructions c) /\
  (forall i, vec_at (initFlags c) i = Ret true -> vec_at (initFlags c') i = Ret true).
Proof.
  cbv zeta. unfold blasHandle, call_once_new. set (id := getActiveDeviceId w).
  destruct (vec_at (initFlags c) id) as [[|] | e |] eqn:Hid; cbn [snd].
  - destruct (vec_at (cublasHandles c) id) as [[h' |] | e |]; cbn [snd]; auto.
  - split; [| split]; try discriminate.
    + destruct (new_handle (constructions c)) as [h' | e |];
        cbn [snd constructions]; try lia.
      destruct (vec_at (cublasHandles c) id) as [s0 | e |];
        cbn [snd constructions cublasHandles]; try lia.
      destruct (vec_at (vec_set (cublasHandles c) (Z.to_nat id) (Some h')) id)
        as [[h'' |] | e |]; cbn [snd constructions]; lia.
    + intros i Hi.
      destruct (new_handle (constructions c)) as [h' | e |];
        cbn [snd initFlags]; trivial.
      destruct (vec_at (cublasHandles c) id) as [s0 | e |];
        cbn [snd initFlags cublasHandles]; trivial.
      assert (Hset : vec_at (vec_set (initFlags c) (Z.to_nat id) true) i = Ret true).
      { rewrite (vec_at_vec_set _ i id true false true Hid Hi).
        now destruct (i =? id). }
      destruct (vec_at (vec_set (cublasHandles c) (Z.to_nat id) (Some h')) id)
        as [[h'' |] | e |]; cbn [snd initFlags]; exact Hset.
  - auto.
  - auto.
Qed.
End HandleCacheFacts.

(* ===================================================================== *)
(** ** The further facts on the concrete machines *)
(* ===================================================================== *)

(** A switch to the busy device 1 of the three-device machine, after a
    queue was requested for device 2: slot 0 keeps its handle 2, and slot
    2, where the scan creates the stream it ends on, goes from handle 4
    to handle 9. *)
Lemma setActiveDevice_frame_witness :
  let w := snd (getStream (three_gpu_platform "" 1) release_build 2 bootstrapped) in
  let w' := snd (setDevice (three_gpu_platform "" 1) release_build 1 w) in
  (cuDevices w' = cuDevices w /\
   getDeviceCount w' = getDeviceCount w /\
   (first w = false -> first w' = false) /\
   (forall i h, vec_at (streams w) i = Ret h -> h <> 0 ->
                exists h', vec_at (streams w') i = Ret h' /\ h' <> 0 /\
                           (i <= 1 -> h' = h))) /\
  (vec_at (streams w) 0 = Ret 2 /\ vec_at (streams w') 0 = Ret 2) /\
  (vec_at (streams w) 2 = Ret 4 /\ vec_at (streams w') 2 = Ret 9).
Proof.
  cbv zeta. split.
  - apply (setActiveDevice_frame (three_gpu_platform "" 1) release_build
             (snd (getStream (three_gpu_platform "" 1) release_build 2 bootstrapped))
             (snd (setDevice (three_gpu_platform "" 1) release_build 1
                     (snd (getStream (three_gpu_platform "" 1) release_build 2
                                     bootstrapped))))
             1 (-1)
             (fst (setDevice (three_gpu_platform "" 1) release_build 1
                     (snd (getStream (three_gpu_platform "" 1) release_build 2
                                     bootstrapped))))).
    vm_compute. reflexivity.
  - vm_compute. repeat split.
Defined.

(** The same switch returns 0 and leaves device 2 active with a queue. *)
Lemma setActiveDevice_returns_with_queue_witness :
  let w' := snd (setDevice (three_gpu_platform "" 1) release_build 1 bootstrapped) in
  0 = getActiveDeviceId bootstrapped /\
  1 <= getActiveDeviceId w' <= cuDevices_size w' /\
  exists h, vec_at (streams w') (getActiveDeviceId w') = Ret h /\ h <> 0.
Proof.
  apply (setActiveDevice_returns_with_queue (three_gpu_platform "" 1) release_build
           bootstrapped
           (snd (setDevice (three_gpu_platform "" 1) release_build 1 bootstrapped))
           1 (-1) 0).
  - vm_compute. discriminate.
  - vm_compute. reflexivity.
Defined.

(** Past its first failure, the registry is switched to device 2: the
    queue of device 1 keeps its handle. *)
Lemma setActiveDevice_keeps_handles_witness :
  vec_at (streams (snd (setDevice (three_gpu_platform "3" 0) release_build 2
                                  bootstrapped_on_fallback))) 1 = Ret 4.
Proof.
  apply (setActiveDevice_keeps_handles (three_gpu_platform "3" 0) release_build
           bootstrapped_on_fallback
           (snd (setDevice (three_gpu_platform "3" 0) release_build 2
                           bootstrapped_on_fallback))
           2 (-1)
           (fst (setDevice (three_gpu_platform "3" 0) release_build 2
                           bootstrapped_on_fallback))).
  - vm_compute. reflexivity.
  - vm_compute. reflexivity.
  - vm_compute. reflexivity.
  - lia.
Defined.

(** [getStream(2)] twice on the freshly constructed registry. *)
Lemma getStream_again_witness :
  let w' := snd (getStream (three_gpu_platform "" 1) release_build 2 bootstrapped) in
  getStream (three_gpu_platform "" 1) release_build 2 w' = (Ret 4, w').
Proof.
  apply (getStream_again (three_gpu_platform "" 1) release_build bootstrapped
           (snd (getStream (three_gpu_platform "" 1) release_build 2 bootstrapped))
           2 4).
  - split.
    + vm_compute. discriminate.
    + intros _. exists 2. split; [vm_compute; reflexivity | lia].
  - vm_compute. reflexivity.
  - lia.
Defined.

(** Device 1 runs out of memory when its stream is created. *)
Lemma setActiveDevice_other_failure_at_first_witness :
  exists w',
    setActiveDevice (three_gpu_platform_failing 1 cudaErrorMemoryAllocation)
                    release_build 1 (-1)
                    (bootstrapped_failing cudaErrorMemoryAllocation) =
      (Throw (cuda_exception cudaErrorMemoryAllocation), w') /\
    getActiveDeviceId w' = 1 /\
    first w' = false /\
    streams w' = streams (bootstrapped_failing cudaErrorMemoryAllocation) /\
    cudaCalls w' = S (S (cudaCalls (bootstrapped_failing cudaErrorMemoryAllocation))).
Proof.
  apply (setActiveDevice_other_failure_at_first
           (three_gpu_platform_failing 1 cudaErrorMemoryAllocation) release_build
           (bootstrapped_failing cudaErrorMemoryAllocation) 1 (-1) 1
           cudaErrorMemoryAllocation).
  - vm_compute. discriminate.
  - vm_compute. reflexivity.
  - vm_compute. reflexivity.
  - vm_compute. reflexivity.
  - vm_compute. reflexivity.
  - vm_compute. reflexivity.
  - vm_compute. discriminate.
  - vm_compute. discriminate.
Defined.

Lemma three_cards_slot (w : World) (k : Z) (dk : cudaDevice_t) :
  cuDevices w = cuDevices bootstrapped ->
  vec_at (cuDevices w) k = Ret dk -> nativeId dk = k /\ 0 <= k < 3.
Proof.
  intros -> Hk. pose proof (vec_at_Ret_range _ _ _ Hk) as Hr.
  change (Z.of_nat (List.length (cuDevices bootstrapped))) with 3 in Hr.
  assert (Hcases : k = 0 \/ k = 1 \/ k = 2) by lia.
  destruct Hcases as [-> | [-> | ->]]; vm_compute in Hk; injection Hk as <-;
    (split; [reflexivity | lia]).
Qed.

(** Device 1 is busy and device 2 is free. *)
Lemma setActiveDevice_scans_to_next_free_witness :
  exists w' handle,
    setActiveDevice (three_gpu_platform "" 1) release_build 1 (-1) bootstrapped =
      (Ret (getActiveDeviceId bootstrapped), w') /\
    getActiveDeviceId w' = 2 /\
    first w' = false /\
    handle <> 0 /\
    streams w' = vec_set (streams bootstrapped) (Z.to_nat 2) handle.
Proof.
  apply (setActiveDevice_scans_to_next_free (three_gpu_platform "" 1) release_build
           bootstrapped 1 (-1) 2 (enumerate_device (three_cards 1) 1)).
  - vm_compute. reflexivity.
  - lia.
  - vm_compute. reflexivity.
  - vm_compute. reflexivity.
  - vm_compute. reflexivity.
  - vm_compute. reflexivity.
  - vm_compute. reflexivity.
  - intros k dk Hk Hdk t.
    destruct (three_cards_slot bootstrapped k dk eq_refl Hdk) as [-> Hr].
    assert (Hcases : k = 1 \/ k = 2) by lia.
    destruct Hcases as [-> | ->]; reflexivity.
  - intros k dk Hk Hdk t.
    destruct (three_cards_slot bootstrapped k dk eq_refl Hdk) as [-> Hr].
    assert (k = 1) as -> by lia. reflexivity.
  - intros dj Hdj t.
    destruct (three_cards_slot bootstrapped 2 dj eq_refl Hdj) as [-> _]. reflexivity.
Defined.

(** Devices 1 and 2 are both busy: a switch to device 1 makes four
    runtime calls, two for each of them, and leaves the runtime on
    device 2. *)
Lemma setActiveDevice_all_unavailable_witness :
  exists w',
    setActiveDevice (three_gpu_platform_failing 1 cudaErrorDevicesUnavailable)
                    release_build 1 (-1)
                    (bootstrapped_failing cudaErrorDevicesUnavailable) =
      (Throw (cuda_exception cudaErrorDevicesUnavailable), w') /\
    getActiveDeviceId w' = 1 /\
    first w' = false /\
    streams w' = streams (bootstrapped_failing cudaErrorDevicesUnavailable) /\
    cudaCalls w' =
      (cudaCalls (bootstrapped_failing cudaErrorDevicesUnavailable) + 4)%nat /\
    cudaCurrent w' = 2.
Proof.
  destruct (setActiveDevice_all_unavailable
              (three_gpu_platform_failing 1 cudaErrorDevicesUnavailable) release_build
              (bootstrapped_failing cudaErrorDevicesUnavailable) 1 (-1)
              (enumerate_device (three_cards 1) 1))
    as (w' & last & Hrun & Hactive & Hfirst & Hstreams & Hcalls & Hlast & Hcurrent).
  - vm_compute. reflexivity.
  - lia.
  - vm_compute. discriminate.
  - vm_compute. reflexivity.
  - vm_compute. reflexivity.
  - vm_compute. reflexivity.
  - intros k dk Hk Hdk.
    destruct (three_cards_slot (bootstrapped_failing cudaErrorDevicesUnavailable)
                k dk ltac:(vm_compute; reflexivity) Hdk) as [-> Hr].
    assert (Hcases : k = 1 \/ k = 2) by lia.
    destruct Hcases as [-> | ->]; split; intros t; reflexivity.
  - exists w'. vm_compute in Hlast. injection Hlast as <-.
    repeat split; try assumption.
Defined.

(** Native id 7 is not on the three-device machine. *)
Lemma getDeviceIdFromNativeId_first_match_witness :
  exists j,
    getDeviceIdFromNativeId bootstrapped 7 = Ret j /\
    0 <= j <= getDeviceCount bootstrapped /\
    (forall i, 0 <= i < j -> getDeviceNativeId bootstrapped i <> Ret 7) /\
    (j < getDeviceCount bootstrapped -> getDeviceNativeId bootstrapped j = Ret 7) /\
    (j = getDeviceCount bootstrapped <->
     ~ In 7 (map nativeId (cuDevices bootstrapped))).
Proof.
  apply (getDeviceIdFromNativeId_first_match bootstrapped 7).
  vm_compute. reflexivity.
Defined.

Lemma bootstrapped_natives_NoDup : NoDup (map nativeId (cuDevices bootstrapped)).
Proof.
  change (map nativeId (cuDevices bootstrapped)) with [0; 1; 2].
  repeat constructor; cbn; intuition discriminate.
Qed.

(** Logical index 2 of the three-device machine. *)
Lemma logical_index_round_trip_witness :
  exists n, getDeviceNativeId bootstrapped 2 = Ret n /\
            getDeviceIdFromNativeId bootstrapped n = Ret 2.
Proof.
  apply (logical_index_round_trip bootstrapped 2).
  - vm_compute. reflexivity.
  - exact bootstrapped_natives_NoDup.
  - vm_compute. split; [discriminate | reflexivity].
Defined.

(** Construction on the three-device machine with device 1 busy. *)
Lemma construction_postcondition_witness :
  let n := snd (cudaGetDeviceCount (three_gpu_platform "" 1)) in
  fst (cudaGetDeviceCount (three_gpu_platform "" 1)) = cudaSuccess /\
  0 < n /\
  getDeviceCount bootstrapped = n /\
  cuDevices_size bootstrapped = n /\
  cuDevices bootstrapped =
    sortDevices_list (sortDevices_default release_build)
                     (enumerate_devices (three_gpu_platform "" 1) n) /\
  Permutation (map nativeId (cuDevices bootstrapped)) (upto n) /\
  NoDup (map nativeId (cuDevices bootstrapped)) /\
  0 <= getActiveDeviceId bootstrapped < n /\
  exists h, vec_at (streams bootstrapped) (getActiveDeviceId bootstrapped) = Ret h /\
            h <> 0.
Proof.
  apply (construction_postcondition (three_gpu_platform "" 1) release_build bootstrapped).
  vm_compute. reflexivity.
Defined.

(** The registry of the three-device machine, and a switch from it. *)
Lemma registry_ok_invariant_witness :
  registry_ok bootstrapped /\
  registry_ok (snd (setDevice (three_gpu_platform "" 1) release_build 1 bootstrapped)).
Proof.
  destruct (registry_ok_invariant (three_gpu_platform "" 1) release_build)
    as (Hctor & Hswitch & _).
  assert (Hok : registry_ok bootstrapped).
  { apply Hctor. vm_compute. reflexivity. }
  split; [exact Hok |].
  apply (Hswitch bootstrapped _ 1 (-1)
                 (fst (setDevice (three_gpu_platform "" 1) release_build 1 bootstrapped))
                 Hok).
  vm_compute. reflexivity.
Defined.

(** The environment names device 1, which is free. *)
Lemma ctor_selects_default_device_witness :
  exists w,
    getInstance (three_gpu_platform "1" 2) release_build = (Ret tt, w) /\
    getActiveDeviceId w = 1 /\
    console w = [] /\
    first w = true /\
    cuDevices w = sortDevices_list (sortDevices_default release_build)
                    (enumerate_devices (three_gpu_platform "1" 2) 3) /\
    cudaCurrent w = nativeId (enumerate_device (three_cards 1) 1) /\
    vec_at (streams w) 1 = Ret 2.
Proof.
  apply (ctor_selects_default_device (three_gpu_platform "1" 2) release_build 3 1
           (enumerate_device (three_cards 1) 1)).
  - reflexivity.
  - right. split; [vm_compute; discriminate |].
    split; [vm_compute; split; [discriminate | reflexivity] | reflexivity].
  - vm_compute. reflexivity.
  - vm_compute. reflexivity.
  - reflexivity.
  - reflexivity.
Defined.

(** [card_A] and [card_B], enumerated in either order. *)
Lemma sortDevices_order_independent_witness :
  sortDevices_list sort_mode.memory [card_A; card_B] =
  sortDevices_list sort_mode.memory [card_B; card_A].
Proof.
  apply (sortDevices_order_independent sort_mode.memory [card_A; card_B] [card_B; card_A]).
  - change (map nativeId [card_A; card_B]) with [0; 1].
    repeat constructor; cbn; intuition discriminate.
  - apply perm_swap.
Defined.

(** The name of the GTX 1080 Ti in zero-filled arrays. *)
Lemma devprop_name_witness :
  exists b',
    devprop "8.0" zeroed_buffers single_device_world = (Ret b', single_device_world) /\
    let text := c_str (list_ascii_of_string (name gtx_1080_ti)) in
    c_str (d_name b') = underscored (firstn 63 text) /\
    ~ In SPACE (c_str (d_name b')) /\
    ((List.length text <= 63)%nat -> ~ In SPACE text -> c_str (d_name b') = text) /\
    c_str (d_platform b') = list_ascii_of_string "CUDA".
Proof.
  apply (devprop_name single_device_world "8.0" zeroed_buffers gtx_1080_ti).
  - vm_compute. reflexivity.
  - vm_compute. reflexivity.
  - apply Nat.leb_le. vm_compute. reflexivity.
  - apply Nat.leb_le. vm_compute. reflexivity.
  - apply Nat.leb_le. vm_compute. reflexivity.
  - apply Nat.leb_le. vm_compute. reflexivity.
Defined.

Example devprop_gtx_1080_ti :
  c_str (sanitize_name (snprintf_s 64 (list_ascii_of_string "GeForce GTX 1080 Ti")
                                   (repeat NUL 64))) =
  list_ascii_of_string "GeForce_GTX_1080_Ti".
Proof. reflexivity. Qed.

(** [sync(2)] on the freshly constructed registry. *)
Lemma sync_restores_active_device_witness :
  getActiveDeviceId
    (snd (sync (three_gpu_platform "" 1) release_build synchronize_ok 2 bootstrapped)) =
  getActiveDeviceId bootstrapped.
Proof.
  apply (sync_restores_active_device (three_gpu_platform "" 1) release_build
           synchronize_ok bootstrapped
           (snd (sync (three_gpu_platform "" 1) release_build synchronize_ok 2
                      bootstrapped))
           2).
  - split.
    + vm_compute. discriminate.
    + intros _. exists 2. split; [vm_compute; reflexivity | lia].
  - vm_compute. reflexivity.
Defined.

(** Native id 7 on the three-device machine. *)
Lemma afcu_set_native_id_unknown_witness :
  getDeviceIdFromNativeId bootstrapped 7 = Ret (getDeviceCount bootstrapped) /\
  resolve_native bootstrapped (getDeviceCount bootstrapped) (-1) = Ret (-1) /\
  afcu_set_native_id (three_gpu_platform "" 1) release_build af_boundary 7 bootstrapped =
    (Ret (CATCHALL af_boundary (cuda_exception cudaErrorInvalidDevice)),
     tick bootstrapped).
Proof.
  apply (afcu_set_native_id_unknown (three_gpu_platform "" 1) release_build af_boundary
           bootstrapped 7 cudaErrorInvalidDevice).
  - vm_compute. reflexivity.
  - change (map nativeId (cuDevices bootstrapped)) with [0; 1; 2].
    cbn. intuition discriminate.
  - vm_compute. reflexivity.
  - vm_compute. discriminate.
Defined.

(** Native id 0, whose device is active and has its queue. *)
Lemma afcu_set_native_id_known_witness :
  afcu_set_native_id (three_gpu_platform "" 1) release_build af_boundary
                     (nativeId (enumerate_device (three_cards 0) 0)) bootstrapped =
    (Ret (AF_SUCCESS af_boundary),
     set_activeDev 0
       (tick (set_cudaCurrent (nativeId (enumerate_device (three_cards 0) 0))
                              bootstrapped))).
Proof.
  apply (afcu_set_native_id_known (three_gpu_platform "" 1) release_build af_boundary
           bootstrapped 0 2 (enumerate_device (three_cards 0) 0)).
  - vm_compute. reflexivity.
  - exact bootstrapped_natives_NoDup.
  - vm_compute. reflexivity.
  - vm_compute. reflexivity.
  - vm_compute. reflexivity.
  - lia.
Defined.

(** The first call reads "250"; the environment changes afterwards. *)
Lemma getMaxJitSize_memoized_witness :
  250 = unsigned_wrap 250 /\
  Forall (fun r => r = Ret 250) (getMaxJitSize_calls stoi_decimal ["7"; ""; "x"] 250) /\
  List.length (getMaxJitSize_calls stoi_decimal ["7"; ""; "x"] 250) =
  List.length ["7"; ""; "x"].
Proof.
  apply (getMaxJitSize_memoized stoi_decimal "250" 0 250 250 ["7"; ""; "x"]).
  - vm_compute. reflexivity.
  - lia.
Defined.

(** Device 0 is served first; calls for devices 2 and 0 follow. *)
Lemma blasHandle_constructs_once_witness :
  let c1 := snd (blasHandle numbered_handles bootstrapped empty_cache) in
  let c2 := blasHandle_calls numbered_handles
              [set_activeDev 2 bootstrapped; bootstrapped] c1 in
  blasHandle numbered_handles bootstrapped c2 = (Ret 100, c2).
Proof.
  apply (blasHandle_constructs_once numbered_handles bootstrapped bootstrapped
           [set_activeDev 2 bootstrapped; bootstrapped] empty_cache
           (snd (blasHandle numbered_handles bootstrapped empty_cache)) 100).
  - vm_compute. reflexivity.
  - reflexivity.
Defined.

(* ===================================================================== *)
(** ** Score and range test, as far as they go *)
(* ===================================================================== *)

(** X21.  The descriptor made for native device [i] keeps the properties
    and the native id; its score is the product of multiprocessor count,
    per-core count and clock rate whenever the products fit in [int],
    and 0 when the compute version is not in the table. *)
Theorem enumerate_device_score (p : cudaDeviceProp) (i : Z) :
  let cores := compute2cores (major p) (minor p) in
  prop (enumerate_device p i) = p /\
  nativeId (enumerate_device p i) = i /\
  (in_int (multiProcessorCount p * cores) ->
   0 <= multiProcessorCount p * cores * clockRate p <= INT_MAX ->
   flops (enumerate_device p i) = multiProcessorCount p * cores * clockRate p) /\
  (~ In (version_code (major p) (minor p)) (map fst gpus) ->
   cores = 0 /\ flops (enumerate_device p i) = 0).
Proof.
  intros cores. split; [reflexivity |]. split; [reflexivity |]. split.
  - apply flops_in_range.
  - intros Habs. split; [now apply compute2cores_absent | now apply flops_absent].
Qed.

(** A card of compute version 6.1 with 20 multiprocessors at 1 MHz. *)
Lemma enumerate_device_score_witness :
  flops card_A = 20 * 64 * 1000.
Proof.
  destruct (enumerate_device_score (card "A" 4000000000 20) 0) as (_ & _ & H & _).
  apply H.
  - vm_compute. split; discriminate.
  - vm_compute. split; discriminate.
Defined.

(** X22.  A logical index above the device count is refused by the range
    test: the switch returns -1 and changes nothing, not even the
    runtime's current device. *)
Theorem setActiveDevice_refuses_above_count
        (P : Platform) (B : Build) (w : World) (device nId : Z) :
  getDeviceCount w = cuDevices_size w ->
  getDeviceCount w < device ->
  setActiveDevice P B device nId w = (Ret (-1), w).
Proof.
  unfold getDeviceCount. intros Hn Hd.
  apply setActiveDevice_above_count. lia.
Qed.

(** Index 4 on the three-device machine. *)
Lemma setActiveDevice_refuses_above_count_witness :
  setActiveDevice (three_gpu_platform "" 1) release_build 4 (-1) bootstrapped =
  (Ret (-1), bootstrapped).
Proof.
  apply (setActiveDevice_refuses_above_count (three_gpu_platform "" 1) release_build
           bootstrapped 4 (-1)).
  - vm_compute. reflexivity.
  - vm_compute. reflexivity.
Defined.

(* ===================================================================== *)
(** ** First request of a queue, and failed construction *)
(* ===================================================================== *)

(** X23.  [getStream(d)] for a device whose queue does not exist yet,
    when the runtime accepts both switches and creates the stream:
    the call returns the new handle, which is not null and now sits in
    slot [d], the handle of the active device is kept, and the device
    that was active is active again. *)
Theorem getStream_first_request
        (P : Platform) (B : Build) (w : World) (d nd na h : Z) :
  d <= cuDevices_size w ->
  vec_at (streams w) d = Ret 0 ->
  getDeviceNativeId w d = Ret nd ->
  cudaSetDevice P (cudaCalls w) nd = cudaSuccess ->
  cudaStreamCreate P (S (cudaCalls w)) nd = cudaSuccess ->
  getActiveDeviceId w <= cuDevices_size w ->
  vec_at (streams w) (getActiveDeviceId w) = Ret h -> h <> 0 ->
  getDeviceNativeId w (getActiveDeviceId w) = Ret na ->
  cudaSetDevice P (S (S (cudaCalls w))) na = cudaSuccess ->
  exists w' handle,
    getStream P B d w = (Ret handle, w') /\
    handle <> 0 /\
    vec_at (streams w') d = Ret handle /\
    vec_at (streams w') (getActiveDeviceId w) = Ret h /\
    getActiveDeviceId w' = getActiveDeviceId w /\
    cudaCurrent w' = na.
Proof.
  intros Hd Hslot Hnd Hset Hcreate Ha Hqa Hh Hna Hback.
  unfold getActiveDeviceId in *.
  assert (Hne : activeDev w <> d) by (intros E; rewrite E in Hqa; congruence).
  pose proof (setActiveDevice_creates_queue P B w d (-1) nd Hd Hnd Hset Hslot Hcreate)
    as H1.
  set (handle := Z.of_nat (S (S (cudaCalls w)))) in *.
  set (w1 := set_activeDev d _) in H1.
  assert (Hs1 : vec_at (streams w1) d = Ret handle).
  { subst w1. cbn [streams set_activeDev tick set_streams set_cudaCurrent].
    rewrite (vec_at_vec_set _ d d handle 0 0 Hslot Hslot).
    now rewrite Z.eqb_refl. }
  assert (Hqa1 : vec_at (streams w1) (activeDev w) = Ret h).
  { subst w1. cbn [streams set_activeDev tick set_streams set_cudaCurrent].
    rewrite (vec_at_vec_set _ (activeDev w) d handle 0 h Hslot Hqa).
    destruct (Z.eqb_spec (activeDev w) d); [contradiction | reflexivity]. }
  pose proof (setActiveDevice_existing_queue P B w1 (activeDev w) (-1) na h
                Ha Hna Hback Hqa1 Hh) as H2.
  exists (set_activeDev (activeDev w) (tick (set_cudaCurrent na w1))), handle.
  split; [| split; [subst handle; lia | cbn; auto]].
  unfold getStream. rewrite (bind_read _ _ _ 0) by exact Hslot.
  cbn [Z.eqb]. rewrite bind_gets. unfold setDevice.
  rewrite (bind_Ret _ _ _ _ _ H1).
  rewrite (bind_read _ _ _ handle) by exact Hs1.
  rewrite (bind_Ret _ _ _ _ _ H2). reflexivity.
Qed.

(** Device 2 of the freshly constructed registry. *)
Lemma getStream_first_request_witness :
  exists w' handle,
    getStream (three_gpu_platform "" 1) release_build 2 bootstrapped =
      (Ret handle, w') /\
    handle <> 0 /\
    vec_at (streams w') 2 = Ret handle /\
    vec_at (streams w') (getActiveDeviceId bootstrapped) = Ret 2 /\
    getActiveDeviceId w' = getActiveDeviceId bootstrapped /\
    cudaCurrent w' = 0.
Proof.
  apply (getStream_first_request (three_gpu_platform "" 1) release_build
           bootstrapped 2 2 0 2).
  - vm_compute. discriminate.
  - vm_compute. reflexivity.
  - vm_compute. reflexivity.
  - vm_compute. reflexivity.
  - vm_compute. reflexivity.
  - vm_compute. discriminate.
  - vm_compute. reflexivity.
  - lia.
  - vm_compute. reflexivity.
  - vm_compute. reflexivity.
Defined.

(** X24.  Construction fails when the runtime cannot count the devices
    or counts none: it throws the runtime's error, respectively the
    error "No CUDA-Capable devices found", before any descriptor is
    made or any device is switched to. *)
Theorem construction_fails_without_devices (P : Platform) (B : Build)
        (e : cudaError_t) (n : Z) :
  cudaGetDeviceCount P = (e, n) ->
  e <> cudaSuccess \/ n = 0 ->
  getInstance P B =
    (Throw (if e =? cudaSuccess
            then runtime_error "No CUDA-Capable devices found"
            else cuda_exception e),
     set_nDevices n initial_world).
Proof.
  intros Hcount Hcase. unfold getInstance, DeviceManager_ctor. rewrite Hcount.
  rewrite bind_modify. unfold bind at 1. unfold CUDA_CHECK.
  destruct (Z.eqb_spec e cudaSuccess) as [-> | Hne].
  - destruct Hcase as [Hc | ->]; [contradiction |]. reflexivity.
  - reflexivity.
Qed.

(** A machine on which the runtime counts no device. *)
Lemma construction_fails_without_devices_witness :
  getInstance (mkPlatform (cudaSuccess, 0) three_cards
                          (fun _ _ => cudaSuccess) (fun _ _ => cudaSuccess)
                          (fun _ => "") (fun _ init => init))
              release_build =
    (Throw (runtime_error "No CUDA-Capable devices found"),
     set_nDevices 0 initial_world).
Proof.
  apply (construction_fails_without_devices
           (mkPlatform (cudaSuccess, 0) three_cards
                       (fun _ _ => cudaSuccess) (fun _ _ => cudaSuccess)
                       (fun _ => "") (fun _ init => init))
           release_build cudaSuccess 0).
  - reflexivity.
  - right. reflexivity.
Defined.
